(** * Voice pipeline native bridge: buffer copy helpers and the ONNX wrapper

    A shallow embedding of
      - [voice/pipelines/kmp/libs/copyhelper/copyhelper.c]
      - [voice/kmp-pipeline/libs/onnx_wrapper/onnx_wrapper.c]

    Conventions.
      - A C buffer of [float] is a [list] of elements.  The code only moves
        floats, it never computes with them: the copy helpers are generic in
        the element type and the wrapper takes a float to be its 32-bit
        pattern.
      - [size_t] is a [Z] reduced modulo [2^64], [int] a [Z] reduced into
        [-2^31 .. 2^31-1]; every wrap-around is written out.
      - A pointer that may be [NULL] is an [option].
      - An access outside a buffer, or through [NULL], is undefined behaviour
        in C; the embedding reports it as a fault ([None] for the pure
        helpers, [Fault] for the wrapper). *)

From Stdlib Require Import String.
From Stdlib Require Import ZArith List Lia Bool RelationClasses.
Import ListNotations.
Open Scope Z_scope.

(** ** Machine integers *)

Module MachInt.

Definition size_modulus : Z := 2 ^ 64.
Definition int_modulus : Z := 2 ^ 32.
Definition int_half : Z := 2 ^ 31.

(** Reduction of a mathematical integer to [size_t]. *)
Definition to_size (x : Z) : Z := x mod size_modulus.

(** Conversion to [int] (two's complement truncation). *)
Definition to_int (x : Z) : Z := (x + int_half) mod int_modulus - int_half.

Definition sizeof_float : Z := 4.
Definition sizeof_int64 : Z := 8.

End MachInt.

(** ** Buffers *)

Module Buffer.
Import MachInt.

Section Buffers.
Context {A : Type}.

(** Element [i] of a buffer, [None] outside the buffer. *)
Definition get (l : list A) (i : Z) : option A :=
  if i <? 0 then None else nth_error l (Z.to_nat i).

(** [splice dst off xs]: [dst] with the elements from [off] on overwritten
    by [xs]. *)
Definition splice (dst : list A) (off : nat) (xs : list A) : list A :=
  firstn off dst ++ xs ++ skipn (off + length xs) dst.

(** [dst[i] = x]; a fault outside the buffer. *)
Definition store (dst : list A) (i : Z) (x : A) : option (list A) :=
  if (0 <=? i) && (i <? Z.of_nat (length dst))
  then Some (splice dst (Z.to_nat i) [x])
  else None.

(** [memcpy(dst + doff, src + soff, nbytes)] on float buffers.  [nbytes] is
    always a multiple of [sizeof(float)] in this code base.  Both ranges have
    to lie inside their buffers. *)
Definition memcpy (dst : list A) (doff : Z) (src : list A) (soff : Z)
                  (nbytes : Z) : option (list A) :=
  let n := nbytes / sizeof_float in
  if (0 <=? doff) && (0 <=? soff) && (0 <=? n)
     && (doff + n <=? Z.of_nat (length dst))
     && (soff + n <=? Z.of_nat (length src))
  then Some (splice dst (Z.to_nat doff)
                    (firstn (Z.to_nat n) (skipn (Z.to_nat soff) src)))
  else None.

End Buffers.
End Buffer.

(** ** copyhelper.c *)

Module CopyHelper.
Import MachInt Buffer.

Section Copy.
Context {A : Type}.

(** A float buffer that fits in the address space: its size in bytes is a
    [size_t]. *)
Definition addressable (l : list A) : Prop :=
  Z.of_nat (length l) * sizeof_float < size_modulus.

(** [void copy_floats(const float* src, float* dst, size_t count)] *)
Definition copy_floats (src dst : list A) (count : Z) : option (list A) :=
  memcpy dst 0 src 0 (to_size (count * sizeof_float)).

(** [void copy_mlarray_to_floats(const void* src, float* dst, size_t count)] *)
Definition copy_mlarray_to_floats (src dst : list A) (count : Z)
  : option (list A) :=
  memcpy dst 0 src 0 (to_size (count * sizeof_float)).

(** [void copy_floats_to_mlarray(const float* src, void* dst, size_t count)] *)
Definition copy_floats_to_mlarray (src dst : list A) (count : Z)
  : option (list A) :=
  memcpy dst 0 src 0 (to_size (count * sizeof_float)).

(** The loop of [copy_strided_to_contiguous], [n] iterations left, loop
    variable [i]:
    [for (size_t i = 0; i < count; i++) dst[i] = src[i * stride];] *)
Fixpoint strided_loop (n : nat) (i : Z) (src dst : list A) (stride : Z)
  : option (list A) :=
  match n with
  | O => Some dst
  | S n' =>
      match get src (to_size (i * stride)) with
      | None => None
      | Some x =>
          match store dst i x with
          | None => None
          | Some dst1 => strided_loop n' (i + 1) src dst1 stride
          end
      end
  end.

(** [void copy_strided_to_contiguous(const float* src, float* dst,
                                     size_t count, size_t stride)] *)
Definition copy_strided_to_contiguous (src dst : list A) (count stride : Z)
  : option (list A) :=
  strided_loop (Z.to_nat count) 0 src dst stride.

(** The [else] branch of [copy_2d_output], [n] rows left, loop variable [t]:
    [memcpy(dst + t * vocab, srcPtr + t * stride1, vocab * sizeof(float));] *)
Fixpoint copy_rows (n : nat) (t : Z) (src dst : list A) (vocab stride1 : Z)
  : option (list A) :=
  match n with
  | O => Some dst
  | S n' =>
      match memcpy dst (to_size (t * vocab)) src (to_size (t * stride1))
                   (to_size (vocab * sizeof_float)) with
      | None => None
      | Some dst1 => copy_rows n' (t + 1) src dst1 vocab stride1
      end
  end.

(** The [then] branch: [memcpy(dst, src, time * vocab * sizeof(float));] *)
Definition copy_bulk (src dst : list A) (time vocab : Z) : option (list A) :=
  memcpy dst 0 src 0 (to_size (to_size (time * vocab) * sizeof_float)).

(** [size_t copy_2d_output(const void* src, float* dst, size_t time,
                           size_t vocab, size_t stride1)]
    The result is the destination after the call and the returned count. *)
Definition copy_2d_output (src dst : list A) (time vocab stride1 : Z)
  : option (list A * Z) :=
  match (if stride1 =? vocab
         then copy_bulk src dst time vocab
         else copy_rows (Z.to_nat time) 0 src dst vocab stride1) with
  | None => None
  | Some dst' => Some (dst', to_size (time * vocab))
  end.

End Copy.
End CopyHelper.

(** ** onnx_wrapper.c *)

Module OnnxWrapper.
Import MachInt Buffer.

(** *** The runtime seen from the wrapper *)

(** A [float] is represented by its 32-bit pattern: the wrapper moves floats
    and never computes with them. *)
Definition float : Type := Z.

(** Every object the wrapper receives a pointer to carries a handle. *)
Definition handle : Type := nat.

(** What a handle points to, which also fixes how it is given back:
    [ReleaseStatus], [ReleaseEnv], [ReleaseSessionOptions], [ReleaseSession],
    [allocator->Free], [ReleaseMemoryInfo], [ReleaseValue],
    [ReleaseTensorTypeAndShapeInfo], [free]. *)
Inductive kind : Type :=
| KStatus | KEnv | KSessionOptions | KSession | KName
| KMemoryInfo | KValue | KTypeInfo | KHeap.

Inductive event : Type :=
| Acquire (k : kind) (h : handle)
| Release (k : kind) (h : handle)
| Printf (msg : option string).

(** An [OrtStatus*] as the runtime returns it: [NULL] on success, otherwise an
    object whose [GetErrorMessage] is [msg] (which may itself be [NULL]). *)
Inductive ort_status : Type :=
| Ok
| Failed (msg : option string).

Inductive elem_type : Type := ELEMENT_FLOAT | ELEMENT_INT64.

Inductive tensor_data : Type :=
| FloatData (p : option (list float))
| Int64Data (v : Z).

(** The arguments of [CreateTensorWithDataAsOrtValue]: data pointer, length in
    bytes, shape and element type. *)
Record tensor : Type := mkTensor {
  t_data : tensor_data;
  t_bytes : Z;
  t_shape : list Z;
  t_type : elem_type
}.

(** What [GetTensorMutableData] answers: the data pointer, which may be
    [NULL], or the [OrtStatus] of a failure. *)
Inductive data_answer : Type :=
| DataOk (p : option (list float))
| DataFailed (msg : option string).

(** A value the runtime returns from [Run], given by what the runtime
    answers when the wrapper queries it: the dimensions it reports, the
    answer of [GetTensorMutableData], and the [OrtStatus] of each of
    [GetTensorTypeAndShape], [GetDimensionsCount] and [GetDimensions].  The
    wrapper checks none of these statuses. *)
Record out_tensor : Type := mkValue {
  o_dims : list Z;
  o_answer : data_answer;
  o_shape_status : ort_status;
  o_count_status : ort_status;
  o_dims_status : ort_status
}.

(** The data pointer the wrapper holds after the query: a failing query
    leaves it as the wrapper set it, [NULL]. *)
Definition o_data (o : out_tensor) : option (list float) :=
  match o_answer o with
  | DataOk p => p
  | DataFailed _ => None
  end.

(** A tensor for which every query succeeds. *)
Definition mkOut (dims : list Z) (data : option (list float)) : out_tensor :=
  mkValue dims (DataOk data) Ok Ok Ok.

Inductive run_result : Type :=
| RunFailed (msg : option string)
| RunOk (outputs : list (option out_tensor)).

(** The API table behind [g_ort].  Each field is what the runtime answers to
    the call of that name; the runtime is not part of the wrapper, so the
    answers are left open and every property below is proved for all of them.
    Every call returns an [OrtStatus].  For the name and count queries
    [None] is a call that fails: it leaves its output argument as it was and
    returns a status.  The three option setters have no output: their answer
    is their status. *)
Record OrtApi : Type := mkOrtApi {
  CreateEnv : ort_status;
  CreateSessionOptions : ort_status;
  SetSessionGraphOptimizationLevel : ort_status;
  SetIntraOpNumThreads : ort_status;
  SetInterOpNumThreads : ort_status;
  CreateSession : option string -> ort_status;
  GetAllocatorWithDefaultOptions : ort_status;
  SessionGetInputCount : handle -> option Z;
  SessionGetOutputCount : handle -> option Z;
  SessionGetInputName : handle -> Z -> option string;
  SessionGetOutputName : handle -> Z -> option string;
  CreateCpuMemoryInfo : ort_status;
  CreateTensorWithDataAsOrtValue : tensor -> ort_status;
  Run : option handle -> list (option string * tensor) -> list (option string)
        -> run_result
}.

(** A runtime that accepts the three session options. *)
Definition mkApi (create_env create_options : ort_status)
    (create_session : option string -> ort_status)
    (get_allocator : ort_status)
    (input_count output_count : handle -> option Z)
    (input_name output_name : handle -> Z -> option string)
    (memory_info : ort_status) (create_tensor : tensor -> ort_status)
    (run : option handle -> list (option string * tensor)
           -> list (option string) -> run_result) : OrtApi :=
  mkOrtApi create_env create_options Ok Ok Ok create_session get_allocator
           input_count output_count input_name output_name
           memory_info create_tensor run.

(** What the process is linked against and runs on. *)
Record platform : Type := mkPlatform {
  OrtGetApi : option OrtApi;
  AppendExecutionProvider_CoreML : ort_status;
  heap_ok : handle -> bool;
  heap_junk : float
}.

(** The default allocator is borrowed from the runtime, never released. *)
Definition default_allocator : handle := 0%nat.

(** *** Global state *)

(** [g_ort], [g_env] and [g_error_msg], the next unused handle and the history
    of acquisitions and releases, newest first. *)
Record world : Type := mkWorld {
  host : platform;
  g_ort : option OrtApi;
  g_env : option handle;
  g_error_msg : string;
  fresh : handle;
  log : list event
}.

(** The events of a world, oldest first. *)
Definition trace (w : world) : list event := rev (log w).

Definition initial_world (p : platform) : world :=
  mkWorld p None None EmptyString 1%nat [].

(** *** The wrapper's computations: state, and a fault for undefined
    behaviour *)

Inductive outcome (R : Type) : Type :=
| Fault
| Done (r : R) (w : world).
Arguments Fault {R}.
Arguments Done {R} r w.

Definition M (R : Type) : Type := world -> outcome R.

Definition ret {R} (r : R) : M R := fun w => Done r w.

Definition bind {R S} (m : M R) (k : R -> M S) : M S :=
  fun w => match m w with
           | Fault => Fault
           | Done r w' => k r w'
           end.

Declare Scope wrapper_scope.
Delimit Scope wrapper_scope with wrapper.
Notation "x <- m ;; k" := (bind m (fun x => k))
  (at level 61, m at next level, right associativity) : wrapper_scope.
Notation "m ;; k" := (bind m (fun _ => k))
  (at level 61, right associativity) : wrapper_scope.
Open Scope wrapper_scope.

Definition fault {R} : M R := fun _ => Fault.

Definition lift {R} (o : option R) : M R :=
  match o with
  | Some r => ret r
  | None => fault
  end.

Definition get_world : M world := fun w => Done w w.

Definition emit (e : event) : M unit :=
  fun w => Done tt (mkWorld (host w) (g_ort w) (g_env w) (g_error_msg w)
                            (fresh w) (e :: log w)).

Definition new_handle (k : kind) : M handle :=
  fun w => Done (fresh w)
                (mkWorld (host w) (g_ort w) (g_env w) (g_error_msg w)
                         (S (fresh w)) (Acquire k (fresh w) :: log w)).

Definition release (k : kind) (h : handle) : M unit := emit (Release k h).

Definition set_g_ort (v : option OrtApi) : M unit :=
  fun w => Done tt (mkWorld (host w) v (g_env w) (g_error_msg w)
                            (fresh w) (log w)).

Definition set_g_env (v : option handle) : M unit :=
  fun w => Done tt (mkWorld (host w) (g_ort w) v (g_error_msg w)
                            (fresh w) (log w)).

(** A runtime call that creates an object of kind [k]: the new object, or
    the status object that reports the failure. *)
Definition status_obj : Type := (handle * option string)%type.

Definition ort_create (k : kind) (s : ort_status) : M (status_obj + handle) :=
  match s with
  | Ok => h <- new_handle k ;; ret (inr h)
  | Failed msg => h <- new_handle KStatus ;; ret (inl (h, msg))
  end.

(** A runtime call whose [OrtStatus] the wrapper does not look at: when the
    call fails, the status object that comes back is never released. *)
Definition discard (s : ort_status) : M unit :=
  match s with
  | Ok => ret tt
  | Failed _ => new_handle KStatus ;; ret tt
  end.

(** [malloc]/[calloc]: [NULL] when the heap refuses, otherwise a fresh block
    holding [content]. *)
Definition malloc {X} (content : X) : M (option (handle * X)) :=
  w <- get_world ;;
  if heap_ok (host w) (fresh w)
  then h <- new_handle KHeap ;; ret (Some (h, content))
  else ret None.

(** [free(p)]; nothing happens for [NULL]. *)
Definition free (p : option handle) : M unit :=
  match p with
  | Some h => release KHeap h
  | None => ret tt
  end.

(** [for (...) if (p[i]) ReleaseValue(p[i]);] *)
Fixpoint release_each (k : kind) (ps : list (option handle)) : M unit :=
  match ps with
  | [] => ret tt
  | Some h :: r => release k h ;; release_each k r
  | None :: r => release_each k r
  end.

(** *** Error reporting *)

(** [strncpy(g_error_msg, msg, sizeof(g_error_msg) - 1);] with the final
    terminator: the first 255 characters of [msg]. *)
Definition set_error (msg : string) : M unit :=
  fun w => Done tt (mkWorld (host w) (g_ort w) (g_env w)
                            (substring 0 255 msg) (fresh w) (log w)).

(** [static void set_ort_error(OrtStatus* status)] *)
Definition set_ort_error (status : option status_obj) : M unit :=
  w <- get_world ;;
  match status, g_ort w with
  | Some (h, msg), Some _ =>
      set_error (match msg with
                 | Some m => m
                 | None => "Unknown ONNX error"
                 end) ;;
      release KStatus h
  | _, _ => ret tt
  end.

(** [const char* onnx_get_error(void)] *)
Definition onnx_get_error : M string :=
  w <- get_world ;; ret (g_error_msg w).

(** *** Runtime environment *)

(** [int onnx_init(void)] *)
Definition onnx_init : M Z :=
  w <- get_world ;;
  match g_ort w with
  | Some _ => ret 0
  | None =>
      set_g_ort (OrtGetApi (host w)) ;;
      match OrtGetApi (host w) with
      | None => set_error "Failed to get ONNX Runtime API" ;; ret (-1)
      | Some ort =>
          r <- ort_create KEnv (CreateEnv ort) ;;
          match r with
          | inl status =>
              set_ort_error (Some status) ;;
              set_g_ort None ;;
              ret (-1)
          | inr env => set_g_env (Some env) ;; ret 0
          end
      end
  end.

(** [void onnx_cleanup(void)] *)
Definition onnx_cleanup : M unit :=
  w <- get_world ;;
  match g_env w, g_ort w with
  | Some env, Some _ => release KEnv env
  | _, _ => ret tt
  end ;;
  set_g_env None ;;
  set_g_ort None.

(** *** Sessions *)

(** A name string handed out by the runtime's allocator. *)
Definition cstring : Type := (handle * string)%type.

(** A [char**]: [NULL], or a heap block with one slot per name. *)
Definition name_array : Type := option (handle * list (option cstring)).

(** [struct OnnxSession] *)
Record OnnxSession : Type := mkSession {
  session : option handle;
  options : option handle;
  allocator : option handle;
  input_names : name_array;
  output_names : name_array;
  num_inputs : Z;
  num_outputs : Z
}.

(** An [OnnxSession*]: [NULL], or the heap block and the struct in it. *)
Definition session_ptr : Type := option (handle * OnnxSession).

(** [calloc(n, sizeof names[0])]: a block of [n] empty name slots. *)
Definition calloc_names (n : Z) : M name_array :=
  if n * 8 <? size_modulus
  then malloc (repeat None (Z.to_nat n))
  else ret None.

(** [for (size_t i = 0; i < n; i++)
       g_ort->SessionGet*Name(sess->session, i, sess->allocator, &names[i]);]
    with [k] iterations left.  A call that fails leaves its slot as it is and
    its status is dropped; a name stored through a [NULL] array is a
    fault. *)
Fixpoint fetch_names (get_name : Z -> option string) (k : nat) (i : Z)
                     (names : name_array) : M name_array :=
  match k with
  | O => ret names
  | S k' =>
      match get_name i with
      | None =>
          discard (Failed None) ;;
          fetch_names get_name k' (i + 1) names
      | Some text =>
          match names with
          | None => fault
          | Some (block, slots) =>
              h <- new_handle KName ;;
              slots' <- lift (store slots i (Some (h, text))) ;;
              fetch_names get_name k' (i + 1) (Some (block, slots'))
          end
      end
  end.

(** [g_ort->SessionGetInputCount(sess->session, &sess->num_inputs);] and
    its output twin, on a zeroed field: the count, or 0 and a dropped status
    when the call fails. *)
Definition fetch_count (answer : option Z) : M Z :=
  match answer with
  | Some n => ret n
  | None => discard (Failed None) ;; ret 0
  end.

(** [OnnxSession* onnx_create_session(const char* model_path)] *)
Definition onnx_create_session (model_path : option string) : M session_ptr :=
  w <- get_world ;;
  match g_ort w, g_env w with
  | Some ort, Some _ =>
      sess <- malloc tt ;;
      match sess with
      | None => set_error "Memory allocation failed" ;; ret None
      | Some (block, _) =>
          r <- ort_create KSessionOptions (CreateSessionOptions ort) ;;
          match r with
          | inl status =>
              set_ort_error (Some status) ;; free (Some block) ;; ret None
          | inr opts =>
              discard (SetSessionGraphOptimizationLevel ort) ;;
              discard (SetIntraOpNumThreads ort) ;;
              discard (SetInterOpNumThreads ort) ;;
              match AppendExecutionProvider_CoreML (host w) with
              | Ok => ret tt
              | Failed msg =>
                  st <- new_handle KStatus ;;
                  emit (Printf msg) ;;
                  release KStatus st
              end ;;
              r <- ort_create KSession (CreateSession ort model_path) ;;
              match r with
              | inl status =>
                  set_ort_error (Some status) ;;
                  release KSessionOptions opts ;;
                  free (Some block) ;;
                  ret None
              | inr s =>
                  match GetAllocatorWithDefaultOptions ort with
                  | Failed msg =>
                      st <- new_handle KStatus ;;
                      set_ort_error (Some (st, msg)) ;;
                      release KSession s ;;
                      release KSessionOptions opts ;;
                      free (Some block) ;;
                      ret None
                  | Ok =>
                      n_in <- fetch_count (SessionGetInputCount ort s) ;;
                      n_out <- fetch_count (SessionGetOutputCount ort s) ;;
                      ins <- calloc_names n_in ;;
                      outs <- calloc_names n_out ;;
                      ins' <- fetch_names (SessionGetInputName ort s)
                                          (Z.to_nat n_in) 0 ins ;;
                      outs' <- fetch_names (SessionGetOutputName ort s)
                                           (Z.to_nat n_out) 0 outs ;;
                      ret (Some (block,
                                 mkSession (Some s) (Some opts)
                                           (Some default_allocator)
                                           ins' outs' n_in n_out))
                  end
              end
          end
      end
  | _, _ => set_error "ONNX Runtime not initialized" ;; ret None
  end.

(** [for (size_t i = 0; i < n; i++)
       if (names[i] && session->allocator)
         session->allocator->Free(session->allocator, names[i]);]
    with [k] iterations left.  Reading past the array is a fault. *)
Fixpoint free_names (k : nat) (i : Z) (slots : list (option cstring))
                    (alloc : option handle) : M unit :=
  match k with
  | O => ret tt
  | S k' =>
      slot <- lift (get slots i) ;;
      match slot, alloc with
      | Some (h, _), Some _ => release KName h
      | _, _ => ret tt
      end ;;
      free_names k' (i + 1) slots alloc
  end.

(** [if (names) { for ...; free(names); }] *)
Definition destroy_names (names : name_array) (n : Z) (alloc : option handle)
  : M unit :=
  match names with
  | Some (block, slots) =>
      free_names (Z.to_nat n) 0 slots alloc ;;
      free (Some block)
  | None => ret tt
  end.

(** [void onnx_destroy_session(OnnxSession* session)] *)
Definition onnx_destroy_session (sp : session_ptr) : M unit :=
  match sp with
  | None => ret tt
  | Some (block, sess) =>
      destroy_names (input_names sess) (num_inputs sess) (allocator sess) ;;
      destroy_names (output_names sess) (num_outputs sess) (allocator sess) ;;
      w <- get_world ;;
      match session sess, g_ort w with
      | Some s, Some _ => release KSession s
      | _, _ => ret tt
      end ;;
      match options sess, g_ort w with
      | Some o, Some _ => release KSessionOptions o
      | _, _ => ret tt
      end ;;
      free (Some block)
  end.

(** *** Calls into a loaded graph *)

(** [g_ort->Run(...)] asking for [n] outputs: the status object of a failure,
    or the [n] entries of the output array, each [NULL] or a value the
    wrapper now has to release. *)
Fixpoint adopt_outputs (n : nat) (outs : list (option out_tensor))
  : M (list (option (handle * out_tensor))) :=
  match n with
  | O => ret []
  | S n' =>
      first <- match hd None outs with
               | Some o => h <- new_handle KValue ;; ret (Some (h, o))
               | None => ret None
               end ;;
      rest <- adopt_outputs n' (tl outs) ;;
      ret (first :: rest)
  end.

Definition ort_run (ort : OrtApi) (s : option handle)
                   (inputs : list (option string * tensor))
                   (output_names : list (option string))
  : M (status_obj + list (option (handle * out_tensor))) :=
  match Run ort s inputs output_names with
  | RunFailed msg => h <- new_handle KStatus ;; ret (inl (h, msg))
  | RunOk outs =>
      vals <- adopt_outputs (length output_names) outs ;;
      ret (inr vals)
  end.

(** [float* data = NULL; g_ort->GetTensorMutableData(value, &data);] on a
    value the runtime returned.  A call that fails leaves [data] as the
    wrapper set it, [NULL], and its status is dropped. *)
Definition mutable_data (o : out_tensor) : M (option (list float)) :=
  match o_answer o with
  | DataOk p => ret p
  | DataFailed msg => discard (Failed msg) ;; ret None
  end.

(** The same on an entry of the output array, which the runtime
    dereferences. *)
Definition GetTensorMutableData (v : option (handle * out_tensor))
  : M (option (list float)) :=
  match v with
  | Some (_, o) => mutable_data o
  | None => fault
  end.

Definition value_handle (v : option (handle * out_tensor)) : option handle :=
  option_map fst v.

(** *** Voice activity detection *)

Record vad_result : Type := mkVad {
  vad_rc : Z;
  vad_prob : option float;
  vad_h : option (list float);
  vad_c : option (list float)
}.

(** Audio input of shape [(1, audio_len)] over the caller's samples. *)
Definition vad_audio_tensor (audio : option (list float)) (audio_len : Z)
  : tensor :=
  mkTensor (FloatData audio) (to_size (to_size audio_len * sizeof_float))
           [1; audio_len] ELEMENT_FLOAT.

(** Combined state of shape [(2, 1, 128)]. *)
Definition vad_state_tensor (combined_state : list float) : tensor :=
  mkTensor (FloatData (Some combined_state)) (256 * sizeof_float)
           [2; 1; 128] ELEMENT_FLOAT.

(** Sample rate, a scalar [int64]. *)
Definition vad_sr_tensor : tensor :=
  mkTensor (Int64Data 16000) sizeof_int64 [] ELEMENT_INT64.

Definition vad_inputs (audio : option (list float)) (audio_len : Z)
                      (combined_state : list float)
  : list (option string * tensor) :=
  [ (Some "input"%string, vad_audio_tensor audio audio_len);
    (Some "state"%string, vad_state_tensor combined_state);
    (Some "sr"%string, vad_sr_tensor) ].

Definition vad_output_names : list (option string) :=
  [ Some "output"%string; Some "stateN"%string ].

(** [float* combined_state = malloc(256 * sizeof(float));
     memcpy(combined_state, h_in, 128 * sizeof(float));
     memcpy(combined_state + 128, c_in, 128 * sizeof(float));]
    The result of [malloc] is not checked. *)
Definition pack_state (h_in c_in : option (list float))
  : M (handle * list float) :=
  w <- get_world ;;
  blk <- malloc (repeat (heap_junk (host w)) 256) ;;
  match blk with
  | None => fault
  | Some (block, fresh_state) =>
      h <- lift h_in ;;
      s1 <- lift (memcpy fresh_state 0 h 0 (128 * sizeof_float)) ;;
      c <- lift c_in ;;
      s2 <- lift (memcpy s1 128 c 0 (128 * sizeof_float)) ;;
      ret (block, s2)
  end.

(** [if (state_data) {
       if (h_out) memcpy(h_out, state_data, 128 * sizeof(float));
       if (c_out) memcpy(c_out, state_data + 128, 128 * sizeof(float));
     }] *)
Definition unpack_state (state_data h_out c_out : option (list float))
  : M (option (list float) * option (list float)) :=
  match state_data with
  | Some sd =>
      h' <- match h_out with
            | Some hb =>
                b <- lift (memcpy hb 0 sd 0 (128 * sizeof_float)) ;;
                ret (Some b)
            | None => ret None
            end ;;
      c' <- match c_out with
            | Some cb =>
                b <- lift (memcpy cb 0 sd 128 (128 * sizeof_float)) ;;
                ret (Some b)
            | None => ret None
            end ;;
      ret (h', c')
  | None => ret (h_out, c_out)
  end.

(** The [cleanup:] label of [onnx_run_vad]. *)
Definition vad_cleanup (input_tensors : list (option handle))
                       (memory_info : option handle) : M unit :=
  release_each KValue input_tensors ;;
  match memory_info with
  | Some m => release KMemoryInfo m
  | None => ret tt
  end.

(** [int onnx_run_vad(OnnxSession* session, const float* audio, int audio_len,
                      const float* h_in, const float* c_in, float* prob_out,
                      float* h_out, float* c_out)]
    The result holds the return code and what the three output pointers
    point to after the call. *)
Definition onnx_run_vad (sp : session_ptr)
    (audio : option (list float)) (audio_len : Z)
    (h_in c_in : option (list float))
    (prob_out : option float) (h_out c_out : option (list float))
  : M vad_result :=
  let failed := mkVad (-1) prob_out h_out c_out in
  w <- get_world ;;
  match sp, g_ort w with
  | Some (_, sess), Some ort =>
      r <- ort_create KMemoryInfo (CreateCpuMemoryInfo ort) ;;
      match r with
      | inl status => set_ort_error (Some status) ;; ret failed
      | inr memory_info =>
          r0 <- ort_create KValue
                  (CreateTensorWithDataAsOrtValue ort
                     (vad_audio_tensor audio audio_len)) ;;
          match r0 with
          | inl status =>
              set_ort_error (Some status) ;;
              vad_cleanup [None; None; None] (Some memory_info) ;;
              ret failed
          | inr t0 =>
              st <- pack_state h_in c_in ;;
              let '(block, combined_state) := st in
              r1 <- ort_create KValue
                      (CreateTensorWithDataAsOrtValue ort
                         (vad_state_tensor combined_state)) ;;
              match r1 with
              | inl status =>
                  free (Some block) ;;
                  set_ort_error (Some status) ;;
                  vad_cleanup [Some t0; None; None] (Some memory_info) ;;
                  ret failed
              | inr t1 =>
                  r2 <- ort_create KValue
                          (CreateTensorWithDataAsOrtValue ort vad_sr_tensor) ;;
                  match r2 with
                  | inl status =>
                      free (Some block) ;;
                      set_ort_error (Some status) ;;
                      vad_cleanup [Some t0; Some t1; None]
                                  (Some memory_info) ;;
                      ret failed
                  | inr t2 =>
                      rr <- ort_run ort (session sess)
                              (vad_inputs audio audio_len combined_state)
                              vad_output_names ;;
                      match rr with
                      | inl status =>
                          free (Some block) ;;
                          set_ort_error (Some status) ;;
                          vad_cleanup [Some t0; Some t1; Some t2]
                                      (Some memory_info) ;;
                          ret failed
                      | inr output_tensors =>
                          prob_data <- GetTensorMutableData
                                         (nth 0 output_tensors None) ;;
                          prob' <- match prob_data, prob_out with
                                   | Some pd, Some _ =>
                                       p <- lift (get pd 0) ;; ret (Some p)
                                   | _, _ => ret prob_out
                                   end ;;
                          state_data <- GetTensorMutableData
                                          (nth 1 output_tensors None) ;;
                          hc <- unpack_state state_data h_out c_out ;;
                          release_each KValue
                            (map value_handle output_tensors) ;;
                          free (Some block) ;;
                          vad_cleanup [Some t0; Some t1; Some t2]
                                      (Some memory_info) ;;
                          ret (mkVad 0 prob' (fst hc) (snd hc))
                      end
                  end
              end
          end
      end
  | _, _ => set_error "Invalid session" ;; ret failed
  end.

(** *** Speech recognition *)

(** [session->input_names[0]], [session->output_names[0]]: the first slot of
    a name array; a fault when the array is [NULL] or has no slot. *)
Definition first_name (names : name_array) : M (option string) :=
  match names with
  | Some (_, slot :: _) => ret (option_map snd slot)
  | _ => fault
  end.

(** Input of shape [(1, frames, features)]; the byte length is the [int]
    product [frames * features] converted to [size_t] and scaled.  The
    product is taken with two's complement wrap-around; it only travels to
    the runtime, whose answer is left open. *)
Definition asr_input_tensor (mel_lfr : option (list float))
                            (frames features : Z) : tensor :=
  mkTensor (FloatData mel_lfr)
           (to_size (to_size (to_int (frames * features)) * sizeof_float))
           [1; frames; features] ELEMENT_FLOAT.

(** [size_t output_size = 1;
     for (size_t i = 0; i < dim_count; i++) output_size *= dims[i];] *)
Definition output_size_of (dims : list Z) : Z :=
  fold_left (fun acc d => to_size (acc * to_size d)) dims 1.

(** [OrtTensorTypeAndShapeInfo* type_info = NULL;
     g_ort->GetTensorTypeAndShape(output_tensor, &type_info);]
    A call that fails leaves [type_info] [NULL] and its status is dropped. *)
Definition type_and_shape (o : out_tensor) : M (option handle) :=
  match o_shape_status o with
  | Ok => h <- new_handle KTypeInfo ;; ret (Some h)
  | Failed msg => discard (Failed msg) ;; ret None
  end.

(** [size_t dim_count = 0; g_ort->GetDimensionsCount(type_info, &dim_count);]
    The runtime reads [type_info].  A call that fails leaves [dim_count] 0
    and its status is dropped. *)
Definition dimensions_count (type_info : option handle) (o : out_tensor)
  : M nat :=
  match type_info with
  | None => fault
  | Some _ =>
      match o_count_status o with
      | Ok => ret (length (o_dims o))
      | Failed msg => discard (Failed msg) ;; ret O
      end
  end.

(** [g_ort->GetDimensions(type_info, dims, dim_count);] and what the loop
    over [dims] then reads.  The runtime writes [dim_count] dimensions
    through [dims], which is [NULL] when [malloc] refused; a call that fails
    writes nothing, its status is dropped and the loop reads what [malloc]
    left in the array. *)
Definition dimensions (o : out_tensor) (dim_count : nat)
                      (dims : option (handle * list Z)) : M (list Z) :=
  match o_dims_status o with
  | Ok => ret tt
  | Failed msg => discard (Failed msg)
  end ;;
  match dims, dim_count with
  | Some (_, junk), _ =>
      ret (match o_dims_status o with
           | Ok => firstn dim_count (o_dims o)
           | Failed _ => junk
           end)
  | None, O => ret []
  | None, S _ => fault
  end.

(** The body of [if (!status && output_tensor) { ... }] in [onnx_run_asr],
    up to the release of the output tensor. *)
Definition asr_extract (o : out_tensor) (logits_out : option (list float))
                       (max_output_size : Z) : M (Z * option (list float)) :=
  w <- get_world ;;
  type_info <- type_and_shape o ;;
  dim_count <- dimensions_count type_info o ;;
  blk <- malloc (repeat (heap_junk (host w)) dim_count) ;;
  dims <- dimensions o dim_count blk ;;
  let output_size := output_size_of dims in
  free (option_map fst blk) ;;
  match type_info with
  | Some t => release KTypeInfo t
  | None => ret tt
  end ;;
  if to_int output_size <=? max_output_size
  then
    output_data <- mutable_data o ;;
    logits' <- match output_data, logits_out with
               | Some data, Some lb =>
                   b <- lift (memcpy lb 0 data 0
                                (to_size (output_size * sizeof_float))) ;;
                   ret (Some b)
               | _, _ => ret logits_out
               end ;;
    ret (to_int output_size, logits')
  else
    set_error "Output buffer too small" ;;
    ret (-1, logits_out).

(** [int onnx_run_asr(OnnxSession* session, const float* mel_lfr, int frames,
                      int features, float* logits_out, int max_output_size)]
    The result holds the return code and what [logits_out] points to after
    the call. *)
Definition onnx_run_asr (sp : session_ptr)
    (mel_lfr : option (list float)) (frames features : Z)
    (logits_out : option (list float)) (max_output_size : Z)
  : M (Z * option (list float)) :=
  w <- get_world ;;
  match sp, g_ort w with
  | Some (_, sess), Some ort =>
      r <- ort_create KMemoryInfo (CreateCpuMemoryInfo ort) ;;
      match r with
      | inl status => set_ort_error (Some status) ;; ret (-1, logits_out)
      | inr memory_info =>
          r0 <- ort_create KValue
                  (CreateTensorWithDataAsOrtValue ort
                     (asr_input_tensor mel_lfr frames features)) ;;
          match r0 with
          | inl status =>
              set_ort_error (Some status) ;;
              release KMemoryInfo memory_info ;;
              ret (-1, logits_out)
          | inr input_tensor =>
              in_name <- first_name (input_names sess) ;;
              out_name <- first_name (output_names sess) ;;
              rr <- ort_run ort (session sess)
                      [(in_name, asr_input_tensor mel_lfr frames features)]
                      [out_name] ;;
              result <- match rr with
                        | inr vals =>
                            match nth 0 vals None with
                            | Some (output_tensor, o) =>
                                res <- asr_extract o logits_out
                                                   max_output_size ;;
                                release KValue output_tensor ;;
                                ret res
                            | None => ret (-1, logits_out)
                            end
                        | inl status =>
                            set_ort_error (Some status) ;;
                            ret (-1, logits_out)
                        end ;;
              release KValue input_tensor ;;
              release KMemoryInfo memory_info ;;
              ret result
          end
      end
  | _, _ => set_error "Invalid session" ;; ret (-1, logits_out)
  end.

(** *** Speaker embedding *)

(** Input of shape [(1, frames, 24)]. *)
Definition speaker_input_tensor (fbank : option (list float)) (frames : Z)
  : tensor :=
  mkTensor (FloatData fbank)
           (to_size (to_size (to_int (frames * 24)) * sizeof_float))
           [1; frames; 24] ELEMENT_FLOAT.

(** The body of [if (!status && output_tensor) { ... }] in
    [onnx_run_speaker], up to the release of the output tensor. *)
Definition speaker_extract (o : out_tensor)
                           (embedding_out : option (list float))
  : M (Z * option (list float)) :=
  output_data <- mutable_data o ;;
  match output_data, embedding_out with
  | Some data, Some eb =>
      b <- lift (memcpy eb 0 data 0 (512 * sizeof_float)) ;;
      ret (0, Some b)
  | _, _ => ret (-1, embedding_out)
  end.

(** [int onnx_run_speaker(OnnxSession* session, const float* fbank,
                          int frames, float* embedding_out)]
    The result holds the return code and what [embedding_out] points to
    after the call. *)
Definition onnx_run_speaker (sp : session_ptr)
    (fbank : option (list float)) (frames : Z)
    (embedding_out : option (list float))
  : M (Z * option (list float)) :=
  w <- get_world ;;
  match sp, g_ort w with
  | Some (_, sess), Some ort =>
      r <- ort_create KMemoryInfo (CreateCpuMemoryInfo ort) ;;
      match r with
      | inl status => set_ort_error (Some status) ;; ret (-1, embedding_out)
      | inr memory_info =>
          r0 <- ort_create KValue
                  (CreateTensorWithDataAsOrtValue ort
                     (speaker_input_tensor fbank frames)) ;;
          match r0 with
          | inl status =>
              set_ort_error (Some status) ;;
              release KMemoryInfo memory_info ;;
              ret (-1, embedding_out)
          | inr input_tensor =>
              in_name <- first_name (input_names sess) ;;
              out_name <- first_name (output_names sess) ;;
              rr <- ort_run ort (session sess)
                      [(in_name, speaker_input_tensor fbank frames)]
                      [out_name] ;;
              result <- match rr with
                        | inr vals =>
                            match nth 0 vals None with
                            | Some (output_tensor, o) =>
                                res <- speaker_extract o embedding_out ;;
                                release KValue output_tensor ;;
                                ret res
                            | None => ret (-1, embedding_out)
                            end
                        | inl status =>
                            set_ort_error (Some status) ;;
                            ret (-1, embedding_out)
                        end ;;
              release KValue input_tensor ;;
              release KMemoryInfo memory_info ;;
              ret result
          end
      end
  | _, _ => set_error "Invalid session" ;; ret (-1, embedding_out)
  end.

(** *** Accounting of acquisitions and releases *)

Definition kind_eqb (a b : kind) : bool :=
  match a, b with
  | KStatus, KStatus | KEnv, KEnv | KSessionOptions, KSessionOptions
  | KSession, KSession | KName, KName | KMemoryInfo, KMemoryInfo
  | KValue, KValue | KTypeInfo, KTypeInfo | KHeap, KHeap => true
  | _, _ => false
  end.

Definition obj : Type := (kind * handle)%type.

Definition obj_eqb (a b : obj) : bool :=
  kind_eqb (fst a) (fst b) && Nat.eqb (snd a) (snd b).

Definition is_live (o : obj) (live : list obj) : bool :=
  existsb (obj_eqb o) live.

Definition drop (o : obj) (live : list obj) : list obj :=
  filter (fun x => negb (obj_eqb o x)) live.

(** Replays a history against the set of live objects.  Acquiring a live
    object or releasing one that is not live stops the replay. *)
Fixpoint settle (live : list obj) (evs : list event) : option (list obj) :=
  match evs with
  | [] => Some live
  | Acquire k h :: r =>
      if is_live (k, h) live then None else settle ((k, h) :: live) r
  | Release k h :: r =>
      if is_live (k, h) live then settle (drop (k, h) live) r else None
  | Printf _ :: r => settle live r
  end.

(** Every object acquired in [evs] is released in [evs], once, after its
    acquisition, and nothing else is released. *)
Definition released_exactly_once (evs : list event) : Prop :=
  settle [] evs = Some [].

(** [a] occurs in [evs] and [b] occurs later. *)
Fixpoint occurs_before (eqb : event -> event -> bool) (a b : event)
                       (evs : list event) : bool :=
  match evs with
  | [] => false
  | e :: r => if eqb e a then existsb (fun x => eqb x b) r
              else occurs_before eqb a b r
  end.

Definition event_eqb (a b : event) : bool :=
  match a, b with
  | Acquire k h, Acquire k' h' => obj_eqb (k, h) (k', h')
  | Release k h, Release k' h' => obj_eqb (k, h) (k', h')
  | Printf None, Printf None => true
  | Printf (Some s), Printf (Some s') => String.eqb s s'
  | _, _ => false
  end.

(** *** What the calls expect from their caller and from the runtime *)

(** [malloc] and [calloc] never return [NULL]. *)
Definition heap_never_full (w : world) : Prop :=
  forall h, heap_ok (host w) h = true.

(** The runtime is initialised and its API table is [ort]. *)
Definition initialized (w : world) (ort : OrtApi) : Prop :=
  g_ort w = Some ort.

(** The runtime is not initialised. *)
Definition uninitialized (w : world) : Prop :=
  g_ort w = None /\ g_env w = None.

(** A pointer, when it is not [NULL], points to at least [n] floats. *)
Definition room (n : Z) (p : option (list float)) : Prop :=
  forall b, p = Some b -> n <= Z.of_nat (length b).

(** The two outputs of a successful VAD run: both values are there; the
    probability has an element and the state has 256, where their data
    pointers are not [NULL]. *)
Definition vad_answer_ok (outs : list (option out_tensor)) : Prop :=
  exists o0 o1 rest,
    outs = Some o0 :: Some o1 :: rest
    /\ room 1 (o_data o0) /\ room 256 (o_data o1).

(** The number of status objects the data query on [o] drops. *)
Definition data_dropped (o : out_tensor) : nat :=
  match o_answer o with
  | DataOk _ => 0
  | DataFailed _ => 1
  end.

(** The events of [n] dropped status objects, the first with handle [h]. *)
Definition dropped_events (n : nat) (h : handle) : list event :=
  map (Acquire KStatus) (seq h n).

(** Every data query on the outputs of a run succeeds. *)
Definition data_queries_ok (outs : list (option out_tensor)) : Prop :=
  forall o, In (Some o) outs -> data_dropped o = 0%nat.

(** Every object of [live] is a status object. *)
Definition only_statuses (live : list obj) : Prop :=
  Forall (fun o => fst o = KStatus) live.

(** The counts of a session agree with its name arrays. *)
Definition counts_match (sess : OnnxSession) : Prop :=
  (forall blk slots, input_names sess = Some (blk, slots) ->
                     num_inputs sess = Z.of_nat (length slots))
  /\ (forall blk slots, output_names sess = Some (blk, slots) ->
                        num_outputs sess = Z.of_nat (length slots)).

(** The world [w] after the further events [evs], newest first. *)
Definition after_events (evs : list event) (w : world) : world :=
  mkWorld (host w) (g_ort w) (g_env w) (g_error_msg w) (fresh w)
          (evs ++ log w).

(** The releases a name array gives rise to, slot by slot: one for each slot
    that holds a name, as long as the session has an allocator. *)
Definition name_releases (slots : list (option cstring))
                         (alloc : option handle) : list event :=
  flat_map (fun slot => match slot, alloc with
                        | Some (h, _), Some _ => [Release KName h]
                        | _, _ => []
                        end) slots.

(** The names of an array through the allocator, then the array itself. *)
Definition names_order (names : name_array) (alloc : option handle)
  : list event :=
  match names with
  | Some (block, slots) => name_releases slots alloc ++ [Release KHeap block]
  | None => []
  end.

(** The releases of a session in this order: input names, output names,
    graph, execution configuration, the session block. *)
Definition destroy_order (ort : option OrtApi) (sp : session_ptr)
  : list event :=
  match sp with
  | None => []
  | Some (block, sess) =>
      names_order (input_names sess) (allocator sess)
      ++ names_order (output_names sess) (allocator sess)
      ++ match session sess, ort with
         | Some s, Some _ => [Release KSession s]
         | _, _ => []
         end
      ++ match options sess, ort with
         | Some o, Some _ => [Release KSessionOptions o]
         | _, _ => []
         end
      ++ [Release KHeap block]
  end.

(** The mathematical product of a list of dimensions. *)
Definition product (dims : list Z) : Z := fold_right Z.mul 1 dims.

(** *** Sample runtimes *)

(** A runtime in which environment, session and memory-info calls succeed
    and every model has one input and one output.  Tensor construction
    answers as [create], [Run] as [run]. *)
Definition sample_api_with
    (create : tensor -> ort_status)
    (run : option handle -> list (option string * tensor)
           -> list (option string) -> run_result) : OrtApi :=
  mkApi Ok Ok (fun _ => Ok) Ok
        (fun _ => Some 1) (fun _ => Some 1)
        (fun _ _ => Some "in"%string) (fun _ _ => Some "out"%string)
        Ok create run.

(** The same with a tensor construction that always succeeds. *)
Definition sample_api
    (run : option handle -> list (option string * tensor)
           -> list (option string) -> run_result) : OrtApi :=
  sample_api_with (fun _ => Ok) run.

(** A tensor construction that refuses tensors of rank 3. *)
Definition reject_rank3 (t : tensor) : ort_status :=
  match t_shape t with
  | [_; _; _] => Failed (Some "invalid tensor"%string)
  | _ => Ok
  end.

(** A platform with that runtime, the CoreML provider and a heap that never
    fills up. *)
Definition sample_platform (api : OrtApi) : platform :=
  mkPlatform (Some api) Ok (fun _ => true) 0.

(** A graph that reports the probability [p] and hands its state input
    through unchanged. *)
Definition echo_state (p : float) (s : option handle)
    (inputs : list (option string * tensor)) (names : list (option string))
  : run_result :=
  match inputs with
  | [_; (_, state); _] =>
      match t_data state with
      | FloatData (Some d) =>
          RunOk [Some (mkOut [] (Some [p])); Some (mkOut [2; 1; 128] (Some d))]
      | _ => RunFailed (Some "state input missing"%string)
      end
  | _ => RunFailed (Some "three inputs expected"%string)
  end.

(** A value that is not a tensor of floats: the data query on it fails. *)
Definition unreadable : out_tensor :=
  mkValue [1] (DataFailed (Some "not a tensor"%string)) Ok Ok Ok.

(** A tensor of shape [(2, 3)] whose dimension query fails. *)
Definition blurred : out_tensor :=
  mkValue [2; 3] (DataOk (Some [1; 2; 3; 4; 5; 6])) Ok Ok
          (Failed (Some "no dimensions"%string)).

(** A value whose shape query fails. *)
Definition shapeless : out_tensor :=
  mkValue [2; 3] (DataOk (Some [1; 2; 3; 4; 5; 6]))
          (Failed (Some "not a tensor"%string)) Ok Ok.

(** A graph like [echo_state] whose probability output is [unreadable]. *)
Definition unreadable_probability (s : option handle)
    (inputs : list (option string * tensor)) (names : list (option string))
  : run_result :=
  match inputs with
  | [_; (_, state); _] =>
      match t_data state with
      | FloatData (Some d) =>
          RunOk [Some unreadable; Some (mkOut [2; 1; 128] (Some d))]
      | _ => RunFailed (Some "state input missing"%string)
      end
  | _ => RunFailed (Some "three inputs expected"%string)
  end.

(** A graph whose single output is always [o]. *)
Definition constant_output (o : option out_tensor) (s : option handle)
    (inputs : list (option string * tensor)) (names : list (option string))
  : run_result :=
  RunOk [o].

(** A runtime that holds two graphs: called with one input it answers like
    [constant_output o], otherwise like [echo_state p]. *)
Definition embed_or_echo (o : option out_tensor) (p : float)
    (s : option handle)
    (inputs : list (option string * tensor)) (names : list (option string))
  : run_result :=
  match inputs with
  | [_] => constant_output o s inputs names
  | _ => echo_state p s inputs names
  end.

(** A graph whose execution always fails. *)
Definition failing_run (s : option handle)
    (inputs : list (option string * tensor)) (names : list (option string))
  : run_result :=
  RunFailed (Some "graph execution failed"%string).

(** The session that [onnx_create_session] builds on a sample platform
    right after [onnx_init], and the world it leaves. *)
Definition sample_session : OnnxSession :=
  mkSession (Some 4%nat) (Some 3%nat) (Some default_allocator)
            (Some (5%nat, [Some (7%nat, "in"%string)]))
            (Some (6%nat, [Some (8%nat, "out"%string)]))
            1 1.

Definition sample_handle : session_ptr := Some (2%nat, sample_session).

Definition sample_world (api : OrtApi) : world :=
  mkWorld (sample_platform api) (Some api) (Some 1%nat) EmptyString 9%nat
          [ Acquire KName 8%nat; Acquire KName 7%nat;
            Acquire KHeap 6%nat; Acquire KHeap 5%nat;
            Acquire KSession 4%nat; Acquire KSessionOptions 3%nat;
            Acquire KHeap 2%nat; Acquire KEnv 1%nat ].

(** A state vector of 128 copies of [x]. *)
Definition constant_state (x : float) : list float := repeat x 128.

End OnnxWrapper.

(** ** onnx_wrapper.c: relations between the worlds of a call *)

Module OnnxWrapperSpec.
Import MachInt Buffer OnnxWrapper.

(** Every world a computation returns in is related by [rel] to the world
    it started in. *)
Definition steady {R} (rel : world -> world -> Prop) (m : M R) : Prop :=
  forall w r w', m w = Done r w' -> rel w w'.

(** The platform, [g_ort] and [g_env] are the same in both worlds. *)
Definition same_runtime (w w' : world) : Prop :=
  host w' = host w /\ g_ort w' = g_ort w /\ g_env w' = g_env w.

(** [g_error_msg] fits its 256 bytes, terminator included, in the second
    world if it does in the first. *)
Definition message_fits (w w' : world) : Prop :=
  (String.length (g_error_msg w) <= 255)%nat ->
  (String.length (g_error_msg w') <= 255)%nat.

(** [g_ort] and [g_env] are both set or both [NULL]. *)
Definition env_consistent (w : world) : Prop :=
  (g_ort w = None /\ g_env w = None)
  \/ (exists ort env, g_ort w = Some ort /\ g_env w = Some env).

(** The text [set_ort_error] takes from a status: its message, or a stock
    text when the runtime has none. *)
Definition error_text (msg : option string) : string :=
  match msg with
  | Some m => m
  | None => "Unknown ONNX error"%string
  end.

(** The status with which [Run] returns. *)
Definition run_status (r : run_result) : ort_status :=
  match r with
  | RunFailed msg => Failed msg
  | RunOk _ => Ok
  end.

(** The message of the first failure among the answers of successive
    runtime calls, if one of them fails. *)
Fixpoint first_failure (answers : list ort_status) : option (option string) :=
  match answers with
  | [] => None
  | Ok :: rest => first_failure rest
  | Failed msg :: _ => Some msg
  end.

(** The answers of the runtime calls that [onnx_run_vad] checks, in the
    order it makes them. *)
Definition vad_answers (ort : OrtApi) (s : option handle)
    (audio : option (list float)) (audio_len : Z) (state : list float)
  : list ort_status :=
  [ CreateCpuMemoryInfo ort;
    CreateTensorWithDataAsOrtValue ort (vad_audio_tensor audio audio_len);
    CreateTensorWithDataAsOrtValue ort (vad_state_tensor state);
    CreateTensorWithDataAsOrtValue ort vad_sr_tensor;
    run_status (Run ort s (vad_inputs audio audio_len state)
                    vad_output_names) ].

(** The answers of the runtime calls that [onnx_run_asr] and
    [onnx_run_speaker] check, for the input tensor [t] and the first names
    [name_in] and [name_out] of the session. *)
Definition single_answers (ort : OrtApi) (s : option handle) (t : tensor)
    (name_in name_out : option string) : list ort_status :=
  [ CreateCpuMemoryInfo ort;
    CreateTensorWithDataAsOrtValue ort t;
    run_status (Run ort s [(name_in, t)] [name_out]) ].

(** The dimensions the loop of [onnx_run_asr] multiplies for the output
    [o], when [malloc] leaves [junk] in a fresh array: none when the count
    query fails (the count stays 0), what [malloc] left when the dimension
    query fails, otherwise the dimensions the runtime reports. *)
Definition dims_read (junk : float) (o : out_tensor) : list Z :=
  match o_count_status o with
  | Failed _ => []
  | Ok =>
      match o_dims_status o with
      | Ok => o_dims o
      | Failed _ => repeat junk (length (o_dims o))
      end
  end.

(** What a successful ASR run has to hand back for the call to be defined:
    shape information (the call reads it unchecked), an element count that
    an [int] holds, and buffers as large as announced. *)
Definition asr_answer_ok (junk : float) (outs : list (option out_tensor))
    (logits_out : option (list float)) (max_output_size : Z) : Prop :=
  forall o, hd None outs = Some o ->
    o_shape_status o = Ok
    /\ 0 <= product (dims_read junk o) < 2 ^ 31
    /\ room max_output_size logits_out
    /\ room (product (dims_read junk o)) (o_data o).

(** What [onnx_run_speaker] needs from a successful run to stay inside its
    buffers: the embedding buffer and the output data hold 512 floats each,
    where they are there. *)
Definition speaker_answer_ok (outs : list (option out_tensor))
                             (embedding_out : option (list float)) : Prop :=
  forall o, hd None outs = Some o ->
    room 512 embedding_out /\ room 512 (o_data o).

(** The answers of the runtime calls that [onnx_create_session] checks, in
    the order it makes them: session options, session, allocator. *)
Definition create_answers (ort : OrtApi) (model_path : option string)
  : list ort_status :=
  [CreateSessionOptions ort; CreateSession ort model_path;
   GetAllocatorWithDefaultOptions ort].

(** The world right after a successful [onnx_init] on platform [p] with
    runtime [api]. *)
Definition ready_world (p : platform) (api : OrtApi) : world :=
  mkWorld p (Some api) (Some 1%nat) EmptyString 2%nat [Acquire KEnv 1%nat].

(** A runtime that finds no model file, and a platform without the CoreML
    provider. *)
Definition no_model_api : OrtApi :=
  mkApi Ok Ok (fun _ => Failed (Some "model not found"%string)) Ok
        (fun _ => Some 1) (fun _ => Some 1)
        (fun _ _ => Some "in"%string) (fun _ _ => Some "out"%string)
        Ok (fun _ => Ok) failing_run.


Definition cpu_only_platform (api : OrtApi) : platform :=
  mkPlatform (Some api) (Failed (Some "CoreML not available"%string))
             (fun _ => true) 0.

(** The slots that the name loop of [onnx_create_session] leaves in a zeroed
    array after [k] iterations from index [i] on, when the next handle is
    [h]: a slot is set where the runtime answers with a name, and stays
    [NULL] where it fails.  Every iteration takes one handle: for the name,
    or for the status it drops. *)
Fixpoint fetched (get_name : Z -> option string) (k : nat) (i : Z)
                 (h : handle) : list (option cstring) :=
  match k with
  | O => []
  | S k' =>
      match get_name i with
      | None => None :: fetched get_name k' (i + 1) (S h)
      | Some text => Some (h, text) :: fetched get_name k' (i + 1) (S h)
      end
  end.

(** The objects that loop acquires, in order: a name, or a status. *)
Fixpoint fetched_objs (get_name : Z -> option string) (k : nat) (i : Z)
                      (h : handle) : list obj :=
  match k with
  | O => []
  | S k' =>
      (match get_name i with
       | None => KStatus
       | Some _ => KName
       end, h) :: fetched_objs get_name k' (i + 1) (S h)
  end.

(** The events that acquire and release an object. *)
Definition acquire_of (o : obj) : event := Acquire (fst o) (snd o).
Definition release_of (o : obj) : event := Release (fst o) (snd o).

(** The object is a status. *)
Definition is_status (o : obj) : bool := kind_eqb (fst o) KStatus.

(** The names held by an array, slot by slot. *)
Definition slot_handles (slots : list (option cstring)) : list handle :=
  flat_map (fun slot => match slot with
                        | Some (h, _) => [h]
                        | None => []
                        end) slots.

(** Two sets of live objects with the same members. *)
Definition same_live (l1 l2 : list obj) : Prop :=
  forall o, is_live o l1 = is_live o l2.

(** Replaying [evs] from [live] goes through and leaves the objects of
    [final] live. *)
Definition ends_in (live : list obj) (evs : list event) (final : list obj)
  : Prop :=
  exists l, settle live evs = Some l /\ same_live l final.

(** The count that [onnx_create_session] finds in a zeroed field after a
    count query: the answer, or 0 when the query failed. *)
Definition count_of (answer : option Z) : Z :=
  match answer with
  | Some n => n
  | None => 0
  end.

(** Every count the runtime reports is one whose name array can be
    allocated: the byte size of the array fits [size_t]. *)
Definition counts_fit (ort : OrtApi) : Prop :=
  forall s,
    0 <= count_of (SessionGetInputCount ort s) < 2 ^ 61
    /\ 0 <= count_of (SessionGetOutputCount ort s) < 2 ^ 61.

(** The history of [w'] extends that of [w], the handle counter has not gone
    back, and what was acquired in between carries handles from the counter
    of [w] up to that of [w']. *)
Definition grows (w w' : world) : Prop :=
  exists evs,
    log w' = evs ++ log w
    /\ (fresh w <= fresh w')%nat
    /\ (forall k h, In (Acquire k h) evs -> (fresh w <= h < fresh w')%nat).

(** An inference call with its arguments, the session aside. *)
Inductive inference : Type :=
| Vad (audio : option (list float)) (audio_len : Z) (h_in c_in : list float)
      (prob_out : option float) (h_out c_out : option (list float))
| Asr (mel_lfr : option (list float)) (frames features : Z)
      (logits_out : option (list float)) (max_output_size : Z)
| Speaker (fbank : option (list float)) (frames : Z)
          (embedding_out : option (list float)).

(** The call on session [sp]; its return code. *)
Definition infer (sp : session_ptr) (c : inference) : M Z :=
  match c with
  | Vad audio audio_len h_in c_in prob_out h_out c_out =>
      r <- onnx_run_vad sp audio audio_len (Some h_in) (Some c_in)
                        prob_out h_out c_out ;;
      ret (vad_rc r)
  | Asr mel_lfr frames features logits_out max_output_size =>
      r <- onnx_run_asr sp mel_lfr frames features logits_out
                        max_output_size ;;
      ret (fst r)
  | Speaker fbank frames embedding_out =>
      r <- onnx_run_speaker sp fbank frames embedding_out ;;
      ret (fst r)
  end.

(** A sequence of inference calls on one session, in order. *)
Fixpoint infer_all (sp : session_ptr) (cs : list inference) : M (list Z) :=
  match cs with
  | [] => ret []
  | c :: cs' =>
      rc <- infer sp c ;;
      rcs <- infer_all sp cs' ;;
      ret (rc :: rcs)
  end.

(** The graph reports at least one input and one output. *)
Definition reports_names (ort : OrtApi) : Prop :=
  forall s, 1 <= count_of (SessionGetInputCount ort s)
            /\ 1 <= count_of (SessionGetOutputCount ort s).

(** The session has a first input and a first output name slot. *)
Definition has_names (sess : OnnxSession) : Prop :=
  exists bi si ri bo so ro,
    input_names sess = Some (bi, si :: ri)
    /\ output_names sess = Some (bo, so :: ro).

(** What an inference call needs from its caller and from the runtime to
    stay inside its buffers, on a platform whose [malloc] leaves [junk] in a
    fresh block: state inputs of 128 floats and output buffers that hold
    what is copied into them, whenever the graph execution succeeds; a
    recognition or embedding call also needs a session with a first input
    and output name. *)
Definition inference_ok (junk : float) (ort : OrtApi) (c : inference)
  : Prop :=
  match c with
  | Vad audio audio_len h_in c_in prob_out h_out c_out =>
      128 <= Z.of_nat (length h_in) /\ 128 <= Z.of_nat (length c_in)
      /\ room 128 h_out /\ room 128 c_out
      /\ (forall s outs,
             Run ort s
                 (vad_inputs audio audio_len
                             (firstn 128 h_in ++ firstn 128 c_in))
                 vad_output_names = RunOk outs ->
             vad_answer_ok outs)
  | Asr mel_lfr frames features logits_out max_output_size =>
      reports_names ort
      /\ (forall s i o outs,
             Run ort s [(i, asr_input_tensor mel_lfr frames features)] [o]
             = RunOk outs ->
             asr_answer_ok junk outs logits_out max_output_size)
  | Speaker fbank frames embedding_out =>
      reports_names ort
      /\ (forall s i o outs,
             Run ort s [(i, speaker_input_tensor fbank frames)] [o]
             = RunOk outs ->
             speaker_answer_ok outs embedding_out)
  end.

(** Every query on the output [o] succeeds. *)
Definition tensor_clean (o : out_tensor) : Prop :=
  o_shape_status o = Ok /\ o_count_status o = Ok /\ o_dims_status o = Ok
  /\ data_dropped o = 0%nat.

(** No query that the inference call makes on an output of its graph
    fails: the data queries of a detection or embedding call, the shape and
    data queries of a recognition call. *)
Definition inference_clean (ort : OrtApi) (c : inference) : Prop :=
  match c with
  | Vad audio audio_len h_in c_in prob_out h_out c_out =>
      forall s outs,
        Run ort s
            (vad_inputs audio audio_len (firstn 128 h_in ++ firstn 128 c_in))
            vad_output_names = RunOk outs ->
        data_queries_ok outs
  | Asr mel_lfr frames features logits_out max_output_size =>
      forall s i o outs,
        Run ort s [(i, asr_input_tensor mel_lfr frames features)] [o]
        = RunOk outs ->
        forall t, In (Some t) outs -> tensor_clean t
  | Speaker fbank frames embedding_out =>
      forall s i o outs,
        Run ort s [(i, speaker_input_tensor fbank frames)] [o]
        = RunOk outs ->
        data_queries_ok outs
  end.

(** The number of status objects a call with answer [s] leaves when its
    status is dropped. *)
Definition status_handles (s : ort_status) : nat :=
  match s with
  | Ok => 0
  | Failed _ => 1
  end.

(** The status objects that the three option setters of
    [onnx_create_session] leave, and those of a count query. *)
Definition options_dropped (ort : OrtApi) : nat :=
  (status_handles (SetSessionGraphOptimizationLevel ort)
   + status_handles (SetIntraOpNumThreads ort)
   + status_handles (SetInterOpNumThreads ort))%nat.

Definition count_dropped (answer : option Z) : nat :=
  match answer with
  | Some _ => 0
  | None => 1
  end.

(** None of the calls that [onnx_create_session] does not check fails: the
    option setters, the count queries and the name query of every index
    below the count. *)
Definition create_clean (ort : OrtApi) : Prop :=
  options_dropped ort = 0%nat
  /\ forall s,
       count_dropped (SessionGetInputCount ort s) = 0%nat
       /\ count_dropped (SessionGetOutputCount ort s) = 0%nat
       /\ (forall i, 0 <= i < count_of (SessionGetInputCount ort s) ->
                     SessionGetInputName ort s i <> None)
       /\ (forall i, 0 <= i < count_of (SessionGetOutputCount ort s) ->
                     SessionGetOutputName ort s i <> None).

(** The CoreML provider, where it is refused, costs one status object. *)
Definition provider_handles (p : platform) : nat :=
  match AppendExecutionProvider_CoreML p with
  | Ok => 0
  | Failed _ => 1
  end.

Definition provider_events (p : platform) (h : handle) : list event :=
  match AppendExecutionProvider_CoreML p with
  | Ok => []
  | Failed msg => [Acquire KStatus h; Printf msg; Release KStatus h]
  end.

(** The session that [onnx_create_session] builds when the handle counter
    is [f].  Handles are handed out in the order of the calls: the session
    block, the options, the statuses of failing option setters, the status
    of a refused provider, the session, the statuses of failing count
    queries, the two name arrays, and one handle for each iteration of the
    two name loops. *)
Definition built_session_handle (ort : OrtApi) (p : platform) (f : handle)
  : handle :=
  (provider_handles p + (options_dropped ort + S (S f)))%nat.

Definition built_array_handle (ort : OrtApi) (p : platform) (f : handle)
  : handle :=
  let s := built_session_handle ort p f in
  (count_dropped (SessionGetOutputCount ort s)
   + (count_dropped (SessionGetInputCount ort s) + S s))%nat.

Definition built_inputs (ort : OrtApi) (p : platform) (f : handle)
  : list (option cstring) :=
  let s := built_session_handle ort p f in
  fetched (SessionGetInputName ort s)
          (Z.to_nat (count_of (SessionGetInputCount ort s))) 0
          (S (S (built_array_handle ort p f))).

Definition built_outputs (ort : OrtApi) (p : platform) (f : handle)
  : list (option cstring) :=
  let s := built_session_handle ort p f in
  fetched (SessionGetOutputName ort s)
          (Z.to_nat (count_of (SessionGetOutputCount ort s))) 0
          (Z.to_nat (count_of (SessionGetInputCount ort s))
           + S (S (built_array_handle ort p f)))%nat.

Definition built_session (ort : OrtApi) (p : platform) (f : handle)
  : OnnxSession :=
  let s := built_session_handle ort p f in
  let a := built_array_handle ort p f in
  mkSession (Some s) (Some (S f)) (Some default_allocator)
            (Some (a, built_inputs ort p f))
            (Some (S a, built_outputs ort p f))
            (count_of (SessionGetInputCount ort s))
            (count_of (SessionGetOutputCount ort s)).

(** The objects the creation acquires before and after the provider is
    appended, in order. *)
Definition built_first (ort : OrtApi) (f : handle) : list obj :=
  [(KHeap, f); (KSessionOptions, S f)]
    ++ map (pair KStatus) (seq (S (S f)) (options_dropped ort)).

Definition built_second (ort : OrtApi) (p : platform) (f : handle)
  : list obj :=
  let s := built_session_handle ort p f in
  let a := built_array_handle ort p f in
  [(KSession, s)]
    ++ map (pair KStatus)
           (seq (S s) (count_dropped (SessionGetInputCount ort s)
                       + count_dropped (SessionGetOutputCount ort s)))
    ++ [(KHeap, a); (KHeap, S a)]
    ++ fetched_objs (SessionGetInputName ort s)
                    (Z.to_nat (count_of (SessionGetInputCount ort s))) 0
                    (S (S a))
    ++ fetched_objs (SessionGetOutputName ort s)
                    (Z.to_nat (count_of (SessionGetOutputCount ort s))) 0
                    (Z.to_nat (count_of (SessionGetInputCount ort s))
                     + S (S a))%nat.

(** The events of the creation, the handle counter afterwards, the objects
    the session holds in the order [onnx_destroy_session] releases them, the
    events of that, and the statuses the creation dropped. *)
Definition built_events (ort : OrtApi) (p : platform) (f : handle)
  : list event :=
  map acquire_of (built_first ort f)
    ++ provider_events p (options_dropped ort + S (S f))%nat
    ++ map acquire_of (built_second ort p f).

Definition built_fresh (ort : OrtApi) (p : platform) (f : handle) : handle :=
  let s := built_session_handle ort p f in
  (Z.to_nat (count_of (SessionGetOutputCount ort s))
   + (Z.to_nat (count_of (SessionGetInputCount ort s))
      + S (S (built_array_handle ort p f))))%nat.

Definition built_held (ort : OrtApi) (p : platform) (f : handle)
  : list obj :=
  let s := built_session_handle ort p f in
  let a := built_array_handle ort p f in
  map (pair KName) (slot_handles (built_inputs ort p f))
    ++ [(KHeap, a)]
    ++ map (pair KName) (slot_handles (built_outputs ort p f))
    ++ [(KHeap, S a); (KSession, s); (KSessionOptions, S f); (KHeap, f)].

Definition built_releases (ort : OrtApi) (p : platform) (f : handle)
  : list event :=
  map release_of (built_held ort p f).

Definition built_dropped (ort : OrtApi) (p : platform) (f : handle)
  : list obj :=
  filter is_status (built_first ort f ++ built_second ort p f).

(** Lists of objects whose handles go up, between two bounds. *)
Fixpoint ascending (lo : handle) (objs : list obj) (hi : handle) : Prop :=
  match objs with
  | [] => (lo <= hi)%nat
  | o :: rest => (lo <= snd o)%nat /\ ascending (S (snd o)) rest hi
  end.

(** The objects [onnx_destroy_session] releases when it runs after
    [onnx_cleanup]: all but the session and its options. *)
Definition built_held_late (ort : OrtApi) (p : platform) (f : handle)
  : list obj :=
  let a := built_array_handle ort p f in
  map (pair KName) (slot_handles (built_inputs ort p f))
    ++ [(KHeap, a)]
    ++ map (pair KName) (slot_handles (built_outputs ort p f))
    ++ [(KHeap, S a); (KHeap, f)].

(** A whole session: start-up, one session, the inference calls,
    destruction, shutdown. *)
Definition session_run (model_path : option string) (cs : list inference)
  : M (list Z) :=
  onnx_init ;;
  sp <- onnx_create_session model_path ;;
  rcs <- infer_all sp cs ;;
  onnx_destroy_session sp ;;
  onnx_cleanup ;;
  ret rcs.

End OnnxWrapperSpec.

(** * Properties *)

(** ** Machine integers *)

Module MachIntFacts.
Import MachInt.

Lemma to_size_small x : 0 <= x < size_modulus -> to_size x = x.
Proof. intros H. unfold to_size. now apply Z.mod_small. Qed.

Lemma to_size_range x : 0 <= to_size x < size_modulus.
Proof. unfold to_size. apply Z.mod_pos_bound. reflexivity. Qed.

Lemma to_int_small x : - int_half <= x < int_half -> to_int x = x.
Proof.
  intros H. unfold to_int.
  rewrite Z.mod_small; unfold int_modulus, int_half in *; lia.
Qed.

Lemma to_int_range x : - int_half <= to_int x < int_half.
Proof.
  unfold to_int.
  assert (0 <= (x + int_half) mod int_modulus < int_modulus)
    by (apply Z.mod_pos_bound; reflexivity).
  unfold int_modulus, int_half in *. lia.
Qed.

End MachIntFacts.

(** ** Buffers *)

Module BufferFacts.
Import MachInt Buffer.

Section Buffers.
Context {A : Type}.
Implicit Types (dst src l : list A).

Lemma splice_length dst off xs :
  (off + length xs <= length dst)%nat ->
  length (splice dst off xs) = length dst.
Proof.
  intros H. unfold splice.
  rewrite !length_app, length_firstn, length_skipn. lia.
Qed.

Lemma splice_nth_error dst off xs i :
  (off + length xs <= length dst)%nat ->
  nth_error (splice dst off xs) i =
    if (off <=? i)%nat && (i <? off + length xs)%nat
    then nth_error xs (i - off)
    else nth_error dst i.
Proof.
  intros H. unfold splice.
  destruct (Nat.leb_spec off i) as [Hle | Hlt]; simpl.
  - rewrite nth_error_app2 by (rewrite length_firstn; lia).
    rewrite length_firstn, Nat.min_l by lia.
    destruct (Nat.ltb_spec i (off + length xs)) as [Hi | Hi].
    + rewrite nth_error_app1 by lia. reflexivity.
    + rewrite nth_error_app2 by lia.
      rewrite nth_error_skipn. f_equal. lia.
  - rewrite nth_error_app1 by (rewrite length_firstn; lia).
    rewrite nth_error_firstn.
    destruct (Nat.ltb_spec i off); [reflexivity | lia].
Qed.

Lemma store_spec dst i x :
  0 <= i < Z.of_nat (length dst) ->
  exists dst', store dst i x = Some dst'
    /\ length dst' = length dst
    /\ get dst' i = Some x
    /\ (forall j, j <> i -> get dst' j = get dst j).
Proof.
  intros Hi. unfold store.
  replace ((0 <=? i) && (i <? Z.of_nat (length dst))) with true
    by (symmetry; apply andb_true_iff; split;
        [apply Z.leb_le | apply Z.ltb_lt]; lia).
  eexists; split; [reflexivity|].
  assert (Hfit : (Z.to_nat i + length [x] <= length dst)%nat) by (simpl; lia).
  split; [now apply splice_length|]. split.
  - unfold get. destruct (Z.ltb_spec i 0); [lia|].
    rewrite splice_nth_error by exact Hfit. simpl.
    destruct (Nat.leb_spec (Z.to_nat i) (Z.to_nat i)); [|lia].
    destruct (Nat.ltb_spec (Z.to_nat i) (Z.to_nat i + 1)); [|lia].
    simpl. now rewrite Nat.sub_diag.
  - intros j Hj. unfold get. destruct (Z.ltb_spec j 0); [reflexivity|].
    rewrite splice_nth_error by exact Hfit. simpl.
    destruct (Nat.leb_spec (Z.to_nat i) (Z.to_nat j)); simpl; [|reflexivity].
    destruct (Nat.ltb_spec (Z.to_nat j) (Z.to_nat i + 1)); [lia|reflexivity].
Qed.

(** What a successful [memcpy] leaves in the destination. *)
Lemma memcpy_spec dst doff src soff nbytes :
  let n := nbytes / sizeof_float in
  0 <= doff -> 0 <= soff -> 0 <= n ->
  doff + n <= Z.of_nat (length dst) ->
  soff + n <= Z.of_nat (length src) ->
  exists dst', memcpy dst doff src soff nbytes = Some dst'
    /\ length dst' = length dst
    /\ (forall k, 0 <= k < n -> get dst' (doff + k) = get src (soff + k))
    /\ (forall j, j < doff \/ doff + n <= j -> get dst' j = get dst j).
Proof.
  intros n Hd Hs Hn Hdn Hsn. unfold memcpy. fold n.
  replace ((0 <=? doff) && (0 <=? soff) && (0 <=? n)
           && (doff + n <=? Z.of_nat (length dst))
           && (soff + n <=? Z.of_nat (length src))) with true
    by (symmetry; rewrite !andb_true_iff; repeat split; apply Z.leb_le; lia).
  eexists; split; [reflexivity|].
  set (xs := firstn (Z.to_nat n) (skipn (Z.to_nat soff) src)).
  assert (Hxs : length xs = Z.to_nat n).
  { unfold xs. rewrite length_firstn, length_skipn. lia. }
  assert (Hfit : (Z.to_nat doff + length xs <= length dst)%nat) by lia.
  split; [now apply splice_length|]. split.
  - intros k Hk. unfold get.
    destruct (Z.ltb_spec (doff + k) 0); [lia|].
    destruct (Z.ltb_spec (soff + k) 0); [lia|].
    rewrite splice_nth_error by exact Hfit.
    destruct (Nat.leb_spec (Z.to_nat doff) (Z.to_nat (doff + k))); [|lia].
    destruct (Nat.ltb_spec (Z.to_nat (doff + k)) (Z.to_nat doff + length xs));
      [|lia].
    simpl. unfold xs. rewrite nth_error_firstn.
    destruct (Nat.ltb_spec (Z.to_nat (doff + k) - Z.to_nat doff) (Z.to_nat n));
      [|lia].
    rewrite nth_error_skipn. f_equal. lia.
  - intros j Hj. unfold get. destruct (Z.ltb_spec j 0); [reflexivity|].
    rewrite splice_nth_error by exact Hfit.
    destruct (Nat.leb_spec (Z.to_nat doff) (Z.to_nat j)); simpl;
      [|reflexivity].
    destruct (Nat.ltb_spec (Z.to_nat j) (Z.to_nat doff + length xs));
      [lia|reflexivity].
Qed.

(** Two buffers with the same elements at every index are the same buffer. *)
Lemma get_ext (l l' : list A) :
  (forall i, 0 <= i -> get l i = get l' i) -> l = l'.
Proof.
  intros H. apply nth_error_ext. intros n.
  specialize (H (Z.of_nat n) (Nat2Z.is_nonneg n)). unfold get in H.
  destruct (Z.ltb_spec (Z.of_nat n) 0); [lia|].
  now rewrite Nat2Z.id in H.
Qed.

Lemma get_firstn (l : list A) n i :
  0 <= i < n -> get (firstn (Z.to_nat n) l) i = get l i.
Proof.
  intros Hi. unfold get. destruct (Z.ltb_spec i 0); [lia|].
  rewrite nth_error_firstn.
  destruct (Nat.ltb_spec (Z.to_nat i) (Z.to_nat n)); [reflexivity|lia].
Qed.

(** A [memcpy] of [n] floats whose two ranges are inside their buffers, in
    closed form. *)
Lemma memcpy_eq dst src doff soff n :
  0 <= doff -> 0 <= soff -> 0 <= n ->
  doff + n <= Z.of_nat (length dst) ->
  soff + n <= Z.of_nat (length src) ->
  memcpy dst doff src soff (n * sizeof_float)
  = Some (firstn (Z.to_nat doff) dst
          ++ firstn (Z.to_nat n) (skipn (Z.to_nat soff) src)
          ++ skipn (Z.to_nat (doff + n)) dst).
Proof.
  intros Hd Hs Hn Hdn Hsn. unfold memcpy, sizeof_float.
  rewrite Z.div_mul by lia.
  replace ((0 <=? doff) && (0 <=? soff) && (0 <=? n)
           && (doff + n <=? Z.of_nat (length dst))
           && (soff + n <=? Z.of_nat (length src))) with true
    by (symmetry; rewrite !andb_true_iff; repeat split; apply Z.leb_le; lia).
  unfold splice. do 4 f_equal.
  rewrite length_firstn, length_skipn. lia.
Qed.

(** The same at the start of the destination. *)
Lemma memcpy_prefix dst src soff (n : nat) :
  0 <= soff ->
  (n <= length dst)%nat ->
  soff + Z.of_nat n <= Z.of_nat (length src) ->
  memcpy dst 0 src soff (Z.of_nat n * sizeof_float)
  = Some (firstn n (skipn (Z.to_nat soff) src) ++ skipn n dst).
Proof.
  intros Hs Hd Hsrc. rewrite memcpy_eq by lia.
  rewrite Z.add_0_l, Nat2Z.id. reflexivity.
Qed.

(** A [memcpy] that runs outside one of its buffers. *)
Lemma memcpy_overrun dst src doff soff n :
  0 <= n ->
  Z.of_nat (length dst) < doff + n \/ Z.of_nat (length src) < soff + n ->
  memcpy dst doff src soff (n * sizeof_float) = None.
Proof.
  intros Hn Hover. unfold memcpy, sizeof_float. rewrite Z.div_mul by lia.
  destruct Hover as [H | H].
  - destruct (Z.leb_spec (doff + n) (Z.of_nat (length dst))); [lia|].
    now rewrite andb_false_r.
  - destruct (Z.leb_spec (soff + n) (Z.of_nat (length src))); [lia|].
    now rewrite andb_false_r.
Qed.

End Buffers.
End BufferFacts.

(** ** copyhelper.c *)

Module CopyHelperFacts.
Import MachInt Buffer CopyHelper MachIntFacts BufferFacts.

(** A few runs on small buffers. *)
Example strided_stride2 :
  copy_strided_to_contiguous [10; 11; 12; 13; 14; 15] [0; 0; 0; 0] 3 2
  = Some [10; 12; 14; 0].
Proof. reflexivity. Qed.

Example strided_out_of_source :
  copy_strided_to_contiguous [10; 11; 12] [0; 0; 0; 0] 3 2 = None.
Proof. reflexivity. Qed.

Example copy_2d_padded :
  copy_2d_output [1; 2; 3; 9; 4; 5; 6; 9] [0; 0; 0; 0; 0; 0; 0] 2 3 4
  = Some ([1; 2; 3; 4; 5; 6; 0], 6).
Proof. reflexivity. Qed.

Example copy_2d_contiguous :
  copy_2d_output [1; 2; 3; 4; 5; 6; 7] [0; 0; 0; 0; 0; 0; 0] 2 3 3
  = Some ([1; 2; 3; 4; 5; 6; 0], 6).
Proof. reflexivity. Qed.

Section Copy.
Context {A : Type}.
Implicit Types (src dst : list A).

Lemma get_some l i :
  0 <= i < Z.of_nat (length l) -> exists x : A, get l i = Some x.
Proof.
  intros Hi. unfold get. destruct (Z.ltb_spec i 0); [lia|].
  destruct (nth_error l (Z.to_nat i)) eqn:E; [now eexists|].
  apply nth_error_None in E. lia.
Qed.

Lemma get_none l i :
  Z.of_nat (length l) <= i -> get l i = @None A.
Proof.
  intros Hi. unfold get. destruct (Z.ltb_spec i 0); [reflexivity|].
  apply nth_error_None. lia.
Qed.

(** Invariant of the gather loop. *)
Lemma strided_loop_spec src stride n :
  addressable src ->
  forall i dst,
    0 <= i -> i + Z.of_nat n <= Z.of_nat (length dst) ->
    (forall k, i <= k < i + Z.of_nat n ->
               0 <= k * stride < Z.of_nat (length src)) ->
    exists dst',
      strided_loop n i src dst stride = Some dst'
      /\ length dst' = length dst
      /\ (forall k, i <= k < i + Z.of_nat n ->
                    get dst' k = get src (k * stride))
      /\ (forall j, j < i \/ i + Z.of_nat n <= j -> get dst' j = get dst j).
Proof.
  unfold addressable, sizeof_float. intros Hsrc.
  induction n as [|n IH]; intros i dst Hi Hfit Hrd.
  - exists dst. simpl. repeat split; intros; try reflexivity; lia.
  - cbn [strided_loop].
    assert (Hidx : 0 <= i * stride < Z.of_nat (length src)) by (apply Hrd; lia).
    rewrite to_size_small by lia.
    destruct (get_some src (i * stride) Hidx) as [x Hx]. rewrite Hx.
    destruct (store_spec dst i x) as (dst1 & -> & Hlen1 & Hat & Hframe1);
      [lia|].
    destruct (IH (i + 1) dst1) as (dst' & -> & Hlen & Hset & Hframe).
    + lia.
    + rewrite Hlen1. lia.
    + intros k Hk. apply Hrd. lia.
    + exists dst'. split; [reflexivity|]. split; [congruence|]. split.
      * intros k Hk. destruct (Z.eq_dec k i) as [-> | Hne].
        -- rewrite Hframe by lia. congruence.
        -- apply Hset. lia.
      * intros j Hj. rewrite Hframe by lia. apply Hframe1. lia.
Qed.

(** Invariant of the row loop: rows [t .. t+n-1] are in place, everything
    else in the destination is as before. *)
Lemma copy_rows_spec src vocab stride1 n :
  addressable src ->
  0 <= vocab -> 0 <= stride1 ->
  forall t dst,
    0 <= t ->
    addressable dst ->
    (t + Z.of_nat n) * vocab <= Z.of_nat (length dst) ->
    (forall r, t <= r < t + Z.of_nat n ->
               r * stride1 + vocab <= Z.of_nat (length src)) ->
    exists dst',
      copy_rows n t src dst vocab stride1 = Some dst'
      /\ length dst' = length dst
      /\ (forall r v, t <= r < t + Z.of_nat n -> 0 <= v < vocab ->
                      get dst' (r * vocab + v) = get src (r * stride1 + v))
      /\ (forall j, j < t * vocab \/ (t + Z.of_nat n) * vocab <= j ->
                    get dst' j = get dst j).
Proof.
  unfold addressable, sizeof_float. intros Hsrc Hv Hs.
  induction n as [|n IH]; intros t dst Ht Hadr Hfit Hrd.
  - exists dst. simpl. repeat split; intros; try reflexivity; lia.
  - cbn [copy_rows]. unfold sizeof_float.
    assert (Hrow : t * stride1 + vocab <= Z.of_nat (length src))
      by (apply Hrd; lia).
    assert (Htv : 0 <= t * vocab) by nia.
    assert (Hts : 0 <= t * stride1) by nia.
    assert (Htv' : t * vocab + vocab <= Z.of_nat (length dst)) by nia.
    rewrite (to_size_small (t * vocab)) by lia.
    rewrite (to_size_small (t * stride1)) by lia.
    rewrite (to_size_small (vocab * 4)) by lia.
    pose proof (memcpy_spec dst (t * vocab) src (t * stride1) (vocab * 4))
      as Hcpy.
    unfold sizeof_float in Hcpy. rewrite Z.div_mul in Hcpy by lia.
    destruct Hcpy as (dst1 & -> & Hlen1 & Hset1 & Hframe1); try lia.
    destruct (IH (t + 1) dst1) as (dst' & -> & Hlen & Hset & Hframe).
    + lia.
    + rewrite Hlen1. lia.
    + rewrite Hlen1. nia.
    + intros r Hr. apply Hrd. lia.
    + exists dst'. split; [reflexivity|]. split; [congruence|]. split.
      * intros r v Hr Hvv. destruct (Z.eq_dec r t) as [-> | Hne].
        -- rewrite Hframe by nia. now apply Hset1.
        -- apply Hset; lia.
      * intros j Hj. rewrite Hframe by nia. apply Hframe1. nia.
Qed.

(** The single bulk copy of the contiguous case. *)
Lemma copy_bulk_spec src dst time vocab :
  addressable dst ->
  0 <= time * vocab <= Z.of_nat (length dst) ->
  time * vocab <= Z.of_nat (length src) ->
  exists dst',
    copy_bulk src dst time vocab = Some dst'
    /\ length dst' = length dst
    /\ (forall k, 0 <= k < time * vocab -> get dst' k = get src k)
    /\ (forall j, time * vocab <= j -> get dst' j = get dst j).
Proof.
  unfold addressable, sizeof_float. intros Hadr Hfit Hsrc.
  unfold copy_bulk, sizeof_float.
  rewrite (to_size_small (time * vocab)) by lia.
  rewrite to_size_small by lia.
  pose proof (memcpy_spec dst 0 src 0 (time * vocab * 4)) as Hcpy.
  unfold sizeof_float in Hcpy. rewrite Z.div_mul in Hcpy by lia.
  destruct Hcpy as (dst' & -> & Hlen & Hset & Hframe); try lia.
  exists dst'. split; [reflexivity|]. split; [exact Hlen|]. split.
  - intros k Hk. apply (Hset k Hk).
  - intros j Hj. apply Hframe. lia.
Qed.

(** With [stride1 = vocab] the row loop and the bulk copy leave the same
    destination. *)
Lemma copy_rows_contiguous src dst time vocab :
  addressable src -> addressable dst ->
  0 <= time -> 0 <= vocab ->
  time * vocab <= Z.of_nat (length src) ->
  time * vocab <= Z.of_nat (length dst) ->
  copy_rows (Z.to_nat time) 0 src dst vocab vocab
  = copy_bulk src dst time vocab.
Proof.
  intros Hsa Hda Ht Hv Hsrc Hdst.
  destruct (copy_bulk_spec src dst time vocab)
    as (d1 & -> & Hlen1 & Hset1 & Hframe1); try assumption; [nia|].
  destruct (copy_rows_spec src vocab vocab (Z.to_nat time) Hsa Hv Hv 0 dst)
    as (d2 & -> & Hlen2 & Hset2 & Hframe2);
    rewrite ?Z2Nat.id by lia; try assumption; try lia.
  { intros r Hr. nia. }
  rewrite Z2Nat.id in Hset2, Hframe2 by lia.
  f_equal. apply get_ext. intros i Hi.
  destruct (Z_lt_le_dec i (time * vocab)) as [Hin | Hout].
  - assert (Hvpos : 0 < vocab) by nia.
    pose proof (Z.div_mod i vocab ltac:(lia)) as Hdm.
    pose proof (Z.mod_pos_bound i vocab Hvpos) as Hm.
    assert (Hq : 0 <= i / vocab < time).
    { split; [apply Z.div_pos; lia|]. apply Z.div_lt_upper_bound; lia. }
    rewrite Hset1 by lia.
    replace i with (i / vocab * vocab + i mod vocab) by lia.
    apply Hset2; lia.
  - rewrite Hframe1 by lia. apply Hframe2. lia.
Qed.

(** C8. For every [time], [vocab], [stride1] and source buffer that holds
    [time] rows of pitch [stride1], [copy_2d_output] leaves in the
    destination, at row [t] and column [v], the source element
    [t * stride1 + v], leaves the rest of the destination alone, and returns
    [time * vocab]; when [stride1 = vocab] the bulk copy that runs gives
    exactly the destination the row-by-row loop would give. *)
Theorem copy_2d_output_correct src dst time vocab stride1 :
  addressable src -> addressable dst ->
  0 <= time -> 0 <= vocab -> 0 <= stride1 ->
  (forall t, 0 <= t < time -> t * stride1 + vocab <= Z.of_nat (length src)) ->
  time * vocab <= Z.of_nat (length dst) ->
  exists dst',
    copy_2d_output src dst time vocab stride1 = Some (dst', time * vocab)
    /\ length dst' = length dst
    /\ (forall t v, 0 <= t < time -> 0 <= v < vocab ->
          get dst' (t * vocab + v) = get src (t * stride1 + v))
    /\ (forall j, time * vocab <= j -> get dst' j = get dst j)
    /\ (stride1 = vocab ->
          copy_bulk src dst time vocab = Some dst'
          /\ copy_rows (Z.to_nat time) 0 src dst vocab stride1 = Some dst').
Proof.
  intros Hsa Hda Ht Hv Hs Hrows Hdst.
  destruct (copy_rows_spec src vocab stride1 (Z.to_nat time) Hsa Hv Hs 0 dst)
    as (dst' & Hrun & Hlen & Hset & Hframe);
    rewrite ?Z2Nat.id by lia; try assumption; try lia.
  rewrite Z2Nat.id in Hset, Hframe by lia.
  assert (Hret : to_size (time * vocab) = time * vocab).
  { apply to_size_small. unfold addressable, sizeof_float in Hda. nia. }
  assert (Hcontig : stride1 = vocab ->
                    copy_bulk src dst time vocab = Some dst').
  { intros ->. rewrite <- copy_rows_contiguous; try assumption.
    destruct (Z.eq_dec time 0) as [-> | Hne]; [lia|].
    specialize (Hrows (time - 1)). nia. }
  exists dst'. split; [|split; [exact Hlen | split; [exact Hset | split]]].
  - unfold copy_2d_output. destruct (Z.eqb_spec stride1 vocab) as [He | Hne].
    + rewrite (Hcontig He), Hret. reflexivity.
    + rewrite Hrun, Hret. reflexivity.
  - intros j Hj. apply Hframe. lia.
  - intros He. split; [now apply Hcontig | exact Hrun].
Qed.

(** C9. For every [count], [stride] and source buffer that holds every index
    [i * stride] with [i < count], [copy_strided_to_contiguous] writes
    [dst[i] = src[i * stride]] for every [i < count] and nothing else; for
    [stride = 1] the first [count] destination elements are the first [count]
    source elements. *)
Theorem copy_strided_to_contiguous_gathers src dst count stride :
  addressable src ->
  0 <= count <= Z.of_nat (length dst) ->
  0 <= stride ->
  (forall i, 0 <= i < count -> i * stride < Z.of_nat (length src)) ->
  exists dst',
    copy_strided_to_contiguous src dst count stride = Some dst'
    /\ length dst' = length dst
    /\ (forall i, 0 <= i < count -> get dst' i = get src (i * stride))
    /\ (forall j, count <= j -> get dst' j = get dst j)
    /\ (stride = 1 ->
          firstn (Z.to_nat count) dst' = firstn (Z.to_nat count) src).
Proof.
  intros Hsa Hc Hs Hrd.
  destruct (strided_loop_spec src stride (Z.to_nat count) Hsa 0 dst)
    as (dst' & Hrun & Hlen & Hset & Hframe);
    rewrite ?Z2Nat.id by lia; try lia.
  { intros k Hk. split; [nia | apply Hrd; lia]. }
  rewrite Z2Nat.id in Hset, Hframe by lia.
  exists dst'. split; [exact Hrun|]. split; [exact Hlen|].
  split; [intros i Hi; apply Hset; lia|].
  split; [intros j Hj; apply Hframe; lia|].
  intros ->. apply get_ext. intros i Hi.
  destruct (Z_lt_le_dec i count) as [Hin | Hout].
  - rewrite !get_firstn by lia. rewrite Hset by lia. f_equal. lia.
  - rewrite !get_none; [reflexivity | |]; rewrite length_firstn; lia.
Qed.

End Copy.

(** The hypotheses of C8 hold for two contiguous rows of three columns,
    where the bulk copy runs. *)
Lemma copy_2d_output_correct_witness :
  exists dst',
    copy_2d_output [1; 2; 3; 4; 5; 6; 7] [0; 0; 0; 0; 0; 0; 0] 2 3 3
    = Some (dst', 2 * 3)
    /\ length dst' = length [0; 0; 0; 0; 0; 0; 0]
    /\ (forall t v, 0 <= t < 2 -> 0 <= v < 3 ->
          get dst' (t * 3 + v) = get [1; 2; 3; 4; 5; 6; 7] (t * 3 + v))
    /\ (forall j, 2 * 3 <= j -> get dst' j = get [0; 0; 0; 0; 0; 0; 0] j)
    /\ (3 = 3 ->
          copy_bulk [1; 2; 3; 4; 5; 6; 7] [0; 0; 0; 0; 0; 0; 0] 2 3
          = Some dst'
          /\ copy_rows (Z.to_nat 2) 0 [1; 2; 3; 4; 5; 6; 7]
               [0; 0; 0; 0; 0; 0; 0] 3 3 = Some dst').
Proof.
  apply (copy_2d_output_correct
           [1; 2; 3; 4; 5; 6; 7] [0; 0; 0; 0; 0; 0; 0] 2 3 3).
  - reflexivity.
  - reflexivity.
  - lia.
  - lia.
  - lia.
  - simpl. lia.
  - simpl. lia.
Defined.

(** The hypotheses of C9 hold for a gather of three elements at stride 2. *)
Lemma copy_strided_to_contiguous_gathers_witness :
  exists dst',
    copy_strided_to_contiguous [10; 11; 12; 13; 14; 15] [0; 0; 0; 0] 3 2
    = Some dst'
    /\ length dst' = length [0; 0; 0; 0]
    /\ (forall i, 0 <= i < 3 ->
          get dst' i = get [10; 11; 12; 13; 14; 15] (i * 2))
    /\ (forall j, 3 <= j -> get dst' j = get [0; 0; 0; 0] j)
    /\ (2 = 1 ->
          firstn (Z.to_nat 3) dst'
          = firstn (Z.to_nat 3) [10; 11; 12; 13; 14; 15]).
Proof.
  apply (copy_strided_to_contiguous_gathers
           [10; 11; 12; 13; 14; 15] [0; 0; 0; 0] 3 2).
  - reflexivity.
  - simpl. lia.
  - lia.
  - simpl. lia.
Defined.

End CopyHelperFacts.

(** ** onnx_wrapper.c *)

Module OnnxWrapperFacts.
Import MachInt Buffer OnnxWrapper MachIntFacts BufferFacts.

(** Overwriting the two halves of a block of [n + n] elements leaves
    nothing of the block. *)
Lemma pack_lists {A} (n : nat) (R h c : list A) :
  length R = (n + n)%nat -> (n <= length h)%nat -> (n <= length c)%nat ->
  firstn n (firstn n h ++ skipn n R) ++ firstn n c
    ++ skipn (n + n) (firstn n h ++ skipn n R)
  = firstn n h ++ firstn n c.
Proof.
  intros HR Hh Hc.
  assert (Hl : length (firstn n h) = n) by (rewrite length_firstn; lia).
  rewrite firstn_app, Hl, Nat.sub_diag, firstn_O, app_nil_r.
  rewrite firstn_firstn, Nat.min_id.
  rewrite skipn_all2 by (rewrite length_app, Hl, length_skipn; lia).
  now rewrite app_nil_r.
Qed.

(** Packing: the fresh block holds [h] in its first 128 floats and [c] in
    its last 128. *)
Lemma pack_state_spec w h c :
  heap_ok (host w) (fresh w) = true ->
  128 <= Z.of_nat (length h) -> 128 <= Z.of_nat (length c) ->
  pack_state (Some h) (Some c) w
  = Done (fresh w, firstn 128 h ++ firstn 128 c)
         (mkWorld (host w) (g_ort w) (g_env w) (g_error_msg w)
                  (S (fresh w)) (Acquire KHeap (fresh w) :: log w)).
Proof.
  intros Hheap Hh Hc. unfold pack_state, bind, get_world, malloc, bind, get_world.
  rewrite Hheap. cbn [new_handle ret lift bind].
  rewrite (memcpy_eq _ h 0 0 128) by (rewrite ?repeat_length; lia).
  cbn [lift ret].
  rewrite (memcpy_eq _ c 128 0 128);
    rewrite ?length_app, ?length_firstn, ?length_skipn, ?repeat_length; try lia.
  cbn [lift ret].
  change (Z.to_nat 0) with 0%nat. change (Z.to_nat 128) with 128%nat.
  change (Z.to_nat (0 + 128)) with 128%nat.
  change (Z.to_nat (128 + 128)) with (128 + 128)%nat.
  rewrite !firstn_O, !skipn_O, !app_nil_l.
  rewrite pack_lists by (rewrite ?repeat_length; lia).
  reflexivity.
Qed.

(** Unpacking: each output that is wanted receives its half of the state. *)
Lemma unpack_state_spec sd h_out c_out w :
  256 <= Z.of_nat (length sd) -> room 128 h_out -> room 128 c_out ->
  unpack_state (Some sd) h_out c_out w
  = Done (option_map (fun hb => firstn 128 sd ++ skipn 128 hb) h_out,
          option_map (fun cb => firstn 128 (skipn 128 sd) ++ skipn 128 cb)
                     c_out) w.
Proof.
  intros Hsd Hh Hc. unfold unpack_state, bind.
  destruct h_out as [hb|], c_out as [cb|]; cbn [option_map];
    try (specialize (Hh hb eq_refl)); try (specialize (Hc cb eq_refl));
    repeat (rewrite ?(memcpy_eq _ sd 0 0 128), ?(memcpy_eq _ sd 0 128 128)
              by lia; cbn [lift ret]);
    reflexivity.
Qed.

(** Closes [trace w' = trace w ++ evs] for a world built by the call. *)
Ltac trace_eq :=
  unfold trace; cbn [log rev app]; repeat rewrite <- app_assoc; cbn [app];
  reflexivity.

(** Runs the wrapper's own steps on an explicit world, up to the next answer
    of the runtime. *)
Ltac exec :=
  repeat (cbn [bind ret ort_create ort_run new_handle release emit free
               set_error set_ort_error get_world vad_cleanup release_each lift
               adopt_outputs GetTensorMutableData mutable_data discard
               value_handle
               host g_ort g_env g_error_msg fresh log fst snd
               option_map map nth hd tl length vad_output_names]).

(** Opens [asr_extract] on an output for which every query succeeds. *)
Ltac open_extract :=
  unfold asr_extract, type_and_shape, dimensions_count, dimensions,
    mutable_data, mkOut;
  cbn [o_dims o_answer o_shape_status o_count_status o_dims_status].

(** The path of [onnx_run_vad] on which every runtime call succeeds: the
    result, the error string and the events, in the order they happen. *)
Lemma vad_success w blk sess ort audio audio_len h c prob_out h_out c_out
      o0 o1 rest :
  initialized w ort -> heap_never_full w ->
  128 <= Z.of_nat (length h) -> 128 <= Z.of_nat (length c) ->
  room 128 h_out -> room 128 c_out ->
  CreateCpuMemoryInfo ort = Ok ->
  CreateTensorWithDataAsOrtValue ort (vad_audio_tensor audio audio_len) = Ok ->
  CreateTensorWithDataAsOrtValue ort
    (vad_state_tensor (firstn 128 h ++ firstn 128 c)) = Ok ->
  CreateTensorWithDataAsOrtValue ort vad_sr_tensor = Ok ->
  Run ort (session sess)
      (vad_inputs audio audio_len (firstn 128 h ++ firstn 128 c))
      vad_output_names = RunOk (Some o0 :: Some o1 :: rest) ->
  room 1 (o_data o0) -> room 256 (o_data o1) ->
  exists w',
    onnx_run_vad (Some (blk, sess)) audio audio_len (Some h) (Some c)
                 prob_out h_out c_out w
    = Done (mkVad 0
              (match o_data o0, prob_out with
               | Some pd, Some _ => get pd 0
               | _, _ => prob_out
               end)
              (match o_data o1 with
               | Some sd =>
                   option_map (fun hb => firstn 128 sd ++ skipn 128 hb) h_out
               | None => h_out
               end)
              (match o_data o1 with
               | Some sd =>
                   option_map
                     (fun cb => firstn 128 (skipn 128 sd) ++ skipn 128 cb)
                     c_out
               | None => c_out
               end)) w'
    /\ g_error_msg w' = g_error_msg w
    /\ g_ort w' = g_ort w
    /\ trace w'
       = trace w ++
         [ Acquire KMemoryInfo (fresh w);
           Acquire KValue (S (fresh w));
           Acquire KHeap (S (S (fresh w)));
           Acquire KValue (S (S (S (fresh w))));
           Acquire KValue (S (S (S (S (fresh w)))));
           Acquire KValue (S (S (S (S (S (fresh w))))));
           Acquire KValue (S (S (S (S (S (S (fresh w))))))) ]
         ++ dropped_events (data_dropped o0) (7 + fresh w)%nat
         ++ dropped_events (data_dropped o1)
                           (7 + data_dropped o0 + fresh w)%nat
         ++ [ Release KValue (S (S (S (S (S (fresh w))))));
              Release KValue (S (S (S (S (S (S (fresh w)))))));
              Release KHeap (S (S (fresh w)));
              Release KValue (S (fresh w));
              Release KValue (S (S (S (fresh w))));
              Release KValue (S (S (S (S (fresh w)))));
              Release KMemoryInfo (fresh w) ].
Proof.
  intros Hg Hheap Hh Hc Hho Hco Hmi Ht0 Ht1 Ht2 Hrun Hp Hs.
  destruct w as [p go ge em fr lg]. unfold initialized in Hg.
  cbn in Hg. subst go.
  unfold onnx_run_vad. exec. rewrite Hmi. exec. rewrite Ht0. exec.
  unfold bind at 1. rewrite pack_state_spec by (auto; apply Hheap).
  exec. rewrite Ht1. exec. rewrite Ht2. exec.
  unfold ort_run. rewrite Hrun. exec.
  assert (Hprob : forall pd, o_data o0 = Some pd ->
                             exists x, get pd 0 = Some x).
  { intros pd Hpd. specialize (Hp pd Hpd).
    destruct pd; [simpl in Hp; lia | now eexists]. }
  unfold mutable_data, o_data, data_dropped in *.
  destruct (o_answer o0) as [[pd|]|m0];
    [destruct (Hprob pd eq_refl) as [x Hx]| |];
    destruct (o_answer o1) as [[sd|]|m1]; destruct prob_out as [pv|];
      exec; try (unfold bind at 1); rewrite ?Hx; exec;
      try (unfold bind at 1);
      try (rewrite (unpack_state_spec sd) by (auto; apply Hs; reflexivity));
      exec;
      (eexists; split; [reflexivity|]; repeat split; trace_eq).
Qed.

(** Replays an explicit history whose handles are offsets of one unknown
    handle. *)
Ltac settle_run :=
  repeat (cbn [settle is_live existsb obj_eqb kind_eqb fst snd drop filter
               negb andb orb];
          rewrite ?Nat.eqb_refl;
          repeat match goal with
                 | |- context [Nat.eqb ?a ?b] =>
                     rewrite (proj2 (Nat.eqb_neq a b)) by lia
                 end);
  reflexivity.

Ltac settle_tac := unfold released_exactly_once; settle_run.

(** Closes one failing exit path of an inference call: it returns -1 and
    nothing it acquired is left. *)
Ltac finish_path :=
  eexists; eexists; eexists; exists []; split; [reflexivity|];
  split; [trace_eq|]; split; [settle_run|];
  split; [constructor|]; split; [reflexivity|]; split; [reflexivity|];
  now right.

(** Every exit path of [onnx_run_vad] (no session or no runtime, a failing
    memory-info or tensor construction before or after the state buffer is
    allocated, a failing graph execution, success): the call returns, every
    object it acquired is released at most once and only after its
    acquisition, and the objects still live at the end are status objects.
    None is left when the call returns -1, and none when the two data
    queries on the outputs succeed. *)
Lemma vad_exits w sp audio audio_len h c prob_out h_out c_out :
  heap_never_full w ->
  128 <= Z.of_nat (length h) -> 128 <= Z.of_nat (length c) ->
  room 128 h_out -> room 128 c_out ->
  (forall ort s outs,
      initialized w ort ->
      Run ort s (vad_inputs audio audio_len (firstn 128 h ++ firstn 128 c))
          vad_output_names = RunOk outs ->
      vad_answer_ok outs) ->
  exists r w' evs live,
    onnx_run_vad sp audio audio_len (Some h) (Some c) prob_out h_out c_out w
    = Done r w'
    /\ trace w' = trace w ++ evs
    /\ settle [] evs = Some live
    /\ only_statuses live
    /\ (vad_rc r = -1 -> live = [])
    /\ ((forall ort s outs,
            initialized w ort ->
            Run ort s
                (vad_inputs audio audio_len (firstn 128 h ++ firstn 128 c))
                vad_output_names = RunOk outs ->
            data_queries_ok outs) -> live = [])
    /\ (vad_rc r = 0 \/ vad_rc r = -1).
Proof.
  intros Hheap Hh Hc Hho Hco Hans.
  destruct sp as [[blk sess]|], (g_ort w) as [ort|] eqn:Hg.
  2-4: destruct w as [p go ge em fr lg]; cbn in Hg; subst go;
       unfold onnx_run_vad; exec;
       exists (mkVad (-1) prob_out h_out c_out); eexists; exists [], [];
       (split; [reflexivity|]); (split; [now rewrite app_nil_r|]);
       (split; [reflexivity|]); (split; [constructor|]);
       (split; [reflexivity|]); (split; [reflexivity | now right]).
  destruct (CreateCpuMemoryInfo ort) as [|m0] eqn:Emi.
  2:{ destruct w as [p go ge em fr lg]; cbn in Hg; subst go.
      unfold onnx_run_vad; exec. rewrite Emi. exec. finish_path. }
  destruct (CreateTensorWithDataAsOrtValue ort
              (vad_audio_tensor audio audio_len)) as [|m1] eqn:Et0.
  2:{ destruct w as [p go ge em fr lg]; cbn in Hg; subst go.
      unfold onnx_run_vad; exec. rewrite Emi. exec. rewrite Et0. exec.
      finish_path. }
  destruct (CreateTensorWithDataAsOrtValue ort
              (vad_state_tensor (firstn 128 h ++ firstn 128 c)))
    as [|m2] eqn:Et1.
  2:{ destruct w as [p go ge em fr lg]; cbn in Hg; subst go.
      unfold onnx_run_vad; exec. rewrite Emi. exec. rewrite Et0. exec.
      unfold bind at 1. rewrite pack_state_spec by (auto; apply Hheap).
      exec. rewrite Et1. exec. finish_path. }
  destruct (CreateTensorWithDataAsOrtValue ort vad_sr_tensor)
    as [|m3] eqn:Et2.
  2:{ destruct w as [p go ge em fr lg]; cbn in Hg; subst go.
      unfold onnx_run_vad; exec. rewrite Emi. exec. rewrite Et0. exec.
      unfold bind at 1. rewrite pack_state_spec by (auto; apply Hheap).
      exec. rewrite Et1. exec. rewrite Et2. exec. finish_path. }
  destruct (Run ort (session sess)
                (vad_inputs audio audio_len (firstn 128 h ++ firstn 128 c))
                vad_output_names) as [m4|outs] eqn:Erun.
  { destruct w as [p go ge em fr lg]; cbn in Hg; subst go.
    unfold onnx_run_vad; exec. rewrite Emi. exec. rewrite Et0. exec.
    unfold bind at 1. rewrite pack_state_spec by (auto; apply Hheap).
    exec. rewrite Et1. exec. rewrite Et2. exec.
    unfold ort_run. rewrite Erun. exec. finish_path. }
  destruct (Hans ort _ outs Hg Erun) as (o0 & o1 & rest & -> & Hp & Hs).
  destruct (vad_success w blk sess ort audio audio_len h c prob_out h_out
                        c_out o0 o1 rest)
    as (w' & Hrun & _ & _ & Htr); auto.
  assert (Hq : (forall ort s outs,
                   initialized w ort ->
                   Run ort s
                       (vad_inputs audio audio_len
                                   (firstn 128 h ++ firstn 128 c))
                       vad_output_names = RunOk outs ->
                   data_queries_ok outs) ->
               data_dropped o0 = 0%nat /\ data_dropped o1 = 0%nat).
  { intros Hq. specialize (Hq ort _ _ Hg Erun).
    split; apply Hq; simpl; auto. }
  unfold data_dropped in Htr, Hq.
  destruct (o_answer o0) as [p0|e0], (o_answer o1) as [p1|e1];
    cbn [dropped_events map seq Nat.add app] in Htr;
    do 4 eexists; (split; [exact Hrun|]); (split; [exact Htr|]);
    (split; [settle_run|]);
    (split; [repeat constructor|]);
    (split; [cbn [vad_rc]; intros; try reflexivity; lia|]);
    (split; [| now left]);
    intros Hok; destruct (Hq Hok); try reflexivity; discriminate.
Qed.

(** C4. The code misses the claim where a data query on an output fails:
    on a runtime whose probability output is not a tensor of floats,
    [onnx_run_vad] returns 0, and the state buffer, the memory info and the
    five tensors are released exactly once, but the status object that
    [GetTensorMutableData] returned is still live when the call returns: an
    allocation made inside the call survives it. *)
Theorem vad_drops_query_status :
  exists r w' evs,
    onnx_run_vad sample_handle (Some [0; 0]) 2
                 (Some (constant_state 1)) (Some (constant_state 2))
                 (Some 0) (Some (constant_state 0)) None
                 (sample_world (sample_api unreadable_probability))
    = Done r w'
    /\ vad_rc r = 0
    /\ trace w'
       = trace (sample_world (sample_api unreadable_probability)) ++ evs
    /\ settle [] evs = Some [(KStatus, 16%nat)]
    /\ ~ released_exactly_once evs.
Proof.
  do 3 eexists. split; [vm_compute; reflexivity|].
  split; [reflexivity|]. split; [vm_compute; reflexivity|].
  split; [vm_compute; reflexivity | vm_compute; discriminate].
Qed.

(** A buffer of exactly [n] elements. *)
Lemma firstn_exact {A} (n : nat) (l : list A) : length l = n -> firstn n l = l.
Proof. intros <-. apply firstn_all. Qed.

Lemma skipn_exact {A} (n : nat) (l : list A) : length l = n -> skipn n l = [].
Proof. intros <-. apply skipn_all. Qed.

(** C1. For every pair of 128-float vectors [h] and [c], [onnx_run_vad]
    packs them into one 256-float buffer, [h] first and [c] second, and that
    buffer is the state tensor the graph runs on; after the run [h_out] holds
    the first 128 floats and [c_out] the last 128 floats of the state output.
    Unpacking the packed pair gives the pair back, and so does the whole call
    when the runtime hands the state through unchanged. *)
Theorem vad_state_round_trip w blk sess ort audio audio_len h c prob_out
        hb cb o0 o1 rest sd :
  initialized w ort -> heap_never_full w ->
  length h = 128%nat -> length c = 128%nat ->
  length hb = 128%nat -> length cb = 128%nat ->
  CreateCpuMemoryInfo ort = Ok ->
  (forall t, CreateTensorWithDataAsOrtValue ort t = Ok) ->
  Run ort (session sess) (vad_inputs audio audio_len (h ++ c))
      vad_output_names = RunOk (Some o0 :: Some o1 :: rest) ->
  room 1 (o_data o0) ->
  o_data o1 = Some sd -> 256 <= Z.of_nat (length sd) ->
  (exists w1, pack_state (Some h) (Some c) w = Done (fresh w, h ++ c) w1)
  /\ unpack_state (Some (h ++ c)) (Some hb) (Some cb) w
     = Done (Some h, Some c) w
  /\ exists r w',
       onnx_run_vad (Some (blk, sess)) audio audio_len (Some h) (Some c)
                    prob_out (Some hb) (Some cb) w = Done r w'
       /\ vad_rc r = 0
       /\ vad_h r = Some (firstn 128 sd)
       /\ vad_c r = Some (firstn 128 (skipn 128 sd))
       /\ (sd = h ++ c -> vad_h r = Some h /\ vad_c r = Some c).
Proof.
  intros Hg Hheap Hh Hc Hhb Hcb Hmi Hten Hrun Hp Hsd Hlen.
  assert (Hroom : forall b : list float, length b = 128%nat -> room 128 (Some b)).
  { intros b Hb b' [= <-]. lia. }
  assert (Hpack : firstn 128 h ++ firstn 128 c = h ++ c)
    by (now rewrite (firstn_exact 128 h Hh), (firstn_exact 128 c Hc)).
  split; [|split].
  - eexists. rewrite pack_state_spec; [now rewrite Hpack | apply Hheap | lia | lia].
  - rewrite unpack_state_spec;
      [| rewrite length_app; lia | now apply Hroom | now apply Hroom].
    cbn [option_map]. rewrite (skipn_exact 128 hb Hhb), (skipn_exact 128 cb Hcb).
    rewrite !app_nil_r, firstn_app, skipn_app, Hh, Nat.sub_diag.
    rewrite (skipn_exact 128 h Hh), firstn_O, skipn_O, app_nil_r, app_nil_l.
    now rewrite (firstn_exact 128 h Hh), (firstn_exact 128 c Hc).
  - destruct (vad_success w blk sess ort audio audio_len h c prob_out
                (Some hb) (Some cb) o0 o1 rest)
      as (w' & Hcall & _); auto; try lia.
    { now rewrite Hpack. }
    { rewrite Hsd. intros b [= <-]. exact Hlen. }
    rewrite Hsd in Hcall. cbn [option_map] in Hcall.
    rewrite (skipn_exact 128 hb Hhb), (skipn_exact 128 cb Hcb), !app_nil_r
      in Hcall.
    eexists. exists w'. split; [exact Hcall|]. cbn [vad_rc vad_h vad_c].
    do 3 (split; [reflexivity|]). intros ->. split; f_equal.
    + rewrite firstn_app, Hh, Nat.sub_diag, firstn_O.
      now rewrite app_nil_r, (firstn_exact 128 h Hh).
    + rewrite skipn_app, Hh, Nat.sub_diag, skipn_O.
      now rewrite (skipn_exact 128 h Hh), app_nil_l, (firstn_exact 128 c Hc).
Qed.

(** C7. In a call of [onnx_run_vad] whose inference succeeds, each of
    [prob_out], [h_out] and [c_out] that is [NULL] is skipped and stays
    [NULL], each one that is not [NULL] receives its output, and the call
    returns 0 whichever of them are [NULL]; it does not fault. *)
Theorem vad_null_outputs_are_skipped w blk sess ort audio audio_len h c
        prob_out h_out c_out o0 o1 rest pd sd :
  initialized w ort -> heap_never_full w ->
  128 <= Z.of_nat (length h) -> 128 <= Z.of_nat (length c) ->
  room 128 h_out -> room 128 c_out ->
  CreateCpuMemoryInfo ort = Ok ->
  (forall t, CreateTensorWithDataAsOrtValue ort t = Ok) ->
  Run ort (session sess)
      (vad_inputs audio audio_len (firstn 128 h ++ firstn 128 c))
      vad_output_names = RunOk (Some o0 :: Some o1 :: rest) ->
  o_data o0 = Some pd -> 1 <= Z.of_nat (length pd) ->
  o_data o1 = Some sd -> 256 <= Z.of_nat (length sd) ->
  exists r w',
    onnx_run_vad (Some (blk, sess)) audio audio_len (Some h) (Some c)
                 prob_out h_out c_out w = Done r w'
    /\ vad_rc r = 0
    /\ vad_prob r = match prob_out with
                    | Some _ => get pd 0
                    | None => None
                    end
    /\ vad_h r = match h_out with
                 | Some hb => Some (firstn 128 sd ++ skipn 128 hb)
                 | None => None
                 end
    /\ vad_c r = match c_out with
                 | Some cb => Some (firstn 128 (skipn 128 sd) ++ skipn 128 cb)
                 | None => None
                 end.
Proof.
  intros Hg Hheap Hh Hc Hho Hco Hmi Hten Hrun Hpd Hpl Hsd Hsl.
  destruct (vad_success w blk sess ort audio audio_len h c prob_out
              h_out c_out o0 o1 rest)
    as (w' & Hcall & _); auto.
  { rewrite Hpd. intros b [= <-]. exact Hpl. }
  { rewrite Hsd. intros b [= <-]. exact Hsl. }
  rewrite Hpd, Hsd in Hcall.
  eexists. exists w'. split; [exact Hcall|]. cbn [vad_rc vad_prob vad_h vad_c].
  split; [reflexivity|]. split; [now destruct prob_out|].
  split; [now destruct h_out | now destruct c_out].
Qed.

(** The speaker call up to the point where the output tensor is in hand. *)
Lemma speaker_run w blk sess ort fbank frames embedding_out
      bi si ri bo so ro o rest :
  initialized w ort ->
  input_names sess = Some (bi, si :: ri) ->
  output_names sess = Some (bo, so :: ro) ->
  CreateCpuMemoryInfo ort = Ok ->
  CreateTensorWithDataAsOrtValue ort (speaker_input_tensor fbank frames) = Ok ->
  Run ort (session sess)
      [(option_map snd si, speaker_input_tensor fbank frames)]
      [option_map snd so] = RunOk (Some o :: rest) ->
  onnx_run_speaker (Some (blk, sess)) fbank frames embedding_out w
  = match speaker_extract o embedding_out
            (mkWorld (host w) (g_ort w) (g_env w) (g_error_msg w)
               (S (S (S (fresh w))))
               (Acquire KValue (S (S (fresh w)))
                :: Acquire KValue (S (fresh w))
                :: Acquire KMemoryInfo (fresh w) :: log w)) with
    | Fault => Fault
    | Done res w1 =>
        Done res
             (mkWorld (host w1) (g_ort w1) (g_env w1) (g_error_msg w1)
                (fresh w1)
                (Release KMemoryInfo (fresh w)
                 :: Release KValue (S (fresh w))
                 :: Release KValue (S (S (fresh w))) :: log w1))
    end.
Proof.
  intros Hg Hin Hout Hmi Hten Hrun.
  destruct w as [p go ge em fr lg]. unfold initialized in Hg. cbn in Hg. subst go.
  unfold onnx_run_speaker. exec. rewrite Hmi. exec. rewrite Hten. exec.
  rewrite Hin, Hout. cbn [first_name]. exec.
  unfold ort_run. rewrite Hrun. exec.
  unfold bind at 1. unfold bind at 1.
  destruct (speaker_extract o embedding_out _) as [|res w1]; [reflexivity|].
  exec. destruct w1; reflexivity.
Qed.

(** C5. After a successful graph execution, with [embedding_out] and the
    output data pointer both set, [onnx_run_speaker] copies exactly 512 floats
    from the output data into [embedding_out] and returns 0, whatever
    dimensions the runtime reports for the output tensor: the element count
    is never compared with 512.  (An output that holds fewer than 512 floats
    is read past its end.) *)
Theorem speaker_copies_512_unchecked w blk sess ort fbank frames eb
        bi si ri bo so ro dims od rest :
  initialized w ort ->
  input_names sess = Some (bi, si :: ri) ->
  output_names sess = Some (bo, so :: ro) ->
  CreateCpuMemoryInfo ort = Ok ->
  CreateTensorWithDataAsOrtValue ort (speaker_input_tensor fbank frames) = Ok ->
  Run ort (session sess)
      [(option_map snd si, speaker_input_tensor fbank frames)]
      [option_map snd so] = RunOk (Some (mkOut dims (Some od)) :: rest) ->
  512 <= Z.of_nat (length eb) ->
  (512 <= Z.of_nat (length od) ->
   exists w',
     onnx_run_speaker (Some (blk, sess)) fbank frames (Some eb) w
     = Done (0, Some (firstn 512 od ++ skipn 512 eb)) w'
     /\ g_error_msg w' = g_error_msg w)
  /\ (Z.of_nat (length od) < 512 ->
      onnx_run_speaker (Some (blk, sess)) fbank frames (Some eb) w = Fault).
Proof.
  intros Hg Hin Hout Hmi Hten Hrun Heb.
  rewrite (speaker_run w blk sess ort fbank frames (Some eb)
             bi si ri bo so ro _ rest Hg Hin Hout Hmi Hten Hrun).
  unfold speaker_extract, mutable_data, mkOut. cbn [o_answer]. exec. split.
  - intros Hod. unfold bind at 1.
    rewrite (memcpy_eq eb od 0 0 512) by lia. exec.
    eexists. split; reflexivity.
  - intros Hod. unfold bind at 1.
    rewrite (memcpy_overrun eb od 0 0 512) by lia. reflexivity.
Qed.

(** C10. When the graph execution of [onnx_run_speaker] succeeds but
    [embedding_out] is [NULL], or the runtime reports a [NULL] output data
    pointer, the call returns -1 and leaves the last-error string as it was;
    [onnx_run_vad] called with all three output pointers [NULL] skips the
    copies and returns 0. *)
Theorem speaker_null_output_fails_silently w ort
        blk sess fbank frames embedding_out bi si ri bo so ro o rest
        vblk vsess audio audio_len h c o0 o1 vrest :
  initialized w ort -> heap_never_full w ->
  CreateCpuMemoryInfo ort = Ok ->
  (forall t, CreateTensorWithDataAsOrtValue ort t = Ok) ->
  input_names sess = Some (bi, si :: ri) ->
  output_names sess = Some (bo, so :: ro) ->
  Run ort (session sess)
      [(option_map snd si, speaker_input_tensor fbank frames)]
      [option_map snd so] = RunOk (Some o :: rest) ->
  embedding_out = None \/ o_data o = None ->
  128 <= Z.of_nat (length h) -> 128 <= Z.of_nat (length c) ->
  Run ort (session vsess)
      (vad_inputs audio audio_len (firstn 128 h ++ firstn 128 c))
      vad_output_names = RunOk (Some o0 :: Some o1 :: vrest) ->
  room 1 (o_data o0) -> room 256 (o_data o1) ->
  (exists w',
      onnx_run_speaker (Some (blk, sess)) fbank frames embedding_out w
      = Done (-1, embedding_out) w'
      /\ g_error_msg w' = g_error_msg w)
  /\ (exists r w',
         onnx_run_vad (Some (vblk, vsess)) audio audio_len (Some h) (Some c)
                      None None None w = Done r w'
         /\ vad_rc r = 0
         /\ vad_prob r = None /\ vad_h r = None /\ vad_c r = None).
Proof.
  intros Hg Hheap Hmi Hten Hin Hout Hrun Hnull Hh Hc Hvrun Hp Hs. split.
  - rewrite (speaker_run w blk sess ort fbank frames embedding_out
               bi si ri bo so ro o rest Hg Hin Hout Hmi (Hten _) Hrun).
    assert (Hex : forall w1,
               exists w2, speaker_extract o embedding_out w1
                          = Done (-1, embedding_out) w2
                          /\ g_error_msg w2 = g_error_msg w1).
    { intros w1. unfold speaker_extract, mutable_data, o_data in *.
      destruct (o_answer o) as [[d|]|m]; exec;
        try (eexists; split; reflexivity);
        destruct Hnull as [-> | Hnull]; try discriminate;
        eexists; split; reflexivity. }
    destruct (Hex (mkWorld (host w) (g_ort w) (g_env w) (g_error_msg w)
                     (S (S (S (fresh w))))
                     (Acquire KValue (S (S (fresh w)))
                      :: Acquire KValue (S (fresh w))
                      :: Acquire KMemoryInfo (fresh w) :: log w)))
      as (w2 & -> & Hmsg).
    eexists. split; [reflexivity | exact Hmsg].
  - destruct (vad_success w vblk vsess ort audio audio_len h c None None None
                o0 o1 vrest) as (w' & Hcall & _); auto;
      try (intros b Hb; discriminate).
    eexists. exists w'. split; [exact Hcall|]. cbn [vad_rc vad_prob vad_h vad_c].
    split; [reflexivity|].
    split; [now destruct (o_data o0) | now destruct (o_data o1)].
Qed.

(** [size_t] multiplication is multiplication modulo [2^64]. *)
Lemma to_size_mul a b : to_size (to_size a * to_size b) = to_size (a * b).
Proof.
  unfold to_size. symmetry. apply Z.mul_mod. unfold size_modulus. lia.
Qed.

Lemma output_size_of_fold dims : forall acc,
  fold_left (fun a d => to_size (a * to_size d)) dims (to_size acc)
  = to_size (acc * product dims).
Proof.
  induction dims as [|d dims IH]; intros acc; cbn [fold_left product fold_right].
  - now rewrite Z.mul_1_r.
  - rewrite to_size_mul, IH. f_equal. fold (product dims). lia.
Qed.

(** The element count the ASR call computes is the product of the
    dimensions, reduced to [size_t]. *)
Lemma output_size_of_product dims :
  output_size_of dims = to_size (product dims).
Proof.
  unfold output_size_of. change 1 with (to_size 1) at 1.
  rewrite output_size_of_fold. f_equal. lia.
Qed.

(** The ASR call up to the point where the output tensor is in hand. *)
Lemma asr_run w blk sess ort mel_lfr frames features logits_out
      max_output_size bi si ri bo so ro o rest :
  initialized w ort ->
  input_names sess = Some (bi, si :: ri) ->
  output_names sess = Some (bo, so :: ro) ->
  CreateCpuMemoryInfo ort = Ok ->
  CreateTensorWithDataAsOrtValue ort
    (asr_input_tensor mel_lfr frames features) = Ok ->
  Run ort (session sess)
      [(option_map snd si, asr_input_tensor mel_lfr frames features)]
      [option_map snd so] = RunOk (Some o :: rest) ->
  onnx_run_asr (Some (blk, sess)) mel_lfr frames features logits_out
               max_output_size w
  = match asr_extract o logits_out max_output_size
            (mkWorld (host w) (g_ort w) (g_env w) (g_error_msg w)
               (S (S (S (fresh w))))
               (Acquire KValue (S (S (fresh w)))
                :: Acquire KValue (S (fresh w))
                :: Acquire KMemoryInfo (fresh w) :: log w)) with
    | Fault => Fault
    | Done res w1 =>
        Done res
             (mkWorld (host w1) (g_ort w1) (g_env w1) (g_error_msg w1)
                (fresh w1)
                (Release KMemoryInfo (fresh w)
                 :: Release KValue (S (fresh w))
                 :: Release KValue (S (S (fresh w))) :: log w1))
    end.
Proof.
  intros Hg Hin Hout Hmi Hten Hrun.
  destruct w as [p go ge em fr lg]. unfold initialized in Hg. cbn in Hg. subst go.
  unfold onnx_run_asr. exec. rewrite Hmi. exec. rewrite Hten. exec.
  rewrite Hin, Hout. cbn [first_name]. exec.
  unfold ort_run. rewrite Hrun. exec.
  unfold bind at 1. unfold bind at 1.
  destruct (asr_extract o logits_out max_output_size _) as [|res w1];
    [reflexivity|].
  exec. destruct w1; reflexivity.
Qed.

(** Reading the shape and copying, for an element count that an [int] can
    hold. *)
Lemma asr_extract_spec w dims odata logits_out max_output_size :
  heap_ok (host w) (S (fresh w)) = true ->
  0 <= product dims < int_half ->
  room max_output_size logits_out ->
  room (product dims) odata ->
  exists w',
    asr_extract (mkOut dims odata) logits_out max_output_size w
    = Done (if product dims <=? max_output_size
            then (product dims,
                  match odata, logits_out with
                  | Some od, Some lb =>
                      Some (firstn (Z.to_nat (product dims)) od
                            ++ skipn (Z.to_nat (product dims)) lb)
                  | _, _ => logits_out
                  end)
            else (-1, logits_out)) w'
    /\ host w' = host w /\ g_ort w' = g_ort w
    /\ g_error_msg w'
       = (if product dims <=? max_output_size then g_error_msg w
          else "Output buffer too small"%string).
Proof.
  intros Hheap HP Hlb Hod.
  assert (Hsz : output_size_of dims = product dims).
  { rewrite output_size_of_product. apply to_size_small.
    unfold int_half, size_modulus in *. lia. }
  assert (Hint : to_int (product dims) = product dims).
  { apply to_int_small. unfold int_half in *. lia. }
  assert (Hbytes : to_size (product dims * sizeof_float)
                   = product dims * sizeof_float).
  { apply to_size_small. unfold int_half, size_modulus, sizeof_float in *. lia. }
  destruct w as [p go ge em fr lg]. cbn [host fresh] in Hheap.
  open_extract. exec. unfold bind at 1. unfold malloc.
  unfold bind at 1. cbn [get_world host fresh]. rewrite Hheap.
  exec. rewrite firstn_all.
  rewrite Hsz, Hint, Hbytes.
  destruct (Z.leb_spec (product dims) max_output_size) as [Hle | Hgt].
  - destruct odata as [od|], logits_out as [lb|]; exec;
      try (eexists; repeat split; reflexivity).
    specialize (Hlb lb eq_refl). specialize (Hod od eq_refl).
    unfold bind at 1. rewrite (memcpy_eq lb od 0 0 (product dims)) by lia.
    exec. eexists. repeat split; reflexivity.
  - exec. eexists. repeat split; reflexivity.
Qed.

(** C2, as amended.  After a successful graph execution that yields an
    output tensor whose element count [P], the product of the reported
    dimensions, is a non-negative [int]: if [P <= max_output_size] the call
    returns [P], copies exactly [P] floats into [logits_out] when that and
    the output data pointer are both set (and copies nothing, still
    returning [P], when one of them is [NULL]), and leaves the last-error
    string alone; if [P > max_output_size] it returns -1, sets the error
    [Output buffer too small] and leaves [logits_out] untouched. *)
Theorem asr_returns_element_count w blk sess ort mel_lfr frames features
        logits_out max_output_size bi si ri bo so ro dims odata rest :
  initialized w ort -> heap_never_full w ->
  input_names sess = Some (bi, si :: ri) ->
  output_names sess = Some (bo, so :: ro) ->
  CreateCpuMemoryInfo ort = Ok ->
  CreateTensorWithDataAsOrtValue ort
    (asr_input_tensor mel_lfr frames features) = Ok ->
  Run ort (session sess)
      [(option_map snd si, asr_input_tensor mel_lfr frames features)]
      [option_map snd so] = RunOk (Some (mkOut dims odata) :: rest) ->
  0 <= product dims < 2 ^ 31 ->
  room max_output_size logits_out ->
  room (product dims) odata ->
  exists rc logits' w',
    onnx_run_asr (Some (blk, sess)) mel_lfr frames features logits_out
                 max_output_size w = Done (rc, logits') w'
    /\ (product dims <= max_output_size ->
        rc = product dims
        /\ logits' = match odata, logits_out with
                     | Some od, Some lb =>
                         Some (firstn (Z.to_nat (product dims)) od
                               ++ skipn (Z.to_nat (product dims)) lb)
                     | _, _ => logits_out
                     end
        /\ g_error_msg w' = g_error_msg w)
    /\ (max_output_size < product dims ->
        rc = -1
        /\ logits' = logits_out
        /\ g_error_msg w' = "Output buffer too small"%string).
Proof.
  intros Hg Hheap Hin Hout Hmi Hten Hrun HP Hlb Hod.
  rewrite (asr_run w blk sess ort mel_lfr frames features logits_out
             max_output_size bi si ri bo so ro _ rest Hg Hin Hout Hmi Hten
             Hrun).
  match goal with
  | |- context [asr_extract _ _ _ ?w1] =>
      destruct (asr_extract_spec w1 dims odata logits_out max_output_size)
        as (w2 & -> & _ & _ & Hmsg); auto; try apply Hheap
  end.
  cbn [g_error_msg] in Hmsg.
  destruct (Z.leb_spec (product dims) max_output_size) as [Hle | Hgt];
    do 3 eexists; (split; [reflexivity|]); cbn [g_error_msg];
    split; intros Hcmp; try lia; repeat split; assumption.
Qed.

(** The element right after a prefix. *)
Lemma get_middle {A} (pre post : list A) x :
  get (pre ++ x :: post) (Z.of_nat (length pre)) = Some x.
Proof.
  unfold get. destruct (Z.ltb_spec (Z.of_nat (length pre)) 0); [lia|].
  rewrite Nat2Z.id, nth_error_app2, Nat.sub_diag by lia. reflexivity.
Qed.

(** The loop over a name array releases the names slot by slot. *)
Lemma free_names_spec alloc post : forall pre w,
  free_names (length post) (Z.of_nat (length pre)) (pre ++ post) alloc w
  = Done tt (after_events (rev (name_releases post alloc)) w).
Proof.
  induction post as [|x post IH]; intros pre w.
  - destruct w; reflexivity.
  - cbn [length free_names]. unfold bind at 1. rewrite get_middle.
    cbn [lift ret]. unfold bind at 1.
    replace (Z.of_nat (length pre) + 1) with (Z.of_nat (length (pre ++ [x])))
      by (rewrite length_app; simpl; lia).
    replace (pre ++ x :: post) with ((pre ++ [x]) ++ post)
      by (now rewrite <- app_assoc).
    destruct x as [[h t]|], alloc as [a|]; cbn [release emit ret];
      rewrite IH; destruct w; unfold after_events, name_releases;
      cbn [flat_map host g_ort g_env g_error_msg fresh log app rev];
      rewrite <- ?app_assoc; reflexivity.
Qed.

(** Names first, then the array that held them. *)
Lemma destroy_names_spec names n alloc w :
  (forall blk slots, names = Some (blk, slots) -> n = Z.of_nat (length slots)) ->
  destroy_names names n alloc w
  = Done tt (after_events (rev (names_order names alloc)) w).
Proof.
  intros Hn. destruct names as [[blk slots]|]; cbn [destroy_names names_order].
  - rewrite (Hn blk slots eq_refl), Nat2Z.id. unfold bind.
    pose proof (free_names_spec alloc slots [] w) as Hloop.
    cbn [length app] in Hloop. change (Z.of_nat 0) with 0 in Hloop.
    rewrite Hloop. cbn [free release emit].
    destruct w; unfold after_events;
      cbn [host g_ort g_env g_error_msg fresh log].
    rewrite rev_app_distr. reflexivity.
  - destruct w; reflexivity.
Qed.

(** C3, as amended.  For every session handle whose counts agree with its
    name arrays, [onnx_destroy_session] completes without a fault, whichever
    fields are unset, and releases in this order: the input names and the
    output names (each name through the runtime's allocator, then the array
    with [free]), then the graph (session) object, then the
    execution-configuration (session options) object, then the session block.
    An unset field is skipped. *)
Theorem destroy_session_order w sp :
  (forall block sess, sp = Some (block, sess) -> counts_match sess) ->
  exists w',
    onnx_destroy_session sp w = Done tt w'
    /\ trace w' = trace w ++ destroy_order (g_ort w) sp
    /\ g_error_msg w' = g_error_msg w
    /\ g_ort w' = g_ort w
    /\ (forall block sess s o ort,
          sp = Some (block, sess) -> session sess = Some s ->
          options sess = Some o -> g_ort w = Some ort ->
          destroy_order (g_ort w) sp
          = (names_order (input_names sess) (allocator sess)
             ++ names_order (output_names sess) (allocator sess))
            ++ [Release KSession s; Release KSessionOptions o;
                Release KHeap block]).
Proof.
  intros Hcm.
  cut (exists w',
          onnx_destroy_session sp w = Done tt w'
          /\ trace w' = trace w ++ destroy_order (g_ort w) sp
          /\ g_error_msg w' = g_error_msg w
          /\ g_ort w' = g_ort w).
  { intros (w' & Hrun & Htr & Hmsg & Hg'). exists w'.
    do 4 (split; [assumption|]).
    intros block sess s o ort -> Hs Ho Hg. unfold destroy_order.
    rewrite Hs, Ho, Hg, <- app_assoc. reflexivity. }
  destruct sp as [[block sess]|].
  2:{ exists w. cbn. rewrite app_nil_r. auto. }
  destruct (Hcm block sess eq_refl) as [Hin Hout].
  unfold onnx_destroy_session. unfold bind at 1.
  rewrite destroy_names_spec by exact Hin. unfold bind at 1.
  rewrite destroy_names_spec by exact Hout.
  destruct w as [p go ge em fr lg]. unfold after_events.
  cbn [host g_ort g_env g_error_msg fresh log]. exec. unfold destroy_order.
  destruct (session sess) as [s|], (options sess) as [o|], go as [ort|];
    exec; eexists; (split; [reflexivity|]);
    unfold trace; cbn [log g_error_msg g_ort rev app];
    rewrite ?rev_app_distr, ?rev_involutive, <- ?app_assoc;
    cbn [app]; repeat split.
Qed.

(** Shutdown leaves the runtime uninitialised. *)
Lemma cleanup_uninitializes w0 w :
  onnx_cleanup w0 = Done tt w -> uninitialized w.
Proof.
  destruct w0 as [p go ge em fr lg]. unfold onnx_cleanup. exec.
  destruct ge as [e|], go as [ort|]; exec; intros [= <-]; split; reflexivity.
Qed.

(** C6. While the runtime is uninitialised, that is before any [onnx_init]
    or after [onnx_cleanup], each of [onnx_run_vad], [onnx_run_asr] and
    [onnx_run_speaker] returns -1 with the last-error string set, and
    [onnx_create_session] returns [NULL] with the last-error string set; none
    of them faults, whatever pointers it is given, none touches a caller
    buffer and none acquires anything. *)
Theorem uninitialized_calls_fail w :
  (exists p, w = initial_world p) \/ (exists w0, onnx_cleanup w0 = Done tt w) ->
  uninitialized w
  /\ (forall sp audio audio_len h_in c_in prob_out h_out c_out,
        exists w',
          onnx_run_vad sp audio audio_len h_in c_in prob_out h_out c_out w
          = Done (mkVad (-1) prob_out h_out c_out) w'
          /\ g_error_msg w' = "Invalid session"%string
          /\ trace w' = trace w)
  /\ (forall sp mel_lfr frames features logits_out max_output_size,
        exists w',
          onnx_run_asr sp mel_lfr frames features logits_out max_output_size w
          = Done (-1, logits_out) w'
          /\ g_error_msg w' = "Invalid session"%string
          /\ trace w' = trace w)
  /\ (forall sp fbank frames embedding_out,
        exists w',
          onnx_run_speaker sp fbank frames embedding_out w
          = Done (-1, embedding_out) w'
          /\ g_error_msg w' = "Invalid session"%string
          /\ trace w' = trace w)
  /\ (forall model_path,
        exists w',
          onnx_create_session model_path w = Done None w'
          /\ g_error_msg w' = "ONNX Runtime not initialized"%string
          /\ trace w' = trace w).
Proof.
  intros Hw.
  assert (Hun : uninitialized w).
  { destruct Hw as [[p ->] | [w0 Hw0]];
      [split; reflexivity | exact (cleanup_uninitializes w0 w Hw0)]. }
  split; [exact Hun|]. destruct Hun as [Hort Henv].
  destruct w as [p go ge em fr lg]. cbn in Hort, Henv. subst go ge.
  repeat split; intros.
  - unfold onnx_run_vad. exec. destruct sp as [[blk sess]|]; exec;
      eexists; repeat split.
  - unfold onnx_run_asr. exec. destruct sp as [[blk sess]|]; exec;
      eexists; repeat split.
  - unfold onnx_run_speaker. exec. destruct sp as [[blk sess]|]; exec;
      eexists; repeat split.
  - unfold onnx_create_session. exec. eexists; repeat split.
Qed.

(** *** Concrete runs *)

(** The sample session and world are what [onnx_init] followed by
    [onnx_create_session] produce on a sample platform. *)
Example sample_world_reached run :
  (onnx_init ;; onnx_create_session (Some "model.onnx"%string))%wrapper
    (initial_world (sample_platform (sample_api run)))
  = Done sample_handle (sample_world (sample_api run)).
Proof. reflexivity. Qed.

(** The comparison [(int)output_size <= max_output_size] sees the element
    count only after its conversion to [int]: an output of 65536 * 32768 =
    2^31 elements passes the check against any capacity, and the call
    returns the converted count. *)
Example asr_count_converted_to_int :
  exists w',
    onnx_run_asr sample_handle (Some [1; 2]) 1 2 None 2147483647
      (sample_world
         (sample_api (constant_output (Some (mkOut [65536; 32768] None)))))
    = Done (-2147483648, None) w'
    /\ g_error_msg w' = EmptyString.
Proof. eexists. split; vm_compute; reflexivity. Qed.

(** The three exit paths of [onnx_run_vad] that follow the allocation of the
    state buffer, on the sample world (next handle 9): what is acquired and
    released, in order. *)
Example vad_exit_success :
  exists r w',
    onnx_run_vad sample_handle (Some [0; 0]) 2
                 (Some (constant_state 1)) (Some (constant_state 2))
                 (Some 0) None None
                 (sample_world (sample_api (echo_state 7)))
    = Done r w'
    /\ vad_rc r = 0 /\ vad_prob r = Some 7
    /\ trace w'
       = trace (sample_world (sample_api (echo_state 7)))
         ++ [ Acquire KMemoryInfo 9%nat; Acquire KValue 10%nat;
              Acquire KHeap 11%nat; Acquire KValue 12%nat;
              Acquire KValue 13%nat; Acquire KValue 14%nat;
              Acquire KValue 15%nat; Release KValue 14%nat;
              Release KValue 15%nat; Release KHeap 11%nat;
              Release KValue 10%nat; Release KValue 12%nat;
              Release KValue 13%nat; Release KMemoryInfo 9%nat ].
Proof. do 2 eexists. split; [vm_compute; reflexivity|]. repeat split. Qed.

Example vad_exit_state_tensor_failure :
  exists r w',
    onnx_run_vad sample_handle (Some [0; 0]) 2
                 (Some (constant_state 1)) (Some (constant_state 2))
                 (Some 0) None None
                 (sample_world (sample_api_with reject_rank3 (echo_state 7)))
    = Done r w'
    /\ vad_rc r = -1 /\ vad_prob r = Some 0
    /\ g_error_msg w' = "invalid tensor"%string
    /\ trace w'
       = trace (sample_world (sample_api_with reject_rank3 (echo_state 7)))
         ++ [ Acquire KMemoryInfo 9%nat; Acquire KValue 10%nat;
              Acquire KHeap 11%nat; Acquire KStatus 12%nat;
              Release KHeap 11%nat; Release KStatus 12%nat;
              Release KValue 10%nat; Release KMemoryInfo 9%nat ].
Proof. do 2 eexists. split; [vm_compute; reflexivity|]. repeat split. Qed.

Example vad_exit_run_failure :
  exists r w',
    onnx_run_vad sample_handle (Some [0; 0]) 2
                 (Some (constant_state 1)) (Some (constant_state 2))
                 (Some 0) None None
                 (sample_world (sample_api failing_run))
    = Done r w'
    /\ vad_rc r = -1 /\ vad_prob r = Some 0
    /\ g_error_msg w' = "graph execution failed"%string
    /\ trace w'
       = trace (sample_world (sample_api failing_run))
         ++ [ Acquire KMemoryInfo 9%nat; Acquire KValue 10%nat;
              Acquire KHeap 11%nat; Acquire KValue 12%nat;
              Acquire KValue 13%nat; Acquire KStatus 14%nat;
              Release KHeap 11%nat; Release KStatus 14%nat;
              Release KValue 10%nat; Release KValue 12%nat;
              Release KValue 13%nat; Release KMemoryInfo 9%nat ].
Proof. do 2 eexists. split; [vm_compute; reflexivity|]. repeat split. Qed.

(** The hypotheses of C1 hold for a graph that hands the state through: the
    caller gets its own pair back. *)
Lemma vad_state_round_trip_witness :
  exists r w',
    onnx_run_vad sample_handle (Some [0; 0]) 2
                 (Some (constant_state 1)) (Some (constant_state 2))
                 (Some 0) (Some (constant_state 0)) (Some (constant_state 0))
                 (sample_world (sample_api (echo_state 7)))
    = Done r w'
    /\ vad_rc r = 0
    /\ vad_h r = Some (constant_state 1)
    /\ vad_c r = Some (constant_state 2).
Proof.
  destruct (vad_state_round_trip
              (sample_world (sample_api (echo_state 7)))
              2%nat sample_session (sample_api (echo_state 7))
              (Some [0; 0]) 2 (constant_state 1) (constant_state 2) (Some 0)
              (constant_state 0) (constant_state 0)
              (mkOut [] (Some [7]))
              (mkOut [2; 1; 128] (Some (constant_state 1 ++ constant_state 2)))
              []
              (constant_state 1 ++ constant_state 2))
    as (_ & _ & r & w' & Hrun & Hrc & _ & _ & Hecho).
  - reflexivity.
  - intros h. reflexivity.
  - reflexivity.
  - reflexivity.
  - reflexivity.
  - reflexivity.
  - reflexivity.
  - intros t. reflexivity.
  - reflexivity.
  - intros b Hb. injection Hb as <-. simpl. lia.
  - reflexivity.
  - simpl. lia.
  - exists r, w'. destruct (Hecho eq_refl) as [Hh Hc].
    split; [exact Hrun|]. split; [exact Hrc|]. split; assumption.
Defined.

(** The hypotheses of the amended C2 hold for an output of shape
    [(1, 2, 3)] and a buffer declared with 8 elements. *)
Lemma asr_returns_element_count_witness :
  exists rc logits' w',
    onnx_run_asr sample_handle (Some [1; 2]) 1 2
                 (Some [0; 0; 0; 0; 0; 0; 0; 0]) 8
                 (sample_world
                    (sample_api
                       (constant_output
                          (Some (mkOut [1; 2; 3]
                                       (Some [11; 12; 13; 14; 15; 16]))))))
    = Done (rc, logits') w'
    /\ rc = 6
    /\ logits' = Some [11; 12; 13; 14; 15; 16; 0; 0]
    /\ g_error_msg w' = EmptyString.
Proof.
  destruct (asr_returns_element_count
              (sample_world
                 (sample_api
                    (constant_output
                       (Some (mkOut [1; 2; 3]
                                    (Some [11; 12; 13; 14; 15; 16]))))))
              2%nat sample_session
              (sample_api
                 (constant_output
                    (Some (mkOut [1; 2; 3] (Some [11; 12; 13; 14; 15; 16])))))
              (Some [1; 2]) 1 2 (Some [0; 0; 0; 0; 0; 0; 0; 0]) 8
              5%nat (Some (7%nat, "in"%string)) []
              6%nat (Some (8%nat, "out"%string)) []
              [1; 2; 3] (Some [11; 12; 13; 14; 15; 16]) [])
    as (rc & logits' & w' & Hrun & Hfit & _).
  - reflexivity.
  - intros h. reflexivity.
  - reflexivity.
  - reflexivity.
  - reflexivity.
  - reflexivity.
  - reflexivity.
  - simpl. lia.
  - intros b Hb. injection Hb as <-. simpl. lia.
  - intros b Hb. injection Hb as <-. simpl. lia.
  - exists rc, logits', w'. split; [exact Hrun|].
    destruct Hfit as (Hrc & Hlog & Hmsg); [simpl; lia|].
    split; [exact Hrc|]. split; [exact Hlog | exact Hmsg].
Defined.

(** The hypothesis of the amended C3 holds for a freshly created session. *)
Lemma destroy_session_order_witness :
  exists w',
    onnx_destroy_session sample_handle (sample_world (sample_api failing_run))
    = Done tt w'
    /\ trace w'
       = trace (sample_world (sample_api failing_run))
         ++ [ Release KName 7%nat; Release KHeap 5%nat;
              Release KName 8%nat; Release KHeap 6%nat;
              Release KSession 4%nat; Release KSessionOptions 3%nat;
              Release KHeap 2%nat ].
Proof.
  destruct (destroy_session_order
              (sample_world (sample_api failing_run)) sample_handle)
    as (w' & Hrun & Htr & _).
  - intros block sess Hsp. injection Hsp as <- <-. split.
    + intros blk slots Hn. injection Hn as <- <-. reflexivity.
    + intros blk slots Hn. injection Hn as <- <-. reflexivity.
  - exists w'. split; [exact Hrun | exact Htr].
Defined.

(** The hypotheses of C5 hold for an output tensor of 600 elements: 512 of
    them are copied and the call returns 0. *)
Lemma speaker_copies_512_unchecked_witness :
  exists w',
    onnx_run_speaker sample_handle (Some (repeat 0 24)) 1
                     (Some (repeat 0 512))
                     (sample_world
                        (sample_api
                           (constant_output
                              (Some (mkOut [1; 1; 600]
                                           (Some (repeat 3 600)))))))
    = Done (0, Some (repeat 3 512)) w'.
Proof.
  destruct (speaker_copies_512_unchecked
              (sample_world
                 (sample_api
                    (constant_output
                       (Some (mkOut [1; 1; 600] (Some (repeat 3 600)))))))
              2%nat sample_session
              (sample_api
                 (constant_output
                    (Some (mkOut [1; 1; 600] (Some (repeat 3 600))))))
              (Some (repeat 0 24)) 1 (repeat 0 512)
              5%nat (Some (7%nat, "in"%string)) []
              6%nat (Some (8%nat, "out"%string)) []
              [1; 1; 600] (repeat 3 600) [])
    as (Hcopy & _).
  - reflexivity.
  - reflexivity.
  - reflexivity.
  - reflexivity.
  - reflexivity.
  - reflexivity.
  - simpl. lia.
  - destruct Hcopy as (w' & Hrun & _); [simpl; lia|].
    exists w'. exact Hrun.
Defined.

(** The hypothesis of C6 holds in the world before any [onnx_init]. *)
Lemma uninitialized_calls_fail_witness :
  exists w',
    onnx_run_vad sample_handle None 0 None None None None None
                 (initial_world (sample_platform (sample_api failing_run)))
    = Done (mkVad (-1) None None None) w'
    /\ g_error_msg w' = "Invalid session"%string.
Proof.
  destruct (uninitialized_calls_fail
              (initial_world (sample_platform (sample_api failing_run))))
    as (_ & Hvad & _).
  - left. exists (sample_platform (sample_api failing_run)). reflexivity.
  - destruct (Hvad sample_handle None 0 None None None None None)
      as (w' & Hrun & Hmsg & _).
    exists w'. split; [exact Hrun | exact Hmsg].
Defined.

(** The hypotheses of C7 hold for a call that only wants [h_out]. *)
Lemma vad_null_outputs_are_skipped_witness :
  exists r w',
    onnx_run_vad sample_handle (Some [0; 0]) 2
                 (Some (constant_state 1)) (Some (constant_state 2))
                 None (Some (constant_state 0)) None
                 (sample_world (sample_api (echo_state 7)))
    = Done r w'
    /\ vad_rc r = 0
    /\ vad_prob r = None
    /\ vad_h r = Some (constant_state 1)
    /\ vad_c r = None.
Proof.
  destruct (vad_null_outputs_are_skipped
              (sample_world (sample_api (echo_state 7)))
              2%nat sample_session (sample_api (echo_state 7))
              (Some [0; 0]) 2 (constant_state 1) (constant_state 2)
              None (Some (constant_state 0)) None
              (mkOut [] (Some [7]))
              (mkOut [2; 1; 128] (Some (constant_state 1 ++ constant_state 2)))
              [] [7] (constant_state 1 ++ constant_state 2))
    as (r & w' & Hrun & Hrc & Hp & Hh & Hc).
  - reflexivity.
  - intros h. reflexivity.
  - simpl. lia.
  - simpl. lia.
  - intros b Hb. injection Hb as <-. simpl. lia.
  - intros b Hb. discriminate Hb.
  - reflexivity.
  - intros t. reflexivity.
  - reflexivity.
  - reflexivity.
  - simpl. lia.
  - reflexivity.
  - simpl. lia.
  - exists r, w'. split; [exact Hrun|]. split; [exact Hrc|].
    split; [exact Hp|]. split; [exact Hh | exact Hc].
Defined.

(** The hypotheses of C10 hold for a runtime with an embedding graph and a
    VAD graph and a caller that passes no output pointer. *)
Lemma speaker_null_output_fails_silently_witness :
  (exists w',
      onnx_run_speaker sample_handle (Some (repeat 0 24)) 1 None
        (sample_world
           (sample_api
              (embed_or_echo
                 (Some (mkOut [1; 1; 512] (Some (repeat 3 512)))) 7)))
      = Done (-1, None) w'
      /\ g_error_msg w' = EmptyString)
  /\ (exists r w',
         onnx_run_vad sample_handle (Some [0; 0]) 2
           (Some (constant_state 1)) (Some (constant_state 2))
           None None None
           (sample_world
              (sample_api
                 (embed_or_echo
                    (Some (mkOut [1; 1; 512] (Some (repeat 3 512)))) 7)))
         = Done r w'
         /\ vad_rc r = 0).
Proof.
  destruct (speaker_null_output_fails_silently
              (sample_world
                 (sample_api
                    (embed_or_echo
                       (Some (mkOut [1; 1; 512] (Some (repeat 3 512)))) 7)))
              (sample_api
                 (embed_or_echo
                    (Some (mkOut [1; 1; 512] (Some (repeat 3 512)))) 7))
              2%nat sample_session (Some (repeat 0 24)) 1 None
              5%nat (Some (7%nat, "in"%string)) []
              6%nat (Some (8%nat, "out"%string)) []
              (mkOut [1; 1; 512] (Some (repeat 3 512))) []
              2%nat sample_session (Some [0; 0]) 2
              (constant_state 1) (constant_state 2)
              (mkOut [] (Some [7]))
              (mkOut [2; 1; 128] (Some (constant_state 1 ++ constant_state 2)))
              [])
    as (Hspeaker & r & w' & Hvad & Hrc & _).
  - reflexivity.
  - intros h. reflexivity.
  - reflexivity.
  - intros t. reflexivity.
  - reflexivity.
  - reflexivity.
  - reflexivity.
  - left. reflexivity.
  - simpl. lia.
  - simpl. lia.
  - reflexivity.
  - intros b Hb. injection Hb as <-. simpl. lia.
  - intros b Hb. injection Hb as <-. simpl. lia.
  - split; [exact Hspeaker|]. exists r, w'. split; [exact Hvad | exact Hrc].
Defined.

(** C2 as it is written does not hold: after a successful graph execution
    with an output of 2 * 3 elements and [max_output_size = 10], a caller
    that passes [logits_out = NULL] gets the element count 6 back, yet no
    float is copied. *)
Lemma asr_counts_without_copying :
  (exists w',
      onnx_run_asr sample_handle (Some [1; 2]) 1 2 None 10
        (sample_world
           (sample_api
              (constant_output
                 (Some (mkOut [2; 3] (Some [1; 2; 3; 4; 5; 6]))))))
      = Done (6, None) w')
  /\ ~ (exists w' b,
          onnx_run_asr sample_handle (Some [1; 2]) 1 2 None 10
            (sample_world
               (sample_api
                  (constant_output
                     (Some (mkOut [2; 3] (Some [1; 2; 3; 4; 5; 6]))))))
          = Done (6, Some b) w').
Proof.
  split.
  - eexists. vm_compute. reflexivity.
  - intros (w' & b & Hrun). vm_compute in Hrun. discriminate Hrun.
Qed.

(** C3 as it is written does not hold: for a freshly created session the
    graph (session) object is released before the execution-configuration
    (session options) object, not after it. *)
Lemma destroy_releases_graph_before_options :
  exists w',
    onnx_destroy_session sample_handle (sample_world (sample_api failing_run))
    = Done tt w'
    /\ trace w'
       = trace (sample_world (sample_api failing_run))
         ++ [ Release KName 7%nat; Release KHeap 5%nat;
              Release KName 8%nat; Release KHeap 6%nat;
              Release KSession 4%nat; Release KSessionOptions 3%nat;
              Release KHeap 2%nat ]
    /\ occurs_before event_eqb (Release KSessionOptions 3%nat)
                     (Release KSession 4%nat) (trace w') = false
    /\ occurs_before event_eqb (Release KSession 4%nat)
                     (Release KSessionOptions 3%nat) (trace w') = true.
Proof.
  eexists. split; [vm_compute; reflexivity|]. repeat split.
Qed.

End OnnxWrapperFacts.

(** * Further properties *)

(** ** copyhelper.c: the contiguous copies and how the copies compose *)

Module CopyHelperMore.
Import MachInt Buffer CopyHelper MachIntFacts BufferFacts CopyHelperFacts.

Section MoreCopy.
Context {A : Type}.
Implicit Types (src dst ml : list A).

(** The three contiguous copies are one [memcpy] of [count] floats. *)
Lemma copy_floats_eq src dst count :
  addressable src ->
  0 <= count ->
  count <= Z.of_nat (length src) -> count <= Z.of_nat (length dst) ->
  copy_floats src dst count
  = Some (firstn (Z.to_nat count) src ++ skipn (Z.to_nat count) dst).
Proof.
  unfold addressable, sizeof_float. intros Ha Hc Hs Hd.
  unfold copy_floats. rewrite to_size_small by (unfold sizeof_float; lia).
  rewrite memcpy_eq by lia. rewrite Z.add_0_l. reflexivity.
Qed.

(** X1. Copying [count] floats into an array with [copy_floats_to_mlarray]
    and reading them back with [copy_mlarray_to_floats] gives the
    destination what a direct [copy_floats] gives it: the first [count]
    source floats followed by the destination's own tail.  The intermediate
    array keeps its length. *)
Theorem copy_mlarray_round_trip src ml dst count :
  addressable src -> addressable ml ->
  0 <= count ->
  count <= Z.of_nat (length src) ->
  count <= Z.of_nat (length ml) ->
  count <= Z.of_nat (length dst) ->
  exists ml',
    copy_floats_to_mlarray src ml count = Some ml'
    /\ length ml' = length ml
    /\ copy_mlarray_to_floats ml' dst count = copy_floats src dst count
    /\ copy_floats src dst count
       = Some (firstn (Z.to_nat count) src ++ skipn (Z.to_nat count) dst).
Proof.
  intros Hsa Hma Hc Hs Hm Hd.
  pose proof (copy_floats_eq src ml count Hsa Hc Hs Hm) as Hto.
  pose proof (copy_floats_eq src dst count Hsa Hc Hs Hd) as Hdirect.
  set (ml' := firstn (Z.to_nat count) src ++ skipn (Z.to_nat count) ml) in *.
  assert (Hlen : length ml' = length ml).
  { unfold ml'. rewrite length_app, length_firstn, length_skipn. lia. }
  exists ml'. split; [exact Hto|]. split; [exact Hlen|]. split; [|exact Hdirect].
  rewrite Hdirect.
  change (copy_mlarray_to_floats ml' dst count) with (copy_floats ml' dst count).
  rewrite copy_floats_eq; try lia.
  - do 2 f_equal. unfold ml'. rewrite firstn_app, firstn_firstn, Nat.min_id.
    rewrite length_firstn.
    replace (Z.to_nat count - Nat.min (Z.to_nat count) (length src))%nat
      with 0%nat by lia.
    now rewrite firstn_O, app_nil_r.
  - unfold addressable in *. rewrite Hlen. exact Hma.
Qed.

(** X2. For a tensor with one column, [copy_2d_output] is the strided
    gather: it leaves the destination [copy_strided_to_contiguous] leaves
    for the same [time] and pitch, on the bulk path ([stride1 = 1]) and on
    the row path alike, and returns [time]. *)
Theorem copy_2d_output_one_column src dst time stride1 :
  addressable src -> addressable dst ->
  0 <= time <= Z.of_nat (length dst) ->
  0 <= stride1 ->
  (forall t, 0 <= t < time -> t * stride1 < Z.of_nat (length src)) ->
  exists d,
    copy_strided_to_contiguous src dst time stride1 = Some d
    /\ copy_2d_output src dst time 1 stride1 = Some (d, time).
Proof.
  intros Hsa Hda Ht Hs Hrd.
  destruct (strided_loop_spec src stride1 (Z.to_nat time) Hsa 0 dst)
    as (d & Hrun & Hlen & Hset & Hframe);
    rewrite ?Z2Nat.id by lia; try lia.
  { intros k Hk. split; [nia | apply Hrd; lia]. }
  rewrite Z2Nat.id in Hset, Hframe by lia.
  destruct (copy_rows_spec src 1 stride1 (Z.to_nat time) Hsa
              ltac:(lia) Hs 0 dst)
    as (d2 & Hrows & Hlen2 & Hset2 & Hframe2);
    rewrite ?Z2Nat.id by lia; try assumption; try lia.
  { intros r Hr. specialize (Hrd r ltac:(lia)). lia. }
  rewrite Z2Nat.id in Hset2, Hframe2 by lia.
  assert (Heq : d2 = d).
  { apply get_ext. intros i Hi.
    destruct (Z_lt_le_dec i time) as [Hin | Hout].
    - rewrite Hset by lia.
      replace i with (i * 1 + 0) at 1 by lia.
      rewrite Hset2 by lia. f_equal. lia.
    - rewrite Hframe by lia. apply Hframe2. lia. }
  subst d2. exists d. split; [exact Hrun|].
  assert (Hret : to_size (time * 1) = time).
  { rewrite Z.mul_1_r. apply to_size_small.
    unfold addressable, sizeof_float in Hda. lia. }
  unfold copy_2d_output. destruct (Z.eqb_spec stride1 1) as [-> | Hne].
  - rewrite <- copy_rows_contiguous; try assumption; try lia.
    + rewrite Hrows, Hret. reflexivity.
    + destruct (Z.eq_dec time 0) as [-> | Hnz]; [lia|].
      specialize (Hrd (time - 1) ltac:(lia)). lia.
  - rewrite Hrows, Hret. reflexivity.
Qed.

(** The byte count of [count] floats, taken in [size_t], only depends on
    [count] modulo 2^62. *)
Lemma byte_count_mod count :
  to_size (count * sizeof_float) = (count mod 2 ^ 62) * sizeof_float.
Proof.
  unfold to_size, size_modulus, sizeof_float.
  change (2 ^ 64) with (2 ^ 62 * 4).
  rewrite Z.mul_mod_distr_r by lia. reflexivity.
Qed.

(** X19. The copies compute their byte count in [size_t], where it wraps:
    a request for [count] floats copies [count mod 2^62] floats.  So
    [copy_floats] with a count of 2^62 copies nothing, and on its
    single-[memcpy] path [copy_2d_output] copies [(time * vocab) mod 2^62]
    floats while it returns [(time * vocab) mod 2^64], which is more than it
    copied as soon as the product reaches 2^62. *)
Theorem byte_count_wraps src dst count time vocab :
  copy_floats src dst count = copy_floats src dst (count mod 2 ^ 62)
  /\ copy_floats src dst (2 ^ 62) = Some dst
  /\ copy_2d_output src dst time vocab vocab
     = option_map (fun dst' => (dst', (time * vocab) mod 2 ^ 64))
                  (copy_floats src dst ((time * vocab) mod 2 ^ 62)).
Proof.
  assert (Hwrap : forall c,
             copy_floats src dst c = copy_floats src dst (c mod 2 ^ 62)).
  { intros c. unfold copy_floats. rewrite !byte_count_mod.
    rewrite Z.mod_mod by lia. reflexivity. }
  split; [apply Hwrap|]. split.
  - rewrite Hwrap. rewrite Z.mod_same by lia. unfold copy_floats, memcpy.
    cbn.
    destruct (Z.leb_spec 0 (Z.of_nat (length dst))); [|lia].
    destruct (Z.leb_spec 0 (Z.of_nat (length src))); [|lia].
    reflexivity.
  - unfold copy_2d_output. rewrite Z.eqb_refl. unfold copy_bulk, copy_floats.
    rewrite byte_count_mod. rewrite byte_count_mod.
    unfold to_size at 1, size_modulus.
    replace ((time * vocab) mod 2 ^ 64 mod 2 ^ 62)
      with ((time * vocab) mod 2 ^ 62).
    2:{ symmetry. apply Z.mod_mod_divide. now exists 4. }
    rewrite Z.mod_mod by lia.
    destruct (memcpy dst 0 src 0 _); reflexivity.
Qed.

End MoreCopy.

(** The hypotheses of X1 hold for three floats going through an array of
    four. *)
Lemma copy_mlarray_round_trip_witness :
  exists ml',
    copy_floats_to_mlarray [1; 2; 3; 4] [0; 0; 0; 0] 3 = Some ml'
    /\ length ml' = length [0; 0; 0; 0]
    /\ copy_mlarray_to_floats ml' [9; 9; 9; 9; 9] 3
       = copy_floats [1; 2; 3; 4] [9; 9; 9; 9; 9] 3
    /\ copy_floats [1; 2; 3; 4] [9; 9; 9; 9; 9] 3
       = Some (firstn (Z.to_nat 3) [1; 2; 3; 4]
               ++ skipn (Z.to_nat 3) [9; 9; 9; 9; 9]).
Proof.
  apply (copy_mlarray_round_trip [1; 2; 3; 4] [0; 0; 0; 0] [9; 9; 9; 9; 9] 3).
  - reflexivity.
  - reflexivity.
  - lia.
  - simpl. lia.
  - simpl. lia.
  - simpl. lia.
Defined.

(** The hypotheses of X2 hold for three rows of one column at pitch 2. *)
Lemma copy_2d_output_one_column_witness :
  exists d,
    copy_strided_to_contiguous [10; 11; 12; 13; 14; 15] [0; 0; 0; 0] 3 2
    = Some d
    /\ copy_2d_output [10; 11; 12; 13; 14; 15] [0; 0; 0; 0] 3 1 2
       = Some (d, 3).
Proof.
  apply (copy_2d_output_one_column [10; 11; 12; 13; 14; 15] [0; 0; 0; 0] 3 2).
  - reflexivity.
  - reflexivity.
  - simpl. lia.
  - lia.
  - simpl. lia.
Defined.

End CopyHelperMore.

(** ** onnx_wrapper.c: error string, environment, sessions, inference *)

Module OnnxWrapperMore.
Import MachInt Buffer OnnxWrapper MachIntFacts BufferFacts OnnxWrapperFacts.
Import OnnxWrapperSpec.

(** What [strncpy] with a bound of [m] characters keeps of a string. *)
Lemma substring_length m : forall s,
  (String.length (substring 0 m s) <= m)%nat.
Proof.
  induction m as [|m IH]; intros s.
  - destruct s; simpl; lia.
  - destruct s as [|c s]; simpl; [lia|]. specialize (IH s). lia.
Qed.

Lemma substring_short m : forall s,
  (String.length s <= m)%nat -> substring 0 m s = s.
Proof.
  induction m as [|m IH]; intros s Hs.
  - destruct s; simpl in *; [reflexivity | lia].
  - destruct s as [|c s]; simpl in *; [reflexivity|].
    rewrite IH by lia. reflexivity.
Qed.

Lemma substring_prefix m : forall s,
  prefix (substring 0 m s) s = true.
Proof.
  induction m as [|m IH]; intros s.
  - destruct s; reflexivity.
  - destruct s as [|c s]; simpl; [reflexivity|].
    destruct (Ascii.ascii_dec c c) as [_ | Hne]; [apply IH | now elim Hne].
Qed.

(** X3. [set_error] stores a prefix of the message that is at most 255
    characters long, the whole message when that has at most 255 characters,
    and changes nothing else: not the runtime, not the history. *)
Theorem set_error_stores_prefix msg w :
  exists w',
    set_error msg w = Done tt w'
    /\ (String.length (g_error_msg w') <= 255)%nat
    /\ prefix (g_error_msg w') msg = true
    /\ ((String.length msg <= 255)%nat -> g_error_msg w' = msg)
    /\ same_runtime w w'
    /\ trace w' = trace w.
Proof.
  eexists. split; [reflexivity|]. cbn [g_error_msg].
  split; [apply substring_length|]. split; [apply substring_prefix|].
  split; [apply substring_short|]. split; [|reflexivity].
  repeat split.
Qed.

#[local] Instance same_runtime_preorder : PreOrder same_runtime.
Proof.
  split.
  - intros w. repeat split.
  - intros a b c (H1 & H2 & H3) (H4 & H5 & H6). repeat split; congruence.
Qed.

#[local] Instance message_fits_preorder : PreOrder message_fits.
Proof.
  split.
  - intros w H. exact H.
  - intros a b c H1 H2 H. auto.
Qed.

(** Relations that every step of the wrapper maintains. *)
Section Steady.
Context (rel : world -> world -> Prop) `{!PreOrder rel}.

(** [rel] holds across each primitive step of the wrapper: a release, a
    line printed, an acquisition, a message stored. *)
Hypothesis rel_release : forall k h, steady rel (emit (Release k h)).
Hypothesis rel_printf : forall msg, steady rel (emit (Printf msg)).
Hypothesis rel_new : forall k, steady rel (new_handle k).
Hypothesis rel_error : forall msg, steady rel (set_error msg).

Lemma steady_ret {R} (r : R) : steady rel (ret r).
Proof. intros w r' w' [= <- <-]. reflexivity. Qed.

Lemma steady_fault {R} : steady rel (@fault R).
Proof. intros w r w' H. discriminate H. Qed.

Lemma steady_bind {R S} (m : M R) (k : R -> M S) :
  steady rel m -> (forall r, steady rel (k r)) -> steady rel (bind m k).
Proof.
  intros Hm Hk w s w' H. unfold bind in H.
  destruct (m w) as [|r w1] eqn:E; [discriminate|].
  transitivity w1; [exact (Hm _ _ _ E) | exact (Hk _ _ _ _ H)].
Qed.

Lemma steady_lift {R} (o : option R) : steady rel (lift o).
Proof. destruct o; [apply steady_ret | apply steady_fault]. Qed.

Lemma steady_get_world : steady rel get_world.
Proof. intros w r w' [= <- <-]. reflexivity. Qed.

(** Splits a computation into its steps. *)
Ltac steady_tac :=
  repeat first
    [ apply steady_ret | apply steady_fault | apply steady_lift
    | apply steady_get_world | apply rel_release | apply rel_printf
    | apply rel_new | apply rel_error
    | apply steady_bind; [|intros ?]
    | match goal with
      | |- steady _ (match ?x with _ => _ end) => destruct x
      end
    | progress unfold release, free, ort_create, malloc, set_ort_error,
        discard ].

Lemma steady_release_each k ps : steady rel (release_each k ps).
Proof.
  induction ps as [|[h|] ps IH]; cbn [release_each]; steady_tac; exact IH.
Qed.

Lemma steady_adopt_outputs n : forall outs, steady rel (adopt_outputs n outs).
Proof.
  induction n as [|n IH]; intros outs; cbn [adopt_outputs]; steady_tac.
  apply IH.
Qed.

Lemma steady_free_names alloc slots k : forall i,
  steady rel (free_names k i slots alloc).
Proof.
  induction k as [|k IH]; intros i; cbn [free_names]; steady_tac; apply IH.
Qed.

Lemma steady_fetch_names get_name k : forall i names,
  steady rel (fetch_names get_name k i names).
Proof.
  induction k as [|k IH]; intros i names; cbn [fetch_names]; steady_tac;
    apply IH.
Qed.

(** The same, through the helpers of the calls. *)
Ltac steady_all :=
  repeat first
    [ apply steady_release_each | apply steady_adopt_outputs
    | apply steady_free_names | apply steady_fetch_names
    | apply steady_ret | apply steady_fault | apply steady_lift
    | apply steady_get_world | apply rel_release | apply rel_printf
    | apply rel_new | apply rel_error
    | apply steady_bind; [|intros ?]
    | match goal with
      | |- steady _ (match ?x with _ => _ end) => destruct x
      end
    | progress unfold release, free, ort_create, malloc, set_ort_error,
        pack_state, unpack_state, vad_cleanup, ort_run,
        GetTensorMutableData, mutable_data, type_and_shape,
        dimensions_count, dimensions, fetch_count, discard,
        first_name, asr_extract, speaker_extract,
        destroy_names, calloc_names ].

Lemma steady_run_vad sp audio audio_len h_in c_in prob_out h_out c_out :
  steady rel (onnx_run_vad sp audio audio_len h_in c_in prob_out h_out c_out).
Proof. unfold onnx_run_vad. steady_all. Qed.

Lemma steady_run_asr sp mel frames features logits_out max_output_size :
  steady rel (onnx_run_asr sp mel frames features logits_out max_output_size).
Proof. unfold onnx_run_asr. steady_all. Qed.

Lemma steady_run_speaker sp fbank frames embedding_out :
  steady rel (onnx_run_speaker sp fbank frames embedding_out).
Proof. unfold onnx_run_speaker. steady_all. Qed.

Lemma steady_create_session path : steady rel (onnx_create_session path).
Proof. unfold onnx_create_session. steady_all. Qed.

Lemma steady_destroy_session sp : steady rel (onnx_destroy_session sp).
Proof. unfold onnx_destroy_session. steady_all. Qed.

End Steady.

(** No primitive step touches the runtime. *)
Lemma same_runtime_release k h : steady same_runtime (emit (Release k h)).
Proof. intros w r w' [= _ <-]. repeat split. Qed.

Lemma same_runtime_printf msg : steady same_runtime (emit (Printf msg)).
Proof. intros w r w' [= _ <-]. repeat split. Qed.

Lemma same_runtime_new k : steady same_runtime (new_handle k).
Proof. intros w r w' [= _ <-]. repeat split. Qed.

Lemma same_runtime_error msg : steady same_runtime (set_error msg).
Proof. intros w r w' [= _ <-]. repeat split. Qed.

(** X4. No session call and no inference call changes [g_ort], [g_env] or
    the platform: whatever [onnx_run_vad], [onnx_run_asr],
    [onnx_run_speaker], [onnx_create_session] and [onnx_destroy_session]
    return, and on whichever path, the runtime is as initialised afterwards
    as it was before. *)
Theorem calls_keep_runtime :
  (forall sp audio audio_len h_in c_in prob_out h_out c_out,
      steady same_runtime
        (onnx_run_vad sp audio audio_len h_in c_in prob_out h_out c_out))
  /\ (forall sp mel frames features logits_out max_output_size,
        steady same_runtime
          (onnx_run_asr sp mel frames features logits_out max_output_size))
  /\ (forall sp fbank frames embedding_out,
        steady same_runtime (onnx_run_speaker sp fbank frames embedding_out))
  /\ (forall path, steady same_runtime (onnx_create_session path))
  /\ (forall sp, steady same_runtime (onnx_destroy_session sp)).
Proof.
  pose proof same_runtime_release as Hrel.
  pose proof same_runtime_printf as Hprint.
  pose proof same_runtime_new as Hnew.
  pose proof same_runtime_error as Herr.
  split; [intros; apply steady_run_vad; solve [assumption | typeclasses eauto]|].
  split; [intros; apply steady_run_asr; solve [assumption | typeclasses eauto]|].
  split; [intros; apply steady_run_speaker; solve [assumption | typeclasses eauto]|].
  split; [intros; apply steady_create_session; solve [assumption | typeclasses eauto]|].
  intros; apply steady_destroy_session; solve [assumption | typeclasses eauto].
Qed.

(** Initialisation and shutdown keep the message within its buffer. *)
Lemma message_fits_init : steady message_fits onnx_init.
Proof.
  intros w rc w' H Hfit. destruct w as [p go ge em fr lg].
  unfold onnx_init in H. revert H. exec. destruct go as [ort|]; exec.
  - intros [= _ <-]. exact Hfit.
  - unfold bind at 1, set_g_ort at 1. cbn [host g_ort g_env g_error_msg fresh log].
    destruct (OrtGetApi p) as [ort|]; exec.
    + destruct (CreateEnv ort); exec; unfold bind, set_g_env, set_g_ort;
        cbn [new_handle set_error emit host g_ort g_env g_error_msg fresh log
             ret];
        intros [= _ <-]; cbn [g_error_msg];
        [exact Hfit | apply substring_length].
    + intros [= _ <-]. simpl. lia.
Qed.

Lemma message_fits_cleanup : steady message_fits onnx_cleanup.
Proof.
  intros w rc w' H Hfit. destruct w as [p go ge em fr lg].
  unfold onnx_cleanup in H. revert H. exec.
  destruct ge, go; exec; unfold bind, set_g_env, set_g_ort; cbn;
    intros [= _ <-] || intros [= <-]; exact Hfit.
Qed.

(** X5. The last-error string never outgrows its 256-byte buffer: it fits
    at start-up, and every call of the wrapper that finds it fitting leaves
    it fitting, whatever messages the runtime reports. *)
Theorem error_message_always_fits :
  (forall p, (String.length (g_error_msg (initial_world p)) <= 255)%nat)
  /\ steady message_fits onnx_init
  /\ steady message_fits onnx_cleanup
  /\ (forall path, steady message_fits (onnx_create_session path))
  /\ (forall sp, steady message_fits (onnx_destroy_session sp))
  /\ (forall sp audio audio_len h_in c_in prob_out h_out c_out,
        steady message_fits
          (onnx_run_vad sp audio audio_len h_in c_in prob_out h_out c_out))
  /\ (forall sp mel frames features logits_out max_output_size,
        steady message_fits
          (onnx_run_asr sp mel frames features logits_out max_output_size))
  /\ (forall sp fbank frames embedding_out,
        steady message_fits (onnx_run_speaker sp fbank frames embedding_out)).
Proof.
  assert (Hrel : forall k h, steady message_fits (emit (Release k h)))
    by (intros k h w r w' [= _ <-] H; exact H).
  assert (Hprint : forall msg, steady message_fits (emit (Printf msg)))
    by (intros msg w r w' [= _ <-] H; exact H).
  assert (Hnew : forall k, steady message_fits (new_handle k))
    by (intros k w r w' [= _ <-] H; exact H).
  assert (Herr : forall msg, steady message_fits (set_error msg))
    by (intros msg w r w' [= _ <-] _; apply substring_length).
  split; [intros p; simpl; lia|].
  split; [exact message_fits_init|]. split; [exact message_fits_cleanup|].
  split; [intros; apply steady_create_session; solve [assumption | typeclasses eauto]|].
  split; [intros; apply steady_destroy_session; solve [assumption | typeclasses eauto]|].
  split; [intros; apply steady_run_vad; solve [assumption | typeclasses eauto]|].
  split; [intros; apply steady_run_asr; solve [assumption | typeclasses eauto]|].
  intros; apply steady_run_speaker; solve [assumption | typeclasses eauto].
Qed.

(** X6. [onnx_init] on an initialised runtime returns 0 and changes
    nothing.  On an uninitialised one it either returns 0, with [g_ort] set
    to the API table, [g_env] to a newly acquired environment and the error
    string untouched, or it returns -1 with [g_ort] left [NULL], the error
    string set (to the runtime's message when the environment could not be
    created) and nothing left acquired. *)
Theorem init_outcomes w :
  exists rc w',
    onnx_init w = Done rc w'
    /\ (g_ort w <> None -> rc = 0 /\ w' = w)
    /\ (g_ort w = None ->
        (rc = 0
         /\ g_ort w' = OrtGetApi (host w) /\ g_ort w' <> None
         /\ g_env w' = Some (fresh w)
         /\ g_error_msg w' = g_error_msg w
         /\ trace w' = trace w ++ [Acquire KEnv (fresh w)])
        \/ (rc = -1
            /\ g_ort w' = None /\ g_env w' = g_env w
            /\ ((OrtGetApi (host w) = None
                 /\ g_error_msg w' = "Failed to get ONNX Runtime API"%string)
                \/ (exists ort msg,
                       OrtGetApi (host w) = Some ort
                       /\ CreateEnv ort = Failed msg
                       /\ g_error_msg w'
                          = substring 0 255
                              (match msg with
                               | Some m => m
                               | None => "Unknown ONNX error"%string
                               end)))
            /\ exists evs, trace w' = trace w ++ evs
                           /\ released_exactly_once evs)).
Proof.
  destruct w as [p go ge em fr lg]. unfold onnx_init. exec.
  destruct go as [ort|]; exec.
  - do 2 eexists. split; [reflexivity|]. split; [auto | discriminate].
  - unfold bind at 1, set_g_ort at 1.
    cbn [host g_ort g_env g_error_msg fresh log].
    destruct (OrtGetApi p) as [ort|] eqn:Eapi; exec.
    + destruct (CreateEnv ort) as [|msg] eqn:Eenv; exec;
        unfold bind, set_g_env, set_g_ort;
        cbn [new_handle set_error emit host g_ort g_env g_error_msg fresh log
             ret];
        do 2 eexists; (split; [reflexivity|]);
        (split; [intros H; now elim H|]); intros _.
      * left. cbn [g_ort g_env g_error_msg].
        repeat split; try discriminate; try trace_eq.
      * right. cbn [host g_ort g_env g_error_msg].
        do 3 (split; [reflexivity|]). split.
        -- right. exists ort, msg. repeat split; assumption || reflexivity.
        -- eexists. split; [trace_eq | settle_tac].
    + do 2 eexists. split; [reflexivity|].
      split; [intros H; now elim H|]. intros _. right.
      cbn [host g_ort g_env g_error_msg].
      do 3 (split; [reflexivity|]). split.
      * left. split; reflexivity.
      * exists []. split; [now rewrite app_nil_r | reflexivity].
Qed.

(** X7. [onnx_cleanup] on a consistent world releases the environment once
    if there is one, leaves the runtime uninitialised and the error string
    alone; a second [onnx_cleanup] changes nothing; and [onnx_init] works
    again afterwards whenever the runtime can create an environment. *)
Theorem cleanup_then_init w :
  env_consistent w ->
  exists w1,
    onnx_cleanup w = Done tt w1
    /\ uninitialized w1
    /\ g_error_msg w1 = g_error_msg w
    /\ trace w1 = trace w ++ match g_env w with
                             | Some env => [Release KEnv env]
                             | None => []
                             end
    /\ onnx_cleanup w1 = Done tt w1
    /\ (forall ort, OrtGetApi (host w) = Some ort -> CreateEnv ort = Ok ->
        exists w2,
          onnx_init w1 = Done 0 w2
          /\ initialized w2 ort
          /\ env_consistent w2).
Proof.
  intros Hcons. destruct w as [p go ge em fr lg].
  unfold onnx_cleanup. exec.
  destruct Hcons as [[Ho He] | (ort0 & env0 & Ho & He)];
    cbn [g_ort g_env] in Ho, He; subst go ge; exec;
    unfold bind, set_g_env, set_g_ort;
    cbn [emit host g_ort g_env g_error_msg fresh log];
    eexists; (split; [reflexivity|]);
    (split; [split; reflexivity|]); (split; [reflexivity|]);
    (split; [unfold trace; cbn [log rev]; rewrite ?app_nil_r; reflexivity|]);
    (split; [reflexivity|]);
    intros ort Hapi Henv; cbn [host] in Hapi;
    unfold onnx_init; exec; unfold bind at 1, set_g_ort at 1;
    cbn [host g_ort g_env g_error_msg fresh log]; rewrite Hapi; exec;
    rewrite Henv; exec; unfold bind, set_g_env;
    cbn [new_handle host g_ort g_env g_error_msg fresh log ret];
    eexists; (split; [reflexivity|]);
    (split; [reflexivity|]); right; do 2 eexists; split; reflexivity.
Qed.

(** X6 at start-up on a platform whose runtime works. *)
Lemma init_outcomes_witness :
  exists w',
    onnx_init (initial_world (sample_platform (sample_api failing_run)))
    = Done 0 w'
    /\ g_env w' = Some 1%nat.
Proof.
  destruct (init_outcomes
              (initial_world (sample_platform (sample_api failing_run))))
    as (rc & w' & Hrun & _ & Hfresh).
  destruct (Hfresh eq_refl)
    as [(-> & _ & _ & Henv & _) | (_ & Hort & _)].
  - exists w'. split; [exact Hrun | exact Henv].
  - vm_compute in Hrun. injection Hrun as _ <-. discriminate Hort.
Defined.

(** The hypothesis of X7 holds for a world with a session loaded. *)
Lemma cleanup_then_init_witness :
  exists w1,
    onnx_cleanup (sample_world (sample_api failing_run)) = Done tt w1
    /\ uninitialized w1
    /\ trace w1
       = trace (sample_world (sample_api failing_run)) ++ [Release KEnv 1%nat]
    /\ exists w2, onnx_init w1 = Done 0 w2.
Proof.
  destruct (cleanup_then_init (sample_world (sample_api failing_run)))
    as (w1 & Hrun & Hun & _ & Htr & _ & Hinit).
  - right. exists (sample_api failing_run), 1%nat. split; reflexivity.
  - exists w1. split; [exact Hrun|]. split; [exact Hun|].
    split; [exact Htr|].
    destruct (Hinit (sample_api failing_run) eq_refl eq_refl)
      as (w2 & Hw2 & _).
    exists w2. exact Hw2.
Defined.

(** Closes a failing exit path: result, stored message, accessor. *)
Ltac failed_path :=
  do 2 eexists; split; [reflexivity|];
  cbn [first_failure]; unfold onnx_get_error, bind, get_world, ret;
  cbn [g_error_msg]; repeat split.

(** X8. A call of [onnx_run_vad] in which a runtime call fails returns -1,
    leaves [prob_out], [h_out] and [c_out] as they were, and stores the
    message of the first call that failed (memory info, audio tensor, state
    tensor, sample-rate tensor, graph execution, in this order), cut to 255
    characters, which [onnx_get_error] then returns.  When no runtime call
    fails the call returns 0 and leaves the error string alone. *)
Theorem vad_reports_first_failure w blk sess ort audio audio_len h c
        prob_out h_out c_out :
  initialized w ort -> heap_never_full w ->
  128 <= Z.of_nat (length h) -> 128 <= Z.of_nat (length c) ->
  room 128 h_out -> room 128 c_out ->
  (forall outs,
      Run ort (session sess)
          (vad_inputs audio audio_len (firstn 128 h ++ firstn 128 c))
          vad_output_names = RunOk outs ->
      vad_answer_ok outs) ->
  exists r w',
    onnx_run_vad (Some (blk, sess)) audio audio_len (Some h) (Some c)
                 prob_out h_out c_out w = Done r w'
    /\ match first_failure
               (vad_answers ort (session sess) audio audio_len
                            (firstn 128 h ++ firstn 128 c)) with
       | Some msg =>
           r = mkVad (-1) prob_out h_out c_out
           /\ g_error_msg w' = substring 0 255 (error_text msg)
           /\ onnx_get_error w'
              = Done (substring 0 255 (error_text msg)) w'
       | None =>
           vad_rc r = 0 /\ g_error_msg w' = g_error_msg w
       end.
Proof.
  intros Hg Hheap Hh Hc Hho Hco Hans. unfold vad_answers.
  pose proof Hg as Hinit. unfold initialized in Hg.
  destruct (CreateCpuMemoryInfo ort) as [|m0] eqn:Emi.
  2:{ destruct w as [p go ge em fr lg]; cbn in Hg; subst go.
      unfold onnx_run_vad; exec. rewrite Emi. exec. failed_path. }
  destruct (CreateTensorWithDataAsOrtValue ort
              (vad_audio_tensor audio audio_len)) as [|m1] eqn:Et0.
  2:{ destruct w as [p go ge em fr lg]; cbn in Hg; subst go.
      unfold onnx_run_vad; exec. rewrite Emi. exec. rewrite Et0. exec.
      failed_path. }
  destruct (CreateTensorWithDataAsOrtValue ort
              (vad_state_tensor (firstn 128 h ++ firstn 128 c)))
    as [|m2] eqn:Et1.
  2:{ destruct w as [p go ge em fr lg]; cbn in Hg; subst go.
      unfold onnx_run_vad; exec. rewrite Emi. exec. rewrite Et0. exec.
      unfold bind at 1. rewrite pack_state_spec by (auto; apply Hheap).
      exec. rewrite Et1. exec. failed_path. }
  destruct (CreateTensorWithDataAsOrtValue ort vad_sr_tensor)
    as [|m3] eqn:Et2.
  2:{ destruct w as [p go ge em fr lg]; cbn in Hg; subst go.
      unfold onnx_run_vad; exec. rewrite Emi. exec. rewrite Et0. exec.
      unfold bind at 1. rewrite pack_state_spec by (auto; apply Hheap).
      exec. rewrite Et1. exec. rewrite Et2. exec. failed_path. }
  destruct (Run ort (session sess)
                (vad_inputs audio audio_len (firstn 128 h ++ firstn 128 c))
                vad_output_names) as [m4|outs] eqn:Erun.
  { destruct w as [p go ge em fr lg]; cbn in Hg; subst go.
    unfold onnx_run_vad; exec. rewrite Emi. exec. rewrite Et0. exec.
    unfold bind at 1. rewrite pack_state_spec by (auto; apply Hheap).
    exec. rewrite Et1. exec. rewrite Et2. exec.
    unfold ort_run. rewrite Erun. exec. failed_path. }
  destruct (Hans outs eq_refl) as (o0 & o1 & rest & -> & Hp & Hs).
  destruct (vad_success w blk sess ort audio audio_len h c prob_out h_out
                        c_out o0 o1 rest)
    as (w' & Hrun & Hmsg & _); auto.
  do 2 eexists. split; [exact Hrun|]. cbn [first_failure run_status vad_rc].
  split; [reflexivity | exact Hmsg].
Qed.

(** The hypotheses of X8 hold for a graph whose execution fails. *)
Lemma vad_reports_first_failure_witness :
  exists r w',
    onnx_run_vad sample_handle (Some [0; 0]) 2
                 (Some (constant_state 1)) (Some (constant_state 2))
                 (Some 0) (Some (constant_state 0)) None
                 (sample_world (sample_api failing_run)) = Done r w'
    /\ r = mkVad (-1) (Some 0) (Some (constant_state 0)) None
    /\ onnx_get_error w' = Done "graph execution failed"%string w'.
Proof.
  destruct (vad_reports_first_failure
              (sample_world (sample_api failing_run)) 2%nat sample_session
              (sample_api failing_run) (Some [0; 0]) 2
              (constant_state 1) (constant_state 2)
              (Some 0) (Some (constant_state 0)) None)
    as (r & w' & Hrun & Hr & _ & Hget).
  - reflexivity.
  - intros h. reflexivity.
  - simpl. lia.
  - simpl. lia.
  - intros b Hb. injection Hb as <-. simpl. lia.
  - intros b Hb. discriminate Hb.
  - intros outs Hrun. discriminate Hrun.
  - exists r, w'. split; [exact Hrun|]. split; [exact Hr | exact Hget].
Defined.

(** The two halves of a 256-float state are the state. *)
Lemma halves_join {A} (sd : list A) :
  length sd = 256%nat -> firstn 128 sd ++ firstn 128 (skipn 128 sd) = sd.
Proof.
  intros Hlen. rewrite (firstn_exact 128 (skipn 128 sd)).
  - apply firstn_skipn.
  - rewrite length_skipn, Hlen. reflexivity.
Qed.

(** X9. The recurrent state threads through successive calls: when the
    caller feeds the [h_out] and [c_out] contents of one [onnx_run_vad] call
    into the next as [h_in] and [c_in], the graph of the second call runs on
    exactly the 256-float state the first call's graph put out, and the
    second call's outputs are the halves of the second state. *)
Theorem vad_state_threads w blk sess ort audio1 len1 audio2 len2 h c hb cb
        hb2 cb2 prob_out o0 dims1 sd1 rest1 o0' dims2 sd2 rest2 :
  initialized w ort -> heap_never_full w ->
  length h = 128%nat -> length c = 128%nat ->
  length hb = 128%nat -> length cb = 128%nat ->
  length hb2 = 128%nat -> length cb2 = 128%nat ->
  CreateCpuMemoryInfo ort = Ok ->
  (forall t, CreateTensorWithDataAsOrtValue ort t = Ok) ->
  Run ort (session sess) (vad_inputs audio1 len1 (h ++ c)) vad_output_names
  = RunOk (Some o0 :: Some (mkOut dims1 (Some sd1)) :: rest1) ->
  room 1 (o_data o0) -> length sd1 = 256%nat ->
  Run ort (session sess) (vad_inputs audio2 len2 sd1) vad_output_names
  = RunOk (Some o0' :: Some (mkOut dims2 (Some sd2)) :: rest2) ->
  room 1 (o_data o0') -> 256 <= Z.of_nat (length sd2) ->
  exists r1 w1 h1 c1 r2 w2,
    onnx_run_vad (Some (blk, sess)) audio1 len1 (Some h) (Some c)
                 prob_out (Some hb) (Some cb) w = Done r1 w1
    /\ vad_rc r1 = 0 /\ vad_h r1 = Some h1 /\ vad_c r1 = Some c1
    /\ h1 ++ c1 = sd1
    /\ onnx_run_vad (Some (blk, sess)) audio2 len2 (Some h1) (Some c1)
                    prob_out (Some hb2) (Some cb2) w1 = Done r2 w2
    /\ vad_rc r2 = 0
    /\ vad_h r2 = Some (firstn 128 sd2)
    /\ vad_c r2 = Some (firstn 128 (skipn 128 sd2)).
Proof.
  intros Hg Hheap Hh Hc Hhb Hcb Hhb2 Hcb2 Hmi Hten Hrun1 Hp1 Hsd1 Hrun2 Hp2
         Hsd2.
  assert (Hroom : forall b : list float,
             length b = 128%nat -> room 128 (Some b)).
  { intros b Hb b' [= <-]. lia. }
  destruct (vad_success w blk sess ort audio1 len1 h c prob_out
              (Some hb) (Some cb) o0 (mkOut dims1 (Some sd1)) rest1)
    as (w1 & Hcall1 & _ & Hort1 & _); auto; try lia.
  { now rewrite (firstn_exact 128 h Hh), (firstn_exact 128 c Hc). }
  { intros b [= <-]. lia. }
  change (o_data (mkOut dims1 (Some sd1))) with (Some sd1) in Hcall1.
  cbn [option_map] in Hcall1.
  rewrite (skipn_exact 128 hb Hhb), (skipn_exact 128 cb Hcb), !app_nil_r
    in Hcall1.
  set (h1 := firstn 128 sd1) in *. set (c1 := firstn 128 (skipn 128 sd1)) in *.
  assert (Hh1 : length h1 = 128%nat)
    by (unfold h1; rewrite length_firstn; lia).
  assert (Hc1 : length c1 = 128%nat)
    by (unfold c1; rewrite length_firstn, length_skipn; lia).
  assert (Hjoin : h1 ++ c1 = sd1) by (apply halves_join; exact Hsd1).
  destruct (steady_run_vad same_runtime same_runtime_release
              same_runtime_new same_runtime_error
              _ _ _ _ _ _ _ _ _ _ _ Hcall1) as (Hhost & _ & _).
  destruct (vad_success w1 blk sess ort audio2 len2 h1 c1 prob_out
              (Some hb2) (Some cb2) o0' (mkOut dims2 (Some sd2)) rest2)
    as (w2 & Hcall2 & _); auto; try lia.
  { unfold initialized in *. congruence. }
  { intros x. unfold heap_never_full in Hheap. rewrite Hhost. apply Hheap. }
  { now rewrite (firstn_exact 128 h1 Hh1), (firstn_exact 128 c1 Hc1), Hjoin. }
  { intros b [= <-]. exact Hsd2. }
  change (o_data (mkOut dims2 (Some sd2))) with (Some sd2) in Hcall2.
  cbn [option_map] in Hcall2.
  rewrite (skipn_exact 128 hb2 Hhb2), (skipn_exact 128 cb2 Hcb2), !app_nil_r
    in Hcall2.
  do 6 eexists. split; [exact Hcall1|]. cbn [vad_rc vad_h vad_c].
  do 4 (split; [reflexivity || exact Hjoin|]).
  split; [exact Hcall2|]. repeat split.
Qed.

(** The hypotheses of X9 hold for a graph that hands the state through. *)
Lemma vad_state_threads_witness :
  exists r1 w1 r2 w2,
    onnx_run_vad sample_handle (Some [0; 0]) 2
                 (Some (constant_state 1)) (Some (constant_state 2))
                 None (Some (constant_state 0)) (Some (constant_state 0))
                 (sample_world (sample_api (echo_state 7))) = Done r1 w1
    /\ onnx_run_vad sample_handle (Some [5; 5; 5]) 3 (vad_h r1) (vad_c r1)
                    None (Some (constant_state 3)) (Some (constant_state 4))
                    w1 = Done r2 w2
    /\ vad_rc r2 = 0.
Proof.
  destruct (vad_state_threads
              (sample_world (sample_api (echo_state 7))) 2%nat sample_session
              (sample_api (echo_state 7)) (Some [0; 0]) 2 (Some [5; 5; 5]) 3
              (constant_state 1) (constant_state 2)
              (constant_state 0) (constant_state 0)
              (constant_state 3) (constant_state 4) None
              (mkOut [] (Some [7])) [2; 1; 128]
              (constant_state 1 ++ constant_state 2) []
              (mkOut [] (Some [7])) [2; 1; 128]
              (constant_state 1 ++ constant_state 2) [])
    as (r1 & w1 & h1 & c1 & r2 & w2 & Hrun1 & _ & Hh1 & Hc1 & _ & Hrun2
        & Hrc2 & _).
  - reflexivity.
  - intros h. reflexivity.
  - reflexivity.
  - reflexivity.
  - reflexivity.
  - reflexivity.
  - reflexivity.
  - reflexivity.
  - reflexivity.
  - intros t. reflexivity.
  - reflexivity.
  - intros b Hb. injection Hb as <-. simpl. lia.
  - reflexivity.
  - reflexivity.
  - intros b Hb. injection Hb as <-. simpl. lia.
  - simpl. lia.
  - exists r1, w1, r2, w2. split; [exact Hrun1|].
    rewrite Hh1, Hc1. split; [exact Hrun2 | exact Hrc2].
Defined.

(** The events of reading the shape and the data of an output: shape
    information and dimension array come and go, and each failing query
    leaves a status. *)
Lemma asr_extract_world w o logits_out max_output_size :
  heap_never_full w ->
  o_shape_status o = Ok ->
  0 <= product (dims_read (heap_junk (host w)) o) < int_half ->
  room max_output_size logits_out ->
  room (product (dims_read (heap_junk (host w)) o)) (o_data o) ->
  exists res msg n,
    asr_extract o logits_out max_output_size w
    = Done res
        (mkWorld (host w) (g_ort w) (g_env w) msg
           (n + (status_handles (o_dims_status o)
                 + S (status_handles (o_count_status o) + S (fresh w))))%nat
           (rev ([Acquire KTypeInfo (fresh w)]
                   ++ dropped_events (status_handles (o_count_status o))
                                     (S (fresh w))
                   ++ [Acquire KHeap
                         (status_handles (o_count_status o) + S (fresh w))%nat]
                   ++ dropped_events
                        (status_handles (o_dims_status o))
                        (S (status_handles (o_count_status o)
                            + S (fresh w)))%nat
                   ++ [Release KHeap
                         (status_handles (o_count_status o) + S (fresh w))%nat;
                       Release KTypeInfo (fresh w)]
                   ++ dropped_events n
                        (status_handles (o_dims_status o)
                         + S (status_handles (o_count_status o)
                              + S (fresh w)))%nat)
            ++ log w))
    /\ (n = 0%nat \/ n = data_dropped o)
    /\ (fst res = -1 \/ 0 <= fst res <= max_output_size)
    /\ (fst res = -1 -> snd res = logits_out).
Proof.
  intros Hheap Hshape HP Hlb Hod.
  set (dims := dims_read (heap_junk (host w)) o) in *.
  assert (Hsz : output_size_of dims = product dims).
  { rewrite output_size_of_product. apply to_size_small.
    unfold int_half, size_modulus in *. lia. }
  assert (Hint : to_int (product dims) = product dims).
  { apply to_int_small. unfold int_half in *. lia. }
  assert (Hbytes : to_size (product dims * sizeof_float)
                   = product dims * sizeof_float).
  { apply to_size_small. unfold int_half, size_modulus, sizeof_float in *. lia. }
  destruct w as [p go ge em fr lg]. unfold heap_never_full in Hheap.
  cbn [host fresh g_ort g_env log] in *.
  unfold asr_extract, type_and_shape, dimensions_count, dimensions,
    mutable_data.
  rewrite Hshape. unfold dims, dims_read, o_data, data_dropped in *.
  clear dims. exec.
  destruct (o_count_status o) as [|mc], (o_dims_status o) as [|md];
    cbn [status_handles dropped_events map seq app Nat.add rev]; exec;
    unfold bind at 1; unfold malloc; unfold bind at 1;
    cbn [get_world host fresh]; rewrite Hheap; exec;
    rewrite ?firstn_all; cbn [firstn repeat length] in *;
    try change (@nil float) with (@nil Z) in *; rewrite Hsz, Hint, Hbytes;
    (match goal with
     | |- context [?x <=? max_output_size] =>
         destruct (Z.leb_spec x max_output_size) as [Hle | Hgt]
     end;
     [ destruct (o_answer o) as [[od|]|me], logits_out as [lb|]; exec;
       try (specialize (Hlb lb eq_refl)); try (specialize (Hod od eq_refl));
       try (unfold bind at 1;
            match goal with
            | |- context [memcpy lb 0 od 0 (?n * sizeof_float)] =>
                rewrite (memcpy_eq lb od 0 0 n) by lia
            end; exec);
       first [ eexists; eexists; exists 0%nat;
               (split; [reflexivity|]); cbn [fst snd];
               (split; [auto|]); (split; [right; lia | intros; lia])
             | eexists; eexists; exists 1%nat;
               (split; [reflexivity|]); cbn [fst snd];
               (split; [auto|]); (split; [right; lia | intros; lia]) ]
     | exec; eexists; eexists; exists 0%nat;
       (split; [reflexivity|]); cbn [fst snd];
       (split; [auto|]); (split; [now left | reflexivity]) ]).
Qed.

(** Closes a failing exit path of a call with one input: it returns -1 and
    nothing it acquired is left. *)
Ltac balanced_path :=
  eexists; eexists; eexists; eexists; exists [];
  split; [reflexivity|]; split; [trace_eq|]; split; [settle_run|];
  split; [constructor|]; split; [reflexivity|];
  split; [now left | reflexivity].

(** The exits of [onnx_run_asr], path by path. *)
Lemma asr_exits w blk sess ort mel_lfr frames features
        logits_out max_output_size bi si ri bo so ro :
  initialized w ort -> heap_never_full w ->
  input_names sess = Some (bi, si :: ri) ->
  output_names sess = Some (bo, so :: ro) ->
  (forall outs,
      Run ort (session sess)
          [(option_map snd si, asr_input_tensor mel_lfr frames features)]
          [option_map snd so] = RunOk outs ->
      asr_answer_ok (heap_junk (host w)) outs logits_out max_output_size) ->
  exists rc logits' w' evs live,
    onnx_run_asr (Some (blk, sess)) mel_lfr frames features logits_out
                 max_output_size w = Done (rc, logits') w'
    /\ trace w' = trace w ++ evs
    /\ settle [] evs = Some live
    /\ only_statuses live
    /\ ((forall outs,
            Run ort (session sess)
                [(option_map snd si,
                  asr_input_tensor mel_lfr frames features)]
                [option_map snd so] = RunOk outs ->
            forall t, In (Some t) outs -> tensor_clean t) ->
        live = [])
    /\ (rc = -1 \/ 0 <= rc <= max_output_size)
    /\ (rc = -1 -> logits' = logits_out).
Proof.
  intros Hg Hheap Hin Hout Hans. pose proof Hg as Hinit.
  unfold initialized in Hg.
  destruct (CreateCpuMemoryInfo ort) as [|m0] eqn:Emi.
  2:{ destruct w as [p go ge em fr lg]; cbn in Hg; subst go.
      unfold onnx_run_asr; exec. rewrite Emi. exec. balanced_path. }
  destruct (CreateTensorWithDataAsOrtValue ort
              (asr_input_tensor mel_lfr frames features)) as [|m1] eqn:Et.
  2:{ destruct w as [p go ge em fr lg]; cbn in Hg; subst go.
      unfold onnx_run_asr; exec. rewrite Emi. exec. rewrite Et. exec.
      balanced_path. }
  destruct (Run ort (session sess)
                [(option_map snd si, asr_input_tensor mel_lfr frames features)]
                [option_map snd so]) as [m2|outs] eqn:Erun.
  { destruct w as [p go ge em fr lg]; cbn in Hg; subst go.
    unfold onnx_run_asr; exec. rewrite Emi. exec. rewrite Et. exec.
    rewrite Hin, Hout. cbn [first_name]. exec.
    unfold ort_run. rewrite Erun. exec. balanced_path. }
  destruct outs as [|[o|] rest].
  1,3: destruct w as [p go ge em fr lg]; cbn in Hg; subst go;
       unfold onnx_run_asr; exec; rewrite Emi; exec; rewrite Et; exec;
       rewrite Hin, Hout; cbn [first_name]; exec;
       unfold ort_run; rewrite Erun; exec; balanced_path.
  destruct (Hans _ eq_refl o eq_refl) as (Hshape & HP & Hlb & Hod).
  rewrite (asr_run w blk sess ort mel_lfr frames features logits_out
             max_output_size bi si ri bo so ro o rest Hinit Hin Hout Emi Et
             Erun).
  match goal with
  | |- context [asr_extract _ _ _ ?w1] =>
      destruct (asr_extract_world w1 o logits_out max_output_size)
        as ([rc logits'] & msg & n & -> & Hn & Hrc & Hkeep); auto;
        try apply Hheap
  end.
  cbn [fst snd host g_ort g_env g_error_msg fresh log] in *.
  unfold tensor_clean, status_handles, data_dropped in *.
  destruct (o_count_status o) as [|mc] eqn:Ec,
           (o_dims_status o) as [|md] eqn:Ed,
           (o_answer o) as [pd|me] eqn:Ea, Hn as [-> | ->];
    cbn [dropped_events map seq app Nat.add rev];
    do 5 eexists; (split; [reflexivity|]); (split; [trace_eq|]);
    (split; [settle_run|]); (split; [repeat constructor|]);
    (split; [intros Hc;
             destruct (Hc _ eq_refl o (or_introl eq_refl))
               as (_ & Hc1 & Hc2 & Hc3);
             rewrite ?Ea in Hc3; try reflexivity; congruence|]);
    split; assumption.
Qed.

(** X10. [onnx_run_asr] on a session with names, with a heap that does not
    refuse, and with a runtime whose successful graph executions hand back
    shape information, an element count that an [int] holds and buffers as
    large as announced.  On every exit path these conditions leave (a
    failing memory info, input tensor or graph execution, an output left
    [NULL], a buffer too small, success) the call returns; memory info,
    input tensor, output tensor, shape information, dimension array and the
    statuses of the checked calls are released exactly once; and the only
    objects that survive the call are the statuses of failing
    [GetDimensionsCount], [GetDimensions] and [GetTensorMutableData]
    queries, which the call drops.  Nothing survives when every query on the
    output succeeds.  The return value is -1 or an element count within
    [max_output_size], and a call that returns -1 has not written to
    [logits_out]. *)
Theorem asr_leaves_only_statuses w blk sess ort mel_lfr frames features
        logits_out max_output_size bi si ri bo so ro :
  initialized w ort -> heap_never_full w ->
  input_names sess = Some (bi, si :: ri) ->
  output_names sess = Some (bo, so :: ro) ->
  (forall outs,
      Run ort (session sess)
          [(option_map snd si, asr_input_tensor mel_lfr frames features)]
          [option_map snd so] = RunOk outs ->
      asr_answer_ok (heap_junk (host w)) outs logits_out max_output_size) ->
  exists rc logits' w' evs live,
    onnx_run_asr (Some (blk, sess)) mel_lfr frames features logits_out
                 max_output_size w = Done (rc, logits') w'
    /\ trace w' = trace w ++ evs
    /\ settle [] evs = Some live
    /\ only_statuses live
    /\ ((forall outs,
            Run ort (session sess)
                [(option_map snd si,
                  asr_input_tensor mel_lfr frames features)]
                [option_map snd so] = RunOk outs ->
            forall t, In (Some t) outs -> tensor_clean t) ->
        live = [])
    /\ (rc = -1 \/ 0 <= rc <= max_output_size)
    /\ (rc = -1 -> logits' = logits_out).
Proof. exact (asr_exits w blk sess ort mel_lfr frames features
                logits_out max_output_size bi si ri bo so ro). Qed.

(** The hypotheses of X10 hold for an output of 6 elements whose dimension
    query fails, on a platform whose [malloc] leaves zeros. *)
Lemma asr_leaves_only_statuses_witness :
  exists rc logits' w' evs live,
    onnx_run_asr sample_handle (Some [1; 2]) 1 2 (Some [0; 0; 0; 0]) 4
                 (sample_world (sample_api (constant_output (Some blurred))))
    = Done (rc, logits') w'
    /\ trace w'
       = trace (sample_world (sample_api (constant_output (Some blurred))))
         ++ evs
    /\ settle [] evs = Some live
    /\ only_statuses live
    /\ (rc = -1 \/ 0 <= rc <= 4)
    /\ (rc = -1 -> logits' = Some [0; 0; 0; 0]).
Proof.
  destruct (asr_leaves_only_statuses
              (sample_world (sample_api (constant_output (Some blurred))))
              2%nat sample_session
              (sample_api (constant_output (Some blurred)))
              (Some [1; 2]) 1 2 (Some [0; 0; 0; 0]) 4
              5%nat (Some (7%nat, "in"%string)) []
              6%nat (Some (8%nat, "out"%string)) [])
    as (rc & logits' & w' & evs & live & Hrun & Htr & Hs & Hst & _ & Hrc
        & Hkeep).
  - reflexivity.
  - intros h. reflexivity.
  - reflexivity.
  - reflexivity.
  - intros outs Hrun. injection Hrun as <-. intros o Ho.
    injection Ho as <-. split; [reflexivity|]. split; [simpl; lia|]. split.
    + intros b Hb. injection Hb as <-. simpl. lia.
    + intros b Hb. injection Hb as <-. simpl. lia.
  - exists rc, logits', w', evs, live. split; [exact Hrun|].
    split; [exact Htr|]. split; [exact Hs|]. split; [exact Hst|].
    split; assumption.
Defined.

(** Closes an exit path of a call with one input. *)
Ltac single_path :=
  eexists; split; [reflexivity|]; cbn [g_error_msg]; repeat split.

(** X11. [onnx_run_asr] makes three runtime calls in order: memory info,
    input tensor, graph execution.  When one of them fails, the call returns
    -1, leaves the logits buffer as it was, and stores the message of the
    first failure (or "Unknown ONNX error") cut to 255 characters.  When the
    execution succeeds but hands back no output tensor, the call returns -1
    too, and the error message is left as it was before the call. *)
Theorem asr_reports_first_failure w blk sess ort mel_lfr frames features
        logits_out max_output_size bi si ri bo so ro :
  initialized w ort ->
  input_names sess = Some (bi, si :: ri) ->
  output_names sess = Some (bo, so :: ro) ->
  (forall msg,
      first_failure
        (single_answers ort (session sess)
           (asr_input_tensor mel_lfr frames features)
           (option_map snd si) (option_map snd so)) = Some msg ->
      exists w',
        onnx_run_asr (Some (blk, sess)) mel_lfr frames features logits_out
                     max_output_size w = Done (-1, logits_out) w'
        /\ g_error_msg w' = substring 0 255 (error_text msg))
  /\ (forall rest,
         CreateCpuMemoryInfo ort = Ok ->
         CreateTensorWithDataAsOrtValue ort
           (asr_input_tensor mel_lfr frames features) = Ok ->
         Run ort (session sess)
             [(option_map snd si, asr_input_tensor mel_lfr frames features)]
             [option_map snd so] = RunOk (None :: rest) ->
         exists w',
           onnx_run_asr (Some (blk, sess)) mel_lfr frames features logits_out
                        max_output_size w = Done (-1, logits_out) w'
           /\ g_error_msg w' = g_error_msg w).
Proof.
  intros Hg Hin Hout. unfold initialized in Hg.
  destruct w as [p go ge em fr lg]; cbn in Hg; subst go. split.
  - intros msg. unfold single_answers.
    destruct (CreateCpuMemoryInfo ort) as [|m0] eqn:Emi.
    2:{ intros [= <-]. unfold onnx_run_asr; exec. rewrite Emi. exec.
        single_path. }
    destruct (CreateTensorWithDataAsOrtValue ort
                (asr_input_tensor mel_lfr frames features)) as [|m1] eqn:Et.
    2:{ intros [= <-]. unfold onnx_run_asr; exec. rewrite Emi. exec.
        rewrite Et. exec. single_path. }
    destruct (Run ort (session sess)
                  [(option_map snd si,
                    asr_input_tensor mel_lfr frames features)]
                  [option_map snd so]) as [m2|outs] eqn:Erun;
      cbn [first_failure run_status]; [|discriminate].
    intros [= <-]. unfold onnx_run_asr; exec. rewrite Emi. exec.
    rewrite Et. exec. rewrite Hin, Hout. cbn [first_name]. exec.
    unfold ort_run. rewrite Erun. exec. single_path.
  - intros rest Emi Et Erun. unfold onnx_run_asr; exec. rewrite Emi. exec.
    rewrite Et. exec. rewrite Hin, Hout. cbn [first_name]. exec.
    unfold ort_run. rewrite Erun. exec. single_path.
Qed.

(** The hypotheses of X11 hold for a runtime that refuses the input
    tensor. *)
Lemma asr_reports_first_failure_witness :
  exists w',
    onnx_run_asr sample_handle (Some [1; 2]) 1 2 (Some [0; 0]) 2
                 (sample_world (sample_api_with reject_rank3 failing_run))
    = Done (-1, Some [0; 0]) w'
    /\ g_error_msg w' = "invalid tensor"%string.
Proof.
  apply (proj1 (asr_reports_first_failure
                  (sample_world (sample_api_with reject_rank3 failing_run))
                  2%nat sample_session
                  (sample_api_with reject_rank3 failing_run)
                  (Some [1; 2]) 1 2 (Some [0; 0]) 2
                  5%nat (Some (7%nat, "in"%string)) []
                  6%nat (Some (8%nat, "out"%string)) []
                  eq_refl eq_refl eq_refl)
               (Some "invalid tensor"%string)).
  reflexivity.
Defined.

(** X12. [onnx_run_asr] compares the element count of the output with
    [max_output_size] after converting it to [int].  A count from 2^31 up to
    2^32 - 1 becomes negative and passes the check for every non-negative
    [max_output_size]: with a null [logits_out] or null output data the call
    returns that negative number and sets no error; with both present and a
    logits buffer shorter than the count, the copy runs past the buffer. *)
Theorem asr_capacity_check_uses_int w blk sess ort mel_lfr frames features
        logits_out max_output_size bi si ri bo so ro dims odata rest :
  initialized w ort -> heap_never_full w ->
  input_names sess = Some (bi, si :: ri) ->
  output_names sess = Some (bo, so :: ro) ->
  CreateCpuMemoryInfo ort = Ok ->
  CreateTensorWithDataAsOrtValue ort
    (asr_input_tensor mel_lfr frames features) = Ok ->
  Run ort (session sess)
      [(option_map snd si, asr_input_tensor mel_lfr frames features)]
      [option_map snd so] = RunOk (Some (mkOut dims odata) :: rest) ->
  2 ^ 31 <= product dims < 2 ^ 32 ->
  0 <= max_output_size ->
  (logits_out = None \/ odata = None ->
   exists w',
     onnx_run_asr (Some (blk, sess)) mel_lfr frames features logits_out
                  max_output_size w
     = Done (product dims - 2 ^ 32, logits_out) w'
     /\ g_error_msg w' = g_error_msg w)
  /\ (forall lb od,
         logits_out = Some lb -> odata = Some od ->
         Z.of_nat (length lb) < product dims ->
         onnx_run_asr (Some (blk, sess)) mel_lfr frames features logits_out
                      max_output_size w = Fault).
Proof.
  intros Hg Hheap Hin Hout Hmi Hten Hrun HP Hmax.
  rewrite (asr_run w blk sess ort mel_lfr frames features logits_out
             max_output_size bi si ri bo so ro _ rest Hg Hin Hout Hmi Hten
             Hrun).
  assert (Hsz : output_size_of dims = product dims).
  { rewrite output_size_of_product. apply to_size_small.
    unfold size_modulus. lia. }
  assert (Hint : to_int (product dims) = product dims - 2 ^ 32).
  { unfold to_int, int_half, int_modulus.
    replace (product dims + 2 ^ 31)
      with (product dims - 2 ^ 31 + 1 * 2 ^ 32) by lia.
    rewrite Z.mod_add by lia. rewrite Z.mod_small by lia. lia. }
  assert (Hbytes : to_size (product dims * sizeof_float)
                   = product dims * sizeof_float).
  { apply to_size_small. unfold size_modulus, sizeof_float. lia. }
  assert (Hpass : (product dims - 2 ^ 32 <=? max_output_size) = true)
    by (apply Z.leb_le; lia).
  destruct w as [p go ge em fr lg].
  unfold heap_never_full in Hheap. cbn [host] in Hheap.
  split; [intros Hnull | intros lb od -> -> Hshort];
    open_extract; exec; unfold bind at 1; unfold malloc;
    unfold bind at 1; cbn [get_world host fresh];
    rewrite Hheap; exec; rewrite firstn_all;
    rewrite Hsz, Hint, Hbytes, Hpass.
  - assert (Hskip : match odata, logits_out with
                    | Some _, Some _ => False
                    | _, _ => True
                    end)
      by (destruct Hnull as [-> | ->]; [now destruct odata | exact I]).
    destruct odata as [od|], logits_out as [lb|]; try contradiction;
      exec; eexists; split; reflexivity.
  - exec. unfold bind at 1.
    rewrite (memcpy_overrun lb od 0 0 (product dims)) by lia.
    reflexivity.
Qed.

(** The hypotheses of X12 hold for an output of shape (65536, 32768) whose
    data pointer is null. *)
Lemma asr_capacity_check_uses_int_witness :
  exists w',
    onnx_run_asr sample_handle (Some [1; 2]) 1 2 (Some [0]) 1
                 (sample_world
                    (sample_api
                       (constant_output (Some (mkOut [65536; 32768] None)))))
    = Done (-2147483648, Some [0]) w'
    /\ g_error_msg w' = EmptyString.
Proof.
  apply (proj1 (asr_capacity_check_uses_int
                  (sample_world
                     (sample_api
                        (constant_output
                           (Some (mkOut [65536; 32768] None)))))
                  2%nat sample_session
                  (sample_api
                     (constant_output (Some (mkOut [65536; 32768] None))))
                  (Some [1; 2]) 1 2 (Some [0]) 1
                  5%nat (Some (7%nat, "in"%string)) []
                  6%nat (Some (8%nat, "out"%string)) []
                  [65536; 32768] None []
                  eq_refl (fun _ => eq_refl) eq_refl eq_refl eq_refl eq_refl
                  eq_refl ltac:(simpl; lia) ltac:(lia))).
  now right.
Defined.

(** Closes an exit path of [onnx_run_speaker] that returns -1 and leaves
    nothing. *)
Ltac speaker_path :=
  eexists; eexists; eexists; eexists; exists [];
  split; [reflexivity|]; split; [trace_eq|]; split; [settle_run|];
  split; [constructor|]; split; [reflexivity|]; split; [reflexivity|];
  split; [now right|]; split; [reflexivity | discriminate].

(** The exits of [onnx_run_speaker], path by path. *)
Lemma speaker_exits w blk sess ort fbank frames
        embedding_out bi si ri bo so ro :
  initialized w ort ->
  input_names sess = Some (bi, si :: ri) ->
  output_names sess = Some (bo, so :: ro) ->
  (forall outs,
      Run ort (session sess)
          [(option_map snd si, speaker_input_tensor fbank frames)]
          [option_map snd so] = RunOk outs ->
      speaker_answer_ok outs embedding_out) ->
  exists rc emb' w' evs live,
    onnx_run_speaker (Some (blk, sess)) fbank frames embedding_out w
    = Done (rc, emb') w'
    /\ trace w' = trace w ++ evs
    /\ settle [] evs = Some live
    /\ only_statuses live
    /\ (rc = 0 -> live = [])
    /\ ((forall outs,
            Run ort (session sess)
                [(option_map snd si, speaker_input_tensor fbank frames)]
                [option_map snd so] = RunOk outs ->
            data_queries_ok outs) -> live = [])
    /\ (rc = 0 \/ rc = -1)
    /\ (rc = -1 -> emb' = embedding_out)
    /\ (rc = 0 ->
        exists eb b, embedding_out = Some eb /\ emb' = Some b
                     /\ length b = length eb
                     /\ skipn 512 b = skipn 512 eb).
Proof.
  intros Hg Hin Hout Hans. pose proof Hg as Hinit.
  unfold initialized in Hg.
  destruct (CreateCpuMemoryInfo ort) as [|m0] eqn:Emi.
  2:{ destruct w as [p go ge em fr lg]; cbn in Hg; subst go.
      unfold onnx_run_speaker; exec. rewrite Emi. exec. speaker_path. }
  destruct (CreateTensorWithDataAsOrtValue ort
              (speaker_input_tensor fbank frames)) as [|m1] eqn:Et.
  2:{ destruct w as [p go ge em fr lg]; cbn in Hg; subst go.
      unfold onnx_run_speaker; exec. rewrite Emi. exec. rewrite Et. exec.
      speaker_path. }
  destruct (Run ort (session sess)
                [(option_map snd si, speaker_input_tensor fbank frames)]
                [option_map snd so]) as [m2|outs] eqn:Erun.
  { destruct w as [p go ge em fr lg]; cbn in Hg; subst go.
    unfold onnx_run_speaker; exec. rewrite Emi. exec. rewrite Et. exec.
    rewrite Hin, Hout. cbn [first_name]. exec.
    unfold ort_run. rewrite Erun. exec. speaker_path. }
  destruct outs as [|[o|] rest].
  1,3: destruct w as [p go ge em fr lg]; cbn in Hg; subst go;
       unfold onnx_run_speaker; exec; rewrite Emi; exec; rewrite Et; exec;
       rewrite Hin, Hout; cbn [first_name]; exec;
       unfold ort_run; rewrite Erun; exec; speaker_path.
  destruct (Hans _ eq_refl o eq_refl) as (Heb & Hod).
  rewrite (speaker_run w blk sess ort fbank frames embedding_out
             bi si ri bo so ro o rest Hinit Hin Hout Emi Et Erun).
  destruct w as [p go ge em fr lg].
  unfold speaker_extract, mutable_data, o_data, data_queries_ok,
    data_dropped in *.
  cbn [host g_ort g_env g_error_msg fresh log].
  destruct (o_answer o) as [[od|]|me] eqn:Ea, embedding_out as [eb|]; exec;
    try (speaker_path).
  - specialize (Heb eb eq_refl). specialize (Hod od eq_refl).
    unfold bind at 1. rewrite (memcpy_eq eb od 0 0 512) by lia.
    exec. eexists; eexists; eexists; eexists; exists [].
    split; [reflexivity|]. split; [trace_eq|].
    split; [settle_run|]. split; [constructor|].
    split; [reflexivity|]. split; [reflexivity|].
    split; [now left|]. split; [discriminate|].
    intros _. exists eb. eexists. split; [reflexivity|].
    split; [reflexivity|].
    change (Z.to_nat 0) with 0%nat. change (Z.to_nat (0 + 512)) with 512%nat.
    change (Z.to_nat 512) with 512%nat.
    rewrite firstn_O, skipn_O. cbn [app].
    assert (Hl : length (firstn 512 od) = 512%nat)
      by (apply firstn_length_le; lia).
    split.
    + rewrite length_app, Hl, length_skipn. lia.
    + rewrite skipn_app, Hl, Nat.sub_diag, skipn_O.
      rewrite skipn_all2 by lia. reflexivity.
  - do 5 eexists. split; [reflexivity|]. split; [trace_eq|].
    split; [settle_run|]. split; [repeat constructor|].
    split; [discriminate|].
    split; [intros Hc; specialize (Hc _ eq_refl o (or_introl eq_refl));
            rewrite Ea in Hc; discriminate|].
    split; [now right|]. split; [reflexivity | discriminate].
  - do 5 eexists. split; [reflexivity|]. split; [trace_eq|].
    split; [settle_run|]. split; [repeat constructor|].
    split; [discriminate|].
    split; [intros Hc; specialize (Hc _ eq_refl o (or_introl eq_refl));
            rewrite Ea in Hc; discriminate|].
    split; [now right|]. split; [reflexivity | discriminate].
Qed.

(** X13. [onnx_run_speaker] with an initialized runtime, on a session with
    names, with buffers of at least 512 floats where they are not null.  On
    every exit path (a runtime call failing, no output tensor, a null
    pointer, a failing data query, success) the call returns and the return
    value is 0 or -1; memory info, input tensor, output tensor and the
    statuses of the checked calls are released exactly once; and the only
    object that can survive the call is the status of a failing
    [GetTensorMutableData], which the call drops.  Nothing survives a call
    that returns 0, nor any call whose data query succeeds.  A call that
    returns -1 has not written to [embedding_out]; a call that returns 0 has
    replaced its first 512 floats and kept its length. *)
Theorem speaker_leaves_only_statuses w blk sess ort fbank frames
        embedding_out bi si ri bo so ro :
  initialized w ort ->
  input_names sess = Some (bi, si :: ri) ->
  output_names sess = Some (bo, so :: ro) ->
  (forall outs,
      Run ort (session sess)
          [(option_map snd si, speaker_input_tensor fbank frames)]
          [option_map snd so] = RunOk outs ->
      speaker_answer_ok outs embedding_out) ->
  exists rc emb' w' evs live,
    onnx_run_speaker (Some (blk, sess)) fbank frames embedding_out w
    = Done (rc, emb') w'
    /\ trace w' = trace w ++ evs
    /\ settle [] evs = Some live
    /\ only_statuses live
    /\ (rc = 0 -> live = [])
    /\ ((forall outs,
            Run ort (session sess)
                [(option_map snd si, speaker_input_tensor fbank frames)]
                [option_map snd so] = RunOk outs ->
            data_queries_ok outs) -> live = [])
    /\ (rc = 0 \/ rc = -1)
    /\ (rc = -1 -> emb' = embedding_out)
    /\ (rc = 0 ->
        exists eb b, embedding_out = Some eb /\ emb' = Some b
                     /\ length b = length eb
                     /\ skipn 512 b = skipn 512 eb).
Proof. exact (speaker_exits w blk sess ort fbank frames embedding_out
                bi si ri bo so ro). Qed.

(** The hypotheses of X13 hold for a graph whose output cannot be read and
    an embedding buffer of 512. *)
Lemma speaker_leaves_only_statuses_witness :
  exists rc emb' w' evs live,
    onnx_run_speaker sample_handle (Some (repeat 0 24)) 1
                     (Some (repeat 0 512))
                     (sample_world
                        (sample_api (constant_output (Some unreadable))))
    = Done (rc, emb') w'
    /\ trace w'
       = trace (sample_world
                  (sample_api (constant_output (Some unreadable))))
         ++ evs
    /\ settle [] evs = Some live
    /\ only_statuses live
    /\ (rc = 0 \/ rc = -1)
    /\ (rc = -1 -> emb' = Some (repeat 0 512)).
Proof.
  destruct (speaker_leaves_only_statuses
              (sample_world (sample_api (constant_output (Some unreadable))))
              2%nat sample_session
              (sample_api (constant_output (Some unreadable)))
              (Some (repeat 0 24)) 1 (Some (repeat 0 512))
              5%nat (Some (7%nat, "in"%string)) []
              6%nat (Some (8%nat, "out"%string)) [])
    as (rc & emb' & w' & evs & live & Hrun & Htr & Hs & Hst & _ & _ & Hrc
        & Hkeep & _).
  - reflexivity.
  - reflexivity.
  - reflexivity.
  - intros outs Hrun. injection Hrun as <-. intros o Ho.
    injection Ho as <-. split.
    + intros b [= <-]. vm_compute. discriminate.
    + intros b Hb. discriminate Hb.
  - exists rc, emb', w', evs, live. split; [exact Hrun|].
    split; [exact Htr|]. split; [exact Hs|]. split; [exact Hst|].
    split; assumption.
Defined.

(** X14. [onnx_run_speaker] makes three runtime calls in order: memory info,
    input tensor, graph execution.  When one of them fails, the call returns
    -1, leaves the embedding buffer as it was, and stores the message of the
    first failure (or "Unknown ONNX error") cut to 255 characters. *)
Theorem speaker_reports_first_failure w blk sess ort fbank frames
        embedding_out bi si ri bo so ro msg :
  initialized w ort ->
  input_names sess = Some (bi, si :: ri) ->
  output_names sess = Some (bo, so :: ro) ->
  first_failure
    (single_answers ort (session sess) (speaker_input_tensor fbank frames)
       (option_map snd si) (option_map snd so)) = Some msg ->
  exists w',
    onnx_run_speaker (Some (blk, sess)) fbank frames embedding_out w
    = Done (-1, embedding_out) w'
    /\ g_error_msg w' = substring 0 255 (error_text msg).
Proof.
  intros Hg Hin Hout. unfold initialized in Hg.
  destruct w as [p go ge em fr lg]; cbn in Hg; subst go.
  unfold single_answers.
  destruct (CreateCpuMemoryInfo ort) as [|m0] eqn:Emi.
  2:{ intros [= <-]. unfold onnx_run_speaker; exec. rewrite Emi. exec.
      single_path. }
  destruct (CreateTensorWithDataAsOrtValue ort
              (speaker_input_tensor fbank frames)) as [|m1] eqn:Et.
  2:{ intros [= <-]. unfold onnx_run_speaker; exec. rewrite Emi. exec.
      rewrite Et. exec. single_path. }
  destruct (Run ort (session sess)
                [(option_map snd si, speaker_input_tensor fbank frames)]
                [option_map snd so]) as [m2|outs] eqn:Erun;
    cbn [first_failure run_status]; [|discriminate].
  intros [= <-]. unfold onnx_run_speaker; exec. rewrite Emi. exec.
  rewrite Et. exec. rewrite Hin, Hout. cbn [first_name]. exec.
  unfold ort_run. rewrite Erun. exec. single_path.
Qed.

(** The hypotheses of X14 hold for a graph whose execution fails. *)
Lemma speaker_reports_first_failure_witness :
  exists w',
    onnx_run_speaker sample_handle (Some (repeat 0 24)) 1 (Some [0; 0])
                     (sample_world (sample_api failing_run))
    = Done (-1, Some [0; 0]) w'
    /\ g_error_msg w' = "graph execution failed"%string.
Proof.
  apply (speaker_reports_first_failure
           (sample_world (sample_api failing_run)) 2%nat sample_session
           (sample_api failing_run) (Some (repeat 0 24)) 1 (Some [0; 0])
           5%nat (Some (7%nat, "in"%string)) []
           6%nat (Some (8%nat, "out"%string)) []
           (Some "graph execution failed"%string)
           eq_refl eq_refl eq_refl eq_refl).
Defined.

(** Closes a failing exit path of [onnx_create_session]. *)
Ltac create_path :=
  eexists; eexists; eexists; split; [reflexivity|]; split; [reflexivity|];
  split; [trace_eq|]; split; [settle_run|]; split; [repeat constructor|];
  split; [cbn [length]; lia|];
  intros Hnone; try discriminate Hnone; settle_tac.

(** X15. With the runtime initialized, [onnx_create_session] returns NULL
    when the heap refuses the session block (message "Memory allocation
    failed", nothing acquired) and when one of its checked runtime calls
    fails (session options, session, allocator): then it stores the message
    of the first failure cut to 255 characters; block, options, session and
    the status objects of the checked calls have been released exactly
    once; and the only objects left are the statuses of failing option
    setters, which the call drops, one for each.  When the three setters
    succeed, everything acquired on the way has been released exactly once.
    A failing CoreML provider does not change this. *)
Theorem create_session_failure w ort env model_path :
  g_ort w = Some ort -> g_env w = Some env ->
  (heap_ok (host w) (fresh w) = false ->
   exists w',
     onnx_create_session model_path w = Done None w'
     /\ g_error_msg w' = "Memory allocation failed"%string
     /\ trace w' = trace w)
  /\ (forall msg,
         heap_ok (host w) (fresh w) = true ->
         first_failure (create_answers ort model_path) = Some msg ->
         exists w' evs live,
           onnx_create_session model_path w = Done None w'
           /\ g_error_msg w' = substring 0 255 (error_text msg)
           /\ trace w' = trace w ++ evs
           /\ settle [] evs = Some live
           /\ only_statuses live
           /\ (length live <= options_dropped ort)%nat
           /\ (options_dropped ort = 0%nat -> released_exactly_once evs)).
Proof.
  intros Hort Henv. destruct w as [p go ge em fr lg].
  cbn in Hort, Henv. subst go ge. cbn [host fresh]. split.
  - intros Hheap. unfold onnx_create_session. exec.
    unfold bind at 1. unfold malloc. unfold bind at 1.
    cbn [get_world host fresh]. rewrite Hheap. exec.
    eexists. split; [reflexivity|]. split; reflexivity.
  - intros msg Hheap. unfold create_answers.
    unfold options_dropped, status_handles.
    destruct (CreateSessionOptions ort) as [|m0] eqn:Eo.
    2:{ intros [= <-]. unfold onnx_create_session. exec.
        unfold bind at 1. unfold malloc. unfold bind at 1.
        cbn [get_world host fresh]. rewrite Hheap. exec. rewrite Eo. exec.
        create_path. }
    destruct (CreateSession ort model_path) as [|m1] eqn:Es.
    2:{ intros [= <-]. unfold onnx_create_session. exec.
        unfold bind at 1. unfold malloc. unfold bind at 1.
        cbn [get_world host fresh]. rewrite Hheap. exec. rewrite Eo. exec.
        destruct (SetSessionGraphOptimizationLevel ort) as [|s1],
                 (SetIntraOpNumThreads ort) as [|s2],
                 (SetInterOpNumThreads ort) as [|s3],
                 (AppendExecutionProvider_CoreML p) as [|mc]; exec;
          rewrite Es; exec; create_path. }
    destruct (GetAllocatorWithDefaultOptions ort) as [|m2] eqn:Ea;
      cbn [first_failure]; [discriminate|].
    intros [= <-]. unfold onnx_create_session. exec.
    unfold bind at 1. unfold malloc. unfold bind at 1.
    cbn [get_world host fresh]. rewrite Hheap. exec. rewrite Eo. exec.
    destruct (SetSessionGraphOptimizationLevel ort) as [|s1],
             (SetIntraOpNumThreads ort) as [|s2],
             (SetInterOpNumThreads ort) as [|s3],
             (AppendExecutionProvider_CoreML p) as [|mc]; exec;
      rewrite Es; exec; rewrite Ea; exec; create_path.
Qed.

(** The hypotheses of X15 hold right after [onnx_init] for a runtime that
    finds no model file, on a platform without the CoreML provider. *)
Lemma create_session_failure_witness :
  exists w' evs,
    onnx_create_session (Some "vad.onnx"%string)
                        (ready_world (cpu_only_platform no_model_api)
                                     no_model_api)
    = Done None w'
    /\ g_error_msg w' = "model not found"%string
    /\ trace w'
       = trace (ready_world (cpu_only_platform no_model_api) no_model_api)
         ++ evs
    /\ released_exactly_once evs.
Proof.
  destruct (proj2 (create_session_failure
                     (ready_world (cpu_only_platform no_model_api)
                                  no_model_api)
                     no_model_api 1%nat (Some "vad.onnx"%string)
                     eq_refl eq_refl)
                  (Some "model not found"%string))
    as (w' & evs & live & Hrun & Hmsg & Htr & _ & _ & _ & Hbal).
  - reflexivity.
  - reflexivity.
  - exists w', evs. split; [exact Hrun|]. split; [exact Hmsg|].
    split; [exact Htr | exact (Hbal eq_refl)].
Defined.

(** *** The life of a session *)

Lemma fetched_length g : forall k i h, length (fetched g k i h) = k.
Proof.
  induction k as [|k IH]; intros i h; cbn [fetched]; [reflexivity|].
  destruct (g i); cbn [length]; now rewrite IH.
Qed.

Lemma store_middle {A} (pre post : list A) x y :
  store (pre ++ x :: post) (Z.of_nat (length pre)) y
  = Some (pre ++ y :: post).
Proof.
  unfold store, splice.
  destruct (Z.leb_spec 0 (Z.of_nat (length pre))); [|lia].
  destruct (Z.ltb_spec (Z.of_nat (length pre))
                       (Z.of_nat (length (pre ++ x :: post))))
    as [_|Hge]; [|rewrite length_app in Hge; cbn [length] in Hge; lia].
  cbn [andb]. rewrite Nat2Z.id. f_equal.
  rewrite firstn_app, firstn_all, Nat.sub_diag, firstn_O, app_nil_r.
  cbn [length app]. f_equal. f_equal.
  rewrite skipn_app, skipn_all2 by lia.
  replace (length pre + 1 - length pre)%nat with 1%nat by lia.
  reflexivity.
Qed.

Lemma cons_middle {A} (pre : list A) x post :
  pre ++ x :: post = (pre ++ [x]) ++ post.
Proof. now rewrite <- app_assoc. Qed.

(** The name loop on a zeroed array: the slots it fills, one handle for
    each iteration, and the objects it acquires. *)
Lemma fetch_names_spec g blk : forall k pre w,
  fetch_names g k (Z.of_nat (length pre)) (Some (blk, pre ++ repeat None k)) w
  = Done (Some (blk, pre ++ fetched g k (Z.of_nat (length pre)) (fresh w)))
         (mkWorld (host w) (g_ort w) (g_env w) (g_error_msg w)
            (k + fresh w)%nat
            (rev (map acquire_of
                      (fetched_objs g k (Z.of_nat (length pre)) (fresh w)))
             ++ log w)).
Proof.
  induction k as [|k IH]; intros pre w.
  - cbn [fetch_names fetched fetched_objs repeat]. destruct w; reflexivity.
  - cbn [fetch_names fetched fetched_objs repeat].
    replace (Z.of_nat (length pre) + 1)
      with (Z.of_nat (length (pre ++ [@None cstring])))
      by (rewrite length_app; simpl; lia).
    destruct (g (Z.of_nat (length pre))) as [text|] eqn:Eg.
    + exec. unfold bind at 1. rewrite store_middle. cbn [lift ret].
      rewrite (cons_middle pre _ (repeat None k)).
      replace (Z.of_nat (length (pre ++ [@None cstring])))
        with (Z.of_nat (length (pre ++ [Some (fresh w, text)])))
        by (now rewrite !length_app).
      rewrite IH. cbn [host g_ort g_env g_error_msg fresh log].
      cbn [map rev acquire_of fst snd].
      rewrite <- !app_assoc. cbn [app].
      rewrite Nat.add_succ_r. reflexivity.
    + exec. rewrite (cons_middle pre _ (repeat None k)).
      rewrite IH. cbn [host g_ort g_env g_error_msg fresh log].
      cbn [map rev acquire_of fst snd].
      rewrite <- !app_assoc. cbn [app].
      rewrite Nat.add_succ_r. reflexivity.
Qed.

Lemma fetch_names_fresh g blk k w :
  fetch_names g k 0 (Some (blk, repeat None k)) w
  = Done (Some (blk, fetched g k 0 (fresh w)))
         (mkWorld (host w) (g_ort w) (g_env w) (g_error_msg w)
            (k + fresh w)%nat
            (rev (map acquire_of (fetched_objs g k 0 (fresh w))) ++ log w)).
Proof. exact (fetch_names_spec g blk k [] w). Qed.

Lemma kind_eqb_eq a b : kind_eqb a b = true <-> a = b.
Proof. destruct a, b; cbn; split; congruence. Qed.

Lemma obj_eqb_eq a b : obj_eqb a b = true <-> a = b.
Proof.
  destruct a as [k h], b as [k' h']. unfold obj_eqb. cbn [fst snd].
  rewrite andb_true_iff, kind_eqb_eq, Nat.eqb_eq. split.
  - now intros [-> ->].
  - now intros [= -> ->].
Qed.

Lemma is_live_in o live : is_live o live = true <-> In o live.
Proof.
  unfold is_live. rewrite existsb_exists. split.
  - intros (x & Hx & Heq). apply obj_eqb_eq in Heq. now subst.
  - intros Hin. exists o. split; [exact Hin | now apply obj_eqb_eq].
Qed.

Lemma same_live_in l1 l2 :
  same_live l1 l2 <-> (forall o, In o l1 <-> In o l2).
Proof.
  unfold same_live. split.
  - intros H o. rewrite <- !is_live_in. now rewrite H.
  - intros H o. apply eq_true_iff_eq. rewrite !is_live_in. apply H.
Qed.

Lemma in_drop o x live : In o (drop x live) <-> In o live /\ o <> x.
Proof.
  unfold drop. rewrite filter_In, negb_true_iff.
  split; intros [Hin Hne]; split; try exact Hin.
  - intros ->. rewrite (proj2 (obj_eqb_eq x x) eq_refl) in Hne.
    discriminate.
  - destruct (obj_eqb x o) eqn:E; [|reflexivity].
    apply obj_eqb_eq in E. now subst.
Qed.

(** The replay only depends on which objects are live. *)
Lemma settle_same evs : forall l1 l2,
  same_live l1 l2 ->
  match settle l1 evs, settle l2 evs with
  | Some a, Some b => same_live a b
  | None, None => True
  | _, _ => False
  end.
Proof.
  induction evs as [|[k h|k h|msg] evs IH]; intros l1 l2 Hsame;
    cbn [settle].
  - exact Hsame.
  - rewrite <- (Hsame (k, h)). destruct (is_live (k, h) l1); [exact I|].
    apply IH. apply same_live_in. intros o. cbn [In].
    pose proof (proj1 (same_live_in _ _) Hsame o) as Ho. now rewrite Ho.
  - rewrite <- (Hsame (k, h)). destruct (is_live (k, h) l1); [|exact I].
    apply IH. apply same_live_in. intros o. rewrite !in_drop.
    pose proof (proj1 (same_live_in _ _) Hsame o) as Ho. now rewrite Ho.
  - now apply IH.
Qed.

Lemma settle_app e1 : forall live e2,
  settle live (e1 ++ e2)
  = match settle live e1 with
    | Some l => settle l e2
    | None => None
    end.
Proof.
  induction e1 as [|[k h|k h|msg] e1 IH]; intros live e2;
    cbn [app settle]; [reflexivity| | |apply IH].
  - destruct (is_live (k, h) live); [reflexivity | apply IH].
  - destruct (is_live (k, h) live); [apply IH | reflexivity].
Qed.

Lemma ends_in_app live e1 mid e2 final :
  ends_in live e1 mid -> ends_in mid e2 final ->
  ends_in live (e1 ++ e2) final.
Proof.
  intros (l1 & H1 & S1) (l2 & H2 & S2). unfold ends_in.
  rewrite settle_app, H1.
  pose proof (settle_same e2 l1 mid S1) as Hs. rewrite H2 in Hs.
  destruct (settle l1 e2) as [l|]; [|contradiction].
  exists l. split; [reflexivity|]. intros o. now rewrite (Hs o).
Qed.

Lemma ends_in_same live live' evs final :
  same_live live live' -> ends_in live' evs final -> ends_in live evs final.
Proof.
  intros Hsame (l & Hl & Sl). unfold ends_in.
  pose proof (settle_same evs live live' Hsame) as Hs. rewrite Hl in Hs.
  destruct (settle live evs) as [l0|]; [|contradiction].
  exists l0. split; [reflexivity|]. intros o. now rewrite (Hs o).
Qed.

Lemma ends_in_empty evs : ends_in [] evs [] -> released_exactly_once evs.
Proof.
  intros (l & Hl & Sl). unfold released_exactly_once. rewrite Hl.
  destruct l as [|x l]; [reflexivity|].
  specialize (Sl x). cbn in Sl.
  rewrite (proj2 (obj_eqb_eq x x) eq_refl) in Sl. discriminate.
Qed.

(** Acquiring objects that are not live. *)
Lemma ends_in_acquire_objs : forall objs live,
  NoDup objs ->
  (forall o, In o objs -> ~ In o live) ->
  ends_in live (map acquire_of objs) (objs ++ live).
Proof.
  induction objs as [|[k h] objs IH]; intros live Hnd Hfresh.
  - exists live. split; [reflexivity | now intros o].
  - inversion Hnd as [|? ? Hnotin Hnd']; subst.
    destruct (IH ((k, h) :: live) Hnd') as (l & Hl & Sl).
    { intros o Hin [Heq | Hl]; [|now apply (Hfresh o (or_intror Hin))].
      subst o. contradiction. }
    exists l. split.
    + cbn [map settle acquire_of fst snd].
      destruct (is_live (k, h) live) eqn:E; [|exact Hl].
      apply is_live_in in E. now apply Hfresh in E; [|left].
    + apply same_live_in. intros o.
      rewrite (proj1 (same_live_in _ _) Sl o). cbn [app In].
      rewrite !in_app_iff. cbn [In]. tauto.
Qed.

(** Releasing objects that are live. *)
Lemma ends_in_release_objs : forall objs live,
  NoDup objs ->
  (forall o, In o objs -> ~ In o live) ->
  ends_in (objs ++ live) (map release_of objs) live.
Proof.
  induction objs as [|[k h] objs IH]; intros live Hnd Hfresh.
  - exists live. split; [reflexivity | now intros o].
  - inversion Hnd as [|? ? Hnotin Hnd']; subst.
    unfold ends_in. cbn [map app settle release_of fst snd].
    match goal with
    | |- context [is_live ?a ?b] =>
        replace (is_live a b) with true
          by (symmetry; apply is_live_in; now left)
    end.
    apply (ends_in_same _ (objs ++ live)).
    + apply same_live_in. intros o. rewrite in_drop. cbn [In].
      split.
      * intros [[Heq | Hin] Hne]; [now subst | exact Hin].
      * intros Hin. split; [now right|]. intros ->.
        apply in_app_iff in Hin. destruct Hin as [Hin | Hin];
          [contradiction | now apply (Hfresh (k, h) (or_introl eq_refl))].
    + apply IH; [exact Hnd'|]. intros o Hin. apply Hfresh. now right.
Qed.

(** What is live after a replay was live before or acquired on the way. *)
Lemma settle_origin evs : forall L L' k h,
  settle L evs = Some L' -> In (k, h) L' ->
  In (k, h) L \/ In (Acquire k h) evs.
Proof.
  induction evs as [|[k0 h0|k0 h0|msg] evs IH]; intros L L' k h Hs Hin;
    cbn [settle] in Hs.
  - injection Hs as <-. now left.
  - destruct (is_live (k0, h0) L); [discriminate|].
    destruct (IH _ _ _ _ Hs Hin) as [[Heq | Hl] | Hacq].
    + injection Heq as -> ->. right. now left.
    + now left.
    + right. now right.
  - destruct (is_live (k0, h0) L); [|discriminate].
    destruct (IH _ _ _ _ Hs Hin) as [Hl | Hacq].
    + apply in_drop in Hl. left. tauto.
    + right. now right.
  - destruct (IH _ _ _ _ Hs Hin) as [Hl | Hacq]; [now left|].
    right. now right.
Qed.

(** Events that balance among themselves and acquire nothing that is live
    leave the live objects as they are. *)
Lemma settle_aside evs : forall L0 L1 L,
  settle L0 evs = Some L1 ->
  (forall o, In o L0 -> ~ In o L) ->
  (forall k h, In (Acquire k h) evs -> ~ In (k, h) L) ->
  ends_in (L0 ++ L) evs (L1 ++ L).
Proof.
  induction evs as [|[k h|k h|msg] evs IH]; intros L0 L1 L Hs Hdisj Hacq;
    cbn [settle] in Hs.
  - injection Hs as <-. eexists. split; [reflexivity | now intros o].
  - destruct (is_live (k, h) L0) eqn:El; [discriminate|].
    unfold ends_in. cbn [settle].
    replace (is_live (k, h) (L0 ++ L)) with false.
    2:{ symmetry. apply not_true_iff_false. rewrite is_live_in, in_app_iff.
        intros [Hin | Hin].
        - apply is_live_in in Hin. congruence.
        - revert Hin. apply Hacq. now left. }
    apply (IH ((k, h) :: L0) L1 L Hs).
    + intros o [<- | Hin]; [apply Hacq; now left | now apply Hdisj].
    + intros k' h' Hin. apply Hacq. now right.
  - destruct (is_live (k, h) L0) eqn:El; [|discriminate].
    apply is_live_in in El.
    unfold ends_in. cbn [settle].
    replace (is_live (k, h) (L0 ++ L)) with true
      by (symmetry; apply is_live_in, in_app_iff; now left).
    apply (ends_in_same _ (drop (k, h) L0 ++ L)).
    + apply same_live_in. intros o. rewrite in_drop, !in_app_iff, in_drop.
      split; [tauto|]. intros [Hin | Hin]; [tauto|].
      split; [now right|]. intros ->. now apply (Hdisj (k, h)).
    + apply (IH _ L1 L Hs).
      * intros o Hin. apply in_drop in Hin. apply Hdisj. tauto.
      * intros k' h' Hin. apply Hacq. now right.
  - unfold ends_in. cbn [settle]. apply (IH L0 L1 L Hs Hdisj).
    intros k' h' Hin. apply Hacq. now right.
Qed.

(** The objects a replay from nothing leaves, when they are known up to
    their order and are all statuses. *)
Lemma ends_in_statuses evs final :
  ends_in [] evs final -> only_statuses final ->
  exists live,
    settle [] evs = Some live /\ only_statuses live
    /\ (final = [] -> live = []).
Proof.
  intros (l & Hl & Sl) Hst. exists l. split; [exact Hl|]. split.
  - apply Forall_forall. intros o Hin.
    apply (proj1 (same_live_in _ _) Sl) in Hin.
    exact (proj1 (Forall_forall _ _) Hst o Hin).
  - intros ->. destruct l as [|x l]; [reflexivity|].
    specialize (Sl x). cbn in Sl.
    rewrite (proj2 (obj_eqb_eq x x) eq_refl) in Sl. discriminate.
Qed.

Lemma ascending_le objs : forall lo hi, ascending lo objs hi -> (lo <= hi)%nat.
Proof.
  induction objs as [|o objs IH]; intros lo hi H; cbn [ascending] in H;
    [exact H|].
  destruct H as [H1 H2]. specialize (IH _ _ H2). lia.
Qed.

Lemma ascending_weaken objs : forall lo lo' hi hi',
  (lo' <= lo)%nat -> (hi <= hi')%nat ->
  ascending lo objs hi -> ascending lo' objs hi'.
Proof.
  induction objs as [|o objs IH]; intros lo lo' hi hi' Hlo Hhi H;
    cbn [ascending] in *; [lia|].
  destruct H as [H1 H2]. split; [lia|].
  exact (IH _ _ _ _ (Nat.le_refl _) Hhi H2).
Qed.

Lemma ascending_app l1 : forall l2 lo mid hi,
  ascending lo l1 mid -> ascending mid l2 hi -> ascending lo (l1 ++ l2) hi.
Proof.
  induction l1 as [|o l1 IH]; intros l2 lo mid hi H1 H2;
    cbn [ascending app] in *.
  - exact (ascending_weaken l2 mid lo hi hi H1 (Nat.le_refl _) H2).
  - destruct H1 as [Ha Hb]. split; [exact Ha|]. exact (IH _ _ _ _ Hb H2).
Qed.

Lemma ascending_bounds objs : forall lo hi o,
  ascending lo objs hi -> In o objs -> (lo <= snd o < hi)%nat.
Proof.
  induction objs as [|x objs IH]; intros lo hi o H Hin; [destruct Hin|].
  cbn [ascending] in H. destruct H as [H1 H2].
  pose proof (ascending_le _ _ _ H2).
  destruct Hin as [<- | Hin]; [lia|].
  specialize (IH _ _ _ H2 Hin). lia.
Qed.

Lemma ascending_NoDup objs : forall lo hi, ascending lo objs hi -> NoDup objs.
Proof.
  induction objs as [|x objs IH]; intros lo hi H; [constructor|].
  cbn [ascending] in H. destruct H as [H1 H2]. constructor.
  - intros Hin. pose proof (ascending_bounds _ _ _ _ H2 Hin). lia.
  - exact (IH _ _ H2).
Qed.

Lemma ascending_seq k n : forall h,
  ascending h (map (pair k) (seq h n)) (n + h)%nat.
Proof.
  induction n as [|n IH]; intros h; cbn [seq map ascending]; [lia|].
  split; [cbn [snd]; lia|]. cbn [snd].
  replace (S n + h)%nat with (n + S h)%nat by lia. apply IH.
Qed.

Lemma fetched_objs_ascending g : forall k i h,
  ascending h (fetched_objs g k i h) (k + h)%nat.
Proof.
  induction k as [|k IH]; intros i h; cbn [fetched_objs ascending]; [lia|].
  split; [cbn [snd]; lia|]. cbn [snd].
  replace (S k + h)%nat with (k + S h)%nat by lia. apply IH.
Qed.

(** The names of a fetched array are the objects of the loop that are not
    statuses. *)
Lemma fetched_names g : forall k i h,
  map (pair KName) (slot_handles (fetched g k i h))
  = filter (fun o => negb (is_status o)) (fetched_objs g k i h).
Proof.
  induction k as [|k IH]; intros i h; cbn [fetched fetched_objs];
    [reflexivity|].
  destruct (g i) as [text|]; unfold slot_handles in *;
    cbn [flat_map app map filter is_status fst kind_eqb negb].
  - f_equal. apply IH.
  - apply IH.
Qed.

(** With an allocator, the releases of a name array are those of its
    handles. *)
Lemma name_releases_handles slots a :
  name_releases slots (Some a) = map (Release KName) (slot_handles slots).
Proof.
  unfold name_releases, slot_handles.
  induction slots as [|[[h t]|] slots IH]; cbn [flat_map app map];
    [reflexivity | now rewrite IH | exact IH].
Qed.

Lemma calloc_names_fits n w :
  0 <= n < 2 ^ 61 -> heap_ok (host w) (fresh w) = true ->
  calloc_names n w
  = Done (Some (fresh w, repeat None (Z.to_nat n)))
         (mkWorld (host w) (g_ort w) (g_env w) (g_error_msg w)
                  (S (fresh w)) (Acquire KHeap (fresh w) :: log w)).
Proof.
  intros Hn Hheap. unfold calloc_names.
  destruct (Z.ltb_spec (n * 8) size_modulus) as [_|Hge];
    [|unfold size_modulus in Hge; lia].
  unfold malloc. unfold bind at 1. cbn [get_world]. rewrite Hheap.
  reflexivity.
Qed.

(** Brings a history built from several parts into one list. *)
Ltac flatten_events :=
  repeat (progress (rewrite ?rev_app_distr, ?map_app, ?rev_involutive;
                    cbn [rev app map seq acquire_of release_of fst snd];
                    rewrite <- ?app_assoc; cbn [app])).

(** [onnx_create_session] when the checked calls succeed. *)
Lemma create_session_built w ort env model_path :
  g_ort w = Some ort -> g_env w = Some env -> heap_never_full w ->
  first_failure (create_answers ort model_path) = None ->
  counts_fit ort ->
  onnx_create_session model_path w
  = Done (Some (fresh w, built_session ort (host w) (fresh w)))
         (mkWorld (host w) (g_ort w) (g_env w) (g_error_msg w)
                  (built_fresh ort (host w) (fresh w))
                  (rev (built_events ort (host w) (fresh w)) ++ log w)).
Proof.
  intros Hort Henv Hheap Hans Hfit. unfold create_answers in Hans.
  destruct (CreateSessionOptions ort) eqn:Eo; [|discriminate].
  destruct (CreateSession ort model_path) eqn:Es; [|discriminate].
  destruct (GetAllocatorWithDefaultOptions ort) eqn:Ea; [|discriminate].
  clear Hans. destruct w as [p go ge em fr lg].
  cbn in Hort, Henv. subst go ge. unfold heap_never_full in Hheap.
  cbn [host] in Hheap. cbn [host g_ort g_env g_error_msg fresh log].
  unfold built_session, built_fresh, built_events, built_first,
    built_second, built_outputs, built_inputs, built_array_handle,
    built_session_handle, provider_events, provider_handles,
    options_dropped, status_handles.
  unfold onnx_create_session. exec.
  unfold bind at 1. unfold malloc. unfold bind at 1.
  cbn [get_world host fresh]. rewrite Hheap. exec. rewrite Eo. exec.
  destruct (SetSessionGraphOptimizationLevel ort) as [|s1],
           (SetIntraOpNumThreads ort) as [|s2],
           (SetInterOpNumThreads ort) as [|s3],
           (AppendExecutionProvider_CoreML p) as [|mc]; exec;
    rewrite Es; exec; rewrite Ea; cbn [Nat.add];
    match goal with
    | |- context [SessionGetInputCount ort ?s] =>
        destruct (Hfit s) as [Hin Hout];
        unfold count_of, count_dropped, fetch_count in *;
        destruct (SessionGetInputCount ort s) as [n_in|],
                 (SessionGetOutputCount ort s) as [n_out|]
    end; exec; cbn [Nat.add];
    unfold bind at 1; rewrite calloc_names_fits by (auto; apply Hheap);
    cbn [host g_ort g_env g_error_msg fresh log];
    unfold bind at 1; rewrite calloc_names_fits by (auto; apply Hheap);
    cbn [host g_ort g_env g_error_msg fresh log];
    unfold bind at 1; rewrite fetch_names_fresh;
    cbn [host g_ort g_env g_error_msg fresh log];
    unfold bind at 1; rewrite fetch_names_fresh;
    cbn [host g_ort g_env g_error_msg fresh log ret];
    flatten_events; reflexivity.
Qed.

(** The counts of a built session agree with its arrays. *)
Lemma built_counts ort p f :
  counts_fit ort -> counts_match (built_session ort p f).
Proof.
  intros Hfit. unfold built_session, counts_match.
  cbn [input_names output_names num_inputs num_outputs].
  destruct (Hfit (built_session_handle ort p f)) as [Hin Hout].
  split; intros blk slots [= _ <-]; unfold built_inputs, built_outputs;
    rewrite fetched_length; lia.
Qed.

Lemma fetched_cons g k i h :
  (0 < k)%nat -> exists slot rest, fetched g k i h = slot :: rest.
Proof.
  destruct k as [|k]; [lia|]. intros _. cbn [fetched].
  destruct (g i); eauto.
Qed.

(** It has a first input and a first output name slot when the graph
    reports at least one input and one output. *)
Lemma built_has_names ort p f :
  reports_names ort -> has_names (built_session ort p f).
Proof.
  intros Hrep. unfold has_names, built_session.
  cbn [input_names output_names].
  destruct (Hrep (built_session_handle ort p f)) as [Hin Hout].
  unfold built_inputs, built_outputs.
  match goal with
  | |- context [fetched ?g ?k ?i ?h :: _] => idtac
  | |- context [Some (_, fetched ?g ?k ?i ?h)] =>
      destruct (fetched_cons g k i h) as (si & ri & ->); [lia|]
  end.
  match goal with
  | |- context [Some (_, fetched ?g ?k ?i ?h)] =>
      destruct (fetched_cons g k i h) as (so & ro & ->); [lia|]
  end.
  do 6 eexists. split; reflexivity.
Qed.

(** [onnx_destroy_session] on a built session. *)
Lemma destroy_built w ort p f :
  g_ort w = Some ort -> counts_fit ort ->
  onnx_destroy_session (Some (f, built_session ort p f)) w
  = Done tt (mkWorld (host w) (g_ort w) (g_env w) (g_error_msg w) (fresh w)
                     (rev (built_releases ort p f) ++ log w)).
Proof.
  intros Hort Hfit. destruct (built_counts ort p f Hfit) as [Hci Hco].
  unfold onnx_destroy_session.
  unfold bind at 1. rewrite (destroy_names_spec _ _ _ _ Hci).
  unfold bind at 1. rewrite (destroy_names_spec _ _ _ _ Hco).
  unfold built_session in *.
  cbn [input_names output_names num_inputs num_outputs allocator session
       options].
  unfold after_events, names_order.
  cbn [host g_ort g_env g_error_msg fresh log]. exec. rewrite Hort. exec.
  rewrite !name_releases_handles. unfold built_releases, built_held.
  destruct w as [p0 go ge em fr lg].
  cbn [host g_ort g_env g_error_msg fresh log].
  rewrite !map_app, !map_map. cbn [release_of fst snd map].
  repeat (progress (rewrite ?rev_app_distr, ?rev_involutive;
                    cbn [rev app]; rewrite <- ?app_assoc; cbn [app])).
  reflexivity.
Qed.

(** The objects of a built session: their handles go up from the counter
    the creation starts with to the one it leaves, the provider's status
    lies in between, and the objects held are those that are not
    statuses. *)
Lemma built_first_ascending ort f :
  ascending f (built_first ort f) (options_dropped ort + S (S f))%nat.
Proof.
  unfold built_first. cbn [app ascending snd].
  split; [lia|]. split; [lia|]. apply ascending_seq.
Qed.

Lemma built_second_ascending ort p f :
  ascending (built_session_handle ort p f) (built_second ort p f)
            (built_fresh ort p f).
Proof.
  unfold built_second, built_fresh, built_array_handle.
  set (s := built_session_handle ort p f).
  set (ci := count_dropped (SessionGetInputCount ort s)).
  set (co := count_dropped (SessionGetOutputCount ort s)).
  set (ni := Z.to_nat (count_of (SessionGetInputCount ort s))).
  set (no := Z.to_nat (count_of (SessionGetOutputCount ort s))).
  cbn [app ascending snd]. split; [lia|].
  apply (ascending_app _ _ _ (co + (ci + S s))%nat).
  { apply (ascending_weaken _ (S s) _ (ci + co + S s)%nat); try lia.
    apply ascending_seq. }
  cbn [app ascending snd]. split; [lia|]. split; [lia|].
  apply (ascending_app _ _ _ (ni + S (S (co + (ci + S s))))%nat).
  - apply fetched_objs_ascending.
  - apply fetched_objs_ascending.
Qed.

Lemma built_ascending ort p f :
  ascending f (built_first ort f ++ built_second ort p f)
            (built_fresh ort p f).
Proof.
  apply (ascending_app _ _ _ (built_session_handle ort p f)).
  - apply (ascending_weaken _ f _ (options_dropped ort + S (S f))%nat);
      [lia | unfold built_session_handle; lia |].
    apply built_first_ascending.
  - apply built_second_ascending.
Qed.

Lemma fetched_objs_kinds g : forall k i h o,
  In o (fetched_objs g k i h) -> fst o = KName \/ fst o = KStatus.
Proof.
  induction k as [|k IH]; intros i h o Hin; [destruct Hin|].
  cbn [fetched_objs] in Hin. destruct Hin as [<- | Hin]; [|eauto].
  cbn [fst]. destruct (g i); auto.
Qed.

(** No object of a session is an environment. *)
Lemma built_not_env ort p f o :
  In o (built_first ort f ++ built_second ort p f) -> fst o <> KEnv.
Proof.
  unfold built_first, built_second.
  rewrite !in_app_iff, !in_map_iff. cbn [In].
  intros [[[<- | [<- | []]] | (x & <- & _)]
         | [[<- | []] | [(x & <- & _) | [[<- | [<- | []]] | [Hin | Hin]]]]];
    cbn [fst]; try discriminate;
    destruct (fetched_objs_kinds _ _ _ _ _ Hin) as [-> | ->]; discriminate.
Qed.

(** The objects the session holds are those it acquired that are not
    statuses. *)
Lemma built_held_spec ort p f o :
  In o (built_held ort p f)
  <-> In o (built_first ort f ++ built_second ort p f)
      /\ is_status o = false.
Proof.
  unfold built_held, built_first, built_second, built_inputs, built_outputs.
  rewrite !fetched_names.
  rewrite !in_app_iff, !filter_In, !in_map_iff, !negb_true_iff. cbn [In].
  split.
  - intros [[Hin Hst] | [[<- | []] | [[Hin Hst] | Hin]]].
    + split; [|exact Hst]. right. do 3 right. now left.
    + split; [|reflexivity]. right. do 2 right. left. now left.
    + split; [|exact Hst]. right. do 3 right. now right.
    + destruct Hin as [<- | [<- | [<- | [<- | []]]]];
        (split; [|reflexivity]).
      * right. do 2 right. left. right. now left.
      * right. left. now left.
      * left. left. right. now left.
      * left. left. now left.
  - intros [[[Hin | (x & <- & _)]
            | [[<- | []] | [(x & <- & _) | [Hin | [Hin | Hin]]]]] Hst];
      try discriminate Hst.
    + destruct Hin as [<- | [<- | []]]; do 3 right; cbn [In]; auto.
    + do 3 right. cbn [In]. auto.
    + destruct Hin as [<- | [<- | []]]; [right; left; now left|].
      do 3 right. cbn [In]. auto.
    + left. now split.
    + right. right. left. now split.
Qed.

Lemma built_dropped_spec ort p f o :
  In o (built_dropped ort p f)
  <-> In o (built_first ort f ++ built_second ort p f)
      /\ is_status o = true.
Proof. unfold built_dropped. apply filter_In. Qed.

Lemma built_dropped_statuses ort p f : only_statuses (built_dropped ort p f).
Proof.
  apply Forall_forall. intros [k h] Hin.
  apply built_dropped_spec in Hin. destruct Hin as [_ Hst].
  unfold is_status in Hst. cbn [fst] in *. now apply kind_eqb_eq.
Qed.

(** What a new session acquired, by what becomes of it. *)
Lemma built_partition ort p f L :
  same_live (built_second ort p f ++ built_first ort f ++ L)
            (built_held ort p f ++ built_dropped ort p f ++ L).
Proof.
  apply same_live_in. intros o.
  rewrite !in_app_iff, built_held_spec, built_dropped_spec, !in_app_iff.
  destruct (is_status o); split; intros H;
    repeat match goal with
           | H : _ \/ _ |- _ => destruct H
           | H : _ /\ _ |- _ => destruct H
           end; try discriminate; tauto.
Qed.

(** The objects the session holds are distinct. *)
Lemma built_held_NoDup ort p f : NoDup (built_held ort p f).
Proof.
  unfold built_held, built_inputs, built_outputs. rewrite !fetched_names.
  set (s := built_session_handle ort p f).
  set (a := built_array_handle ort p f).
  set (ni := Z.to_nat (count_of (SessionGetInputCount ort s))).
  set (no := Z.to_nat (count_of (SessionGetOutputCount ort s))).
  set (oi := fetched_objs (SessionGetInputName ort s) ni 0 (S (S a))).
  set (oo := fetched_objs (SessionGetOutputName ort s) no 0
                          (ni + S (S a))%nat).
  assert (Hs : (S (S f) <= s)%nat) by (unfold s, built_session_handle; lia).
  assert (Ha : (S s <= a)%nat) by (unfold a, built_array_handle; fold s; lia).
  assert (Hi : forall o, In o (filter (fun o => negb (is_status o)) oi) ->
                         (S (S a) <= snd o < ni + S (S a))%nat).
  { intros o Hin. apply filter_In in Hin. destruct Hin as [Hin _].
    exact (ascending_bounds _ _ _ _ (fetched_objs_ascending _ _ _ _) Hin). }
  assert (Ho : forall o, In o (filter (fun o => negb (is_status o)) oo) ->
                         (ni + S (S a) <= snd o)%nat).
  { intros o Hin. apply filter_In in Hin. destruct Hin as [Hin _].
    exact (proj1 (ascending_bounds _ _ _ _
                    (fetched_objs_ascending _ _ _ _) Hin)). }
  apply NoDup_app.
  { apply NoDup_filter.
    exact (ascending_NoDup _ _ _ (fetched_objs_ascending _ _ _ _)). }
  2:{ intros o Hin Hin'. specialize (Hi o Hin).
      rewrite !in_app_iff in Hin'. cbn [In] in Hin'.
      destruct Hin' as [[<- | []] | [Hin' | Hin']];
        [cbn [snd] in Hi; lia | specialize (Ho o Hin'); lia |].
      destruct Hin' as [<- | [<- | [<- | [<- | []]]]]; cbn [snd] in Hi; lia. }
  apply NoDup_app.
  { repeat constructor. intros []. }
  2:{ intros o [<- | []] Hin'. rewrite in_app_iff in Hin'. cbn [In] in Hin'.
      destruct Hin' as [Hin' | Hin'];
        [specialize (Ho _ Hin'); cbn [snd] in Ho; lia|].
      destruct Hin' as [Heq | [Heq | [Heq | [Heq | []]]]];
        injection Heq; intros; lia. }
  apply NoDup_app.
  { apply NoDup_filter.
    exact (ascending_NoDup _ _ _ (fetched_objs_ascending _ _ _ _)). }
  2:{ intros o Hin Hin'. specialize (Ho o Hin). cbn [In] in Hin'.
      destruct Hin' as [<- | [<- | [<- | [<- | []]]]]; cbn [snd] in Ho; lia. }
  repeat constructor; cbn [In]; intros H;
    repeat match goal with
           | H : _ \/ _ |- _ => destruct H as [H | H]
           end;
    try contradiction; try discriminate H; injection H; intros; lia.
Qed.

(** The creation of a session, seen from the objects that were live
    before: it adds the objects of the session. *)
Lemma built_acquired L ort p f :
  (forall o, In o (built_first ort f ++ built_second ort p f) -> ~ In o L) ->
  ~ In (KStatus, (options_dropped ort + S (S f))%nat) L ->
  ends_in L (built_events ort p f)
          (built_second ort p f ++ built_first ort f ++ L).
Proof.
  intros Hnew Hprov. unfold built_events.
  pose proof (built_first_ascending ort f) as A1.
  pose proof (built_second_ascending ort p f) as A2.
  apply (ends_in_app _ _ (built_first ort f ++ L)).
  { apply ends_in_acquire_objs; [exact (ascending_NoDup _ _ _ A1)|].
    intros o Hin. apply Hnew, in_app_iff. now left. }
  apply (ends_in_app _ _ (built_first ort f ++ L)).
  { unfold provider_events.
    destruct (AppendExecutionProvider_CoreML p) as [|mc].
    - eexists. split; [reflexivity | now intros o].
    - apply (settle_aside _ [] [] (built_first ort f ++ L)).
      + cbn [settle is_live existsb obj_eqb kind_eqb fst snd drop filter
             negb andb orb]. now rewrite Nat.eqb_refl.
      + intros o [].
      + intros k h [[= <- <-] | [Heq | [Heq | []]]]; try discriminate.
        rewrite in_app_iff. intros [Hin | Hin]; [|now apply Hprov].
        pose proof (ascending_bounds _ _ _ _ A1 Hin) as Hb.
        cbn [snd] in Hb. lia. }
  apply ends_in_acquire_objs; [exact (ascending_NoDup _ _ _ A2)|].
  intros o Hin. rewrite in_app_iff. intros [Hin' | Hin'].
  - pose proof (ascending_bounds _ _ _ _ A1 Hin') as H1.
    pose proof (ascending_bounds _ _ _ _ A2 Hin) as H2.
    unfold built_session_handle in H2. lia.
  - revert Hin'. apply Hnew, in_app_iff. now right.
Qed.

(** Objects older than the counter are not among those of a session built
    from it. *)
Lemma built_apart_old L ort p f :
  (forall o, In o L -> (snd o < f)%nat) ->
  (forall o, In o (built_first ort f ++ built_second ort p f) -> ~ In o L)
  /\ ~ In (KStatus, (options_dropped ort + S (S f))%nat) L.
Proof.
  intros Hold. split.
  - intros o Hin Hl. specialize (Hold o Hl).
    pose proof (ascending_bounds _ _ _ _ (built_ascending ort p f) Hin)
      as [Hlo _].
    exact (Nat.lt_irrefl _ (Nat.lt_le_trans _ _ _ Hold Hlo)).
  - intros Hl. specialize (Hold _ Hl). cbn [snd] in Hold. lia.
Qed.

(** Every object of a built session is older than the handle counter the
    creation leaves. *)
Lemma built_live_old ort p f o :
  In o (built_held ort p f ++ built_dropped ort p f) ->
  (f <= snd o < built_fresh ort p f)%nat.
Proof.
  rewrite in_app_iff, built_held_spec, built_dropped_spec.
  intros [[Hin _] | [Hin _]];
    exact (ascending_bounds _ _ _ _ (built_ascending ort p f) Hin).
Qed.

(** The destruction of a session releases what the session holds. *)
Lemma built_released ort p f R :
  (forall o, In o (built_held ort p f) -> ~ In o R) ->
  ends_in (built_held ort p f ++ R) (built_releases ort p f) R.
Proof.
  intros Hnew. unfold built_releases.
  apply ends_in_release_objs; [apply built_held_NoDup | exact Hnew].
Qed.

(** When none of the calls that the creation does not check fails, nothing
    is dropped. *)
Lemma fetched_objs_clean g : forall k i h,
  (forall j, i <= j < i + Z.of_nat k -> g j <> None) ->
  filter is_status (fetched_objs g k i h) = [].
Proof.
  induction k as [|k IH]; intros i h Hg; [reflexivity|].
  cbn [fetched_objs filter].
  destruct (g i) eqn:E; [|exfalso; apply (Hg i); [lia | exact E]].
  cbn [is_status fst kind_eqb]. apply IH. intros j Hj. apply Hg. lia.
Qed.

Lemma built_clean ort p f :
  counts_fit ort -> create_clean ort -> built_dropped ort p f = [].
Proof.
  intros Hfit [Hopt Hq]. unfold built_dropped, built_first, built_second.
  destruct (Hq (built_session_handle ort p f)) as (Hci & Hco & Hni & Hno).
  destruct (Hfit (built_session_handle ort p f)) as [Hfi Hfo].
  rewrite Hopt, Hci, Hco. cbn [seq map app Nat.add].
  cbn [filter is_status fst kind_eqb app]. rewrite filter_app.
  rewrite !fetched_objs_clean; [reflexivity | |];
    intros j Hj; [apply Hno | apply Hni]; lia.
Qed.

(** [onnx_destroy_session] on a built session after [onnx_cleanup]. *)
Lemma destroy_built_late w ort p f :
  g_ort w = None -> counts_fit ort ->
  onnx_destroy_session (Some (f, built_session ort p f)) w
  = Done tt (mkWorld (host w) (g_ort w) (g_env w) (g_error_msg w) (fresh w)
                     (rev (map release_of (built_held_late ort p f))
                      ++ log w)).
Proof.
  intros Hort Hfit. destruct (built_counts ort p f Hfit) as [Hci Hco].
  unfold onnx_destroy_session.
  unfold bind at 1. rewrite (destroy_names_spec _ _ _ _ Hci).
  unfold bind at 1. rewrite (destroy_names_spec _ _ _ _ Hco).
  unfold built_session in *.
  cbn [input_names output_names num_inputs num_outputs allocator session
       options].
  unfold after_events, names_order.
  cbn [host g_ort g_env g_error_msg fresh log]. exec. rewrite Hort. exec.
  rewrite !name_releases_handles. unfold built_held_late.
  destruct w as [p0 go ge em fr lg].
  cbn [host g_ort g_env g_error_msg fresh log].
  rewrite !map_app, !map_map. cbn [release_of fst snd map].
  repeat (progress (rewrite ?rev_app_distr, ?rev_involutive;
                    cbn [rev app]; rewrite <- ?app_assoc; cbn [app])).
  reflexivity.
Qed.

(** What is released late is what the session holds, its graph and its
    options aside. *)
Lemma built_held_late_spec ort p f o :
  In o (built_held ort p f)
  <-> In o (built_held_late ort p f)
      \/ o = (KSession, built_session_handle ort p f)
      \/ o = (KSessionOptions, S f).
Proof.
  unfold built_held, built_held_late. rewrite !in_app_iff. cbn [In].
  intuition.
Qed.

Lemma built_held_late_NoDup ort p f : NoDup (built_held_late ort p f).
Proof.
  pose proof (built_held_NoDup ort p f) as Hnd.
  unfold built_held, built_held_late in *.
  set (A := map (pair KName) (slot_handles (built_inputs ort p f))) in *.
  set (B := map (pair KName) (slot_handles (built_outputs ort p f))) in *.
  cbn zeta in *.
  match type of Hnd with
  | NoDup (A ++ [?a] ++ B ++ [?b; ?s; ?o; ?f]) =>
      assert (H1 : A ++ [a] ++ B ++ [b; s; o; f]
                   = (A ++ [a] ++ B ++ [b]) ++ s :: [o; f])
        by (rewrite <- !app_assoc; reflexivity);
      rewrite H1 in Hnd; clear H1;
      apply NoDup_remove_1 in Hnd;
      change ((A ++ [a] ++ B ++ [b]) ++ [o; f])
        with ((A ++ [a] ++ B ++ [b]) ++ o :: [f]) in Hnd;
      apply NoDup_remove_1 in Hnd;
      rewrite <- !app_assoc in Hnd; exact Hnd
  end.
Qed.

Lemma held_not_dropped ort p f o :
  In o (built_held ort p f) -> ~ In o (built_dropped ort p f).
Proof.
  rewrite built_held_spec, built_dropped_spec. intros [_ H1] [_ H2].
  congruence.
Qed.

(** The history of a session from creation to destruction leaves the
    statuses the creation dropped. *)
Lemma built_history ort p f :
  ends_in [] (built_events ort p f ++ built_releases ort p f)
          (built_dropped ort p f).
Proof.
  apply (ends_in_app _ _ (built_second ort p f ++ built_first ort f ++ [])).
  { apply built_acquired; intros; intros []. }
  apply (ends_in_same _ (built_held ort p f ++ built_dropped ort p f)).
  { pose proof (built_partition ort p f []) as H.
    rewrite (app_nil_r (built_dropped ort p f)) in H. exact H. }
  apply built_released. apply held_not_dropped.
Qed.

(** X16. With the runtime initialized, a heap that does not refuse, checked
    runtime calls that succeed and name counts whose arrays can be
    allocated, [onnx_create_session] returns a session without touching the
    error message; the counts of that session agree with its name arrays;
    and [onnx_destroy_session] on it completes.  By then the session block,
    the options, the session, both name arrays, every name and the status
    of a refused CoreML provider have been released exactly once, and the
    only objects left are statuses: those of the option setters, count
    queries and name queries that failed, which [onnx_create_session] drops
    unseen.  When none of these calls fails, every object the two calls
    acquired has been released exactly once. *)
Theorem session_lifecycle w ort env model_path :
  g_ort w = Some ort -> g_env w = Some env -> heap_never_full w ->
  first_failure (create_answers ort model_path) = None ->
  counts_fit ort ->
  exists blk sess w1 w2 evs live,
    onnx_create_session model_path w = Done (Some (blk, sess)) w1
    /\ g_error_msg w1 = g_error_msg w
    /\ counts_match sess
    /\ onnx_destroy_session (Some (blk, sess)) w1 = Done tt w2
    /\ trace w2 = trace w ++ evs
    /\ settle [] evs = Some live
    /\ only_statuses live
    /\ (create_clean ort -> released_exactly_once evs).
Proof.
  intros Hort Henv Hheap Hans Hfit.
  destruct (ends_in_statuses _ _ (built_history ort (host w) (fresh w))
                             (built_dropped_statuses ort (host w) (fresh w)))
    as (live & Hlive & Hst & Hnone).
  do 5 eexists. exists live.
  split; [exact (create_session_built w ort env model_path Hort Henv Hheap
                   Hans Hfit)|].
  split; [reflexivity|]. split; [exact (built_counts _ _ _ Hfit)|].
  split; [apply (destroy_built _ ort); [exact Hort | exact Hfit]|].
  split.
  { unfold trace. cbn [log]. rewrite !rev_app_distr, !rev_involutive.
    now rewrite app_assoc. }
  split; [exact Hlive|]. split; [exact Hst|].
  intros Hclean. unfold released_exactly_once. rewrite Hlive. f_equal.
  apply Hnone. now apply built_clean.
Qed.

(** The hypotheses of X16 hold right after [onnx_init] for the sample
    runtime on a platform without the CoreML provider; none of its unchecked
    calls fails, and everything is released. *)
Lemma session_lifecycle_witness :
  exists blk sess w1 w2 evs,
    onnx_create_session (Some "vad.onnx"%string)
      (ready_world (cpu_only_platform (sample_api failing_run))
                   (sample_api failing_run))
    = Done (Some (blk, sess)) w1
    /\ g_error_msg w1
       = g_error_msg (ready_world (cpu_only_platform (sample_api failing_run))
                                  (sample_api failing_run))
    /\ counts_match sess
    /\ onnx_destroy_session (Some (blk, sess)) w1 = Done tt w2
    /\ trace w2
       = trace (ready_world (cpu_only_platform (sample_api failing_run))
                            (sample_api failing_run)) ++ evs
    /\ released_exactly_once evs.
Proof.
  destruct (session_lifecycle
              (ready_world (cpu_only_platform (sample_api failing_run))
                           (sample_api failing_run))
              (sample_api failing_run) 1%nat (Some "vad.onnx"%string))
    as (blk & sess & w1 & w2 & evs & live & Hc & Hm & Hcm & Hd & Htr & _ & _
        & Hbal).
  - reflexivity.
  - reflexivity.
  - intros h. reflexivity.
  - reflexivity.
  - intros s. simpl. lia.
  - exists blk, sess, w1, w2, evs. split; [exact Hc|]. split; [exact Hm|].
    split; [exact Hcm|]. split; [exact Hd|]. split; [exact Htr|].
    apply Hbal. split; [reflexivity|]. intros s.
    split; [reflexivity|]. split; [reflexivity|].
    split; intros i _; discriminate.
Defined.

(** Slot [j] of a fetched array holds the answer of the runtime for index
    [i + j]. *)
Lemma fetched_get g : forall k i h j,
  (j < k)%nat ->
  option_map (option_map snd) (nth_error (fetched g k i h) j)
  = Some (g (i + Z.of_nat j)).
Proof.
  induction k as [|k IH]; intros i h j Hj; [lia|].
  cbn [fetched]. destruct j as [|j].
  - rewrite Z.add_0_r. destruct (g i); reflexivity.
  - replace (i + Z.of_nat (S j)) with (i + 1 + Z.of_nat j) by lia.
    destruct (g i); cbn [nth_error]; apply IH; lia.
Qed.

(** X17. Under the conditions of X16, the session that
    [onnx_create_session] returns holds the runtime's default allocator, the
    counts the runtime reported for its graph (0 for a count query that
    failed), and in slot [i] of each name array the name the runtime
    reported for index [i], or null where that query failed. *)
Theorem created_session_names w ort env model_path :
  g_ort w = Some ort -> g_env w = Some env -> heap_never_full w ->
  first_failure (create_answers ort model_path) = None ->
  counts_fit ort ->
  exists blk sess w1 s bi slots_in bo slots_out,
    onnx_create_session model_path w = Done (Some (blk, sess)) w1
    /\ session sess = Some s
    /\ allocator sess = Some default_allocator
    /\ input_names sess = Some (bi, slots_in)
    /\ output_names sess = Some (bo, slots_out)
    /\ num_inputs sess = count_of (SessionGetInputCount ort s)
    /\ num_outputs sess = count_of (SessionGetOutputCount ort s)
    /\ (forall i, 0 <= i < num_inputs sess ->
          option_map (option_map snd) (get slots_in i)
          = Some (SessionGetInputName ort s i))
    /\ (forall i, 0 <= i < num_outputs sess ->
          option_map (option_map snd) (get slots_out i)
          = Some (SessionGetOutputName ort s i)).
Proof.
  intros Hort Henv Hheap Hans Hfit.
  rewrite (create_session_built w ort env model_path Hort Henv Hheap Hans
             Hfit).
  destruct (Hfit (built_session_handle ort (host w) (fresh w)))
    as [Hin Hout].
  do 8 eexists. split; [reflexivity|]. unfold built_session.
  cbn [session allocator input_names output_names num_inputs num_outputs].
  do 6 (split; [reflexivity|]).
  split; intros i Hi; unfold get, built_inputs, built_outputs;
    (destruct (Z.ltb_spec i 0); [lia|]);
    rewrite fetched_get by lia; rewrite Z.add_0_l, Z2Nat.id by lia;
    reflexivity.
Qed.

(** The hypotheses of X17 hold right after [onnx_init] for the sample
    runtime and a heap that never refuses. *)
Lemma created_session_names_witness :
  exists blk sess w1 s bi slots_in bo slots_out,
    onnx_create_session (Some "asr.onnx"%string)
      (ready_world (sample_platform (sample_api failing_run))
                   (sample_api failing_run))
    = Done (Some (blk, sess)) w1
    /\ session sess = Some s
    /\ allocator sess = Some default_allocator
    /\ input_names sess = Some (bi, slots_in)
    /\ output_names sess = Some (bo, slots_out)
    /\ num_inputs sess
       = count_of (SessionGetInputCount (sample_api failing_run) s)
    /\ num_outputs sess
       = count_of (SessionGetOutputCount (sample_api failing_run) s)
    /\ (forall i, 0 <= i < num_inputs sess ->
          option_map (option_map snd) (get slots_in i)
          = Some (SessionGetInputName (sample_api failing_run) s i))
    /\ (forall i, 0 <= i < num_outputs sess ->
          option_map (option_map snd) (get slots_out i)
          = Some (SessionGetOutputName (sample_api failing_run) s i)).
Proof.
  apply (created_session_names
           (ready_world (sample_platform (sample_api failing_run))
                        (sample_api failing_run))
           (sample_api failing_run) 1%nat (Some "asr.onnx"%string)).
  - reflexivity.
  - reflexivity.
  - intros h. reflexivity.
  - reflexivity.
  - intros s. simpl. lia.
Defined.


Lemma built_held_late_kinds ort p f o :
  In o (built_held_late ort p f) -> fst o = KName \/ fst o = KHeap.
Proof.
  unfold built_held_late. rewrite !in_app_iff, !in_map_iff. cbn [In].
  intros [(x & <- & _) | [[<- | []] | [(x & <- & _) | [<- | [<- | []]]]]];
    cbn [fst]; auto.
Qed.

(** X18. A session has to be destroyed before [onnx_cleanup]: when
    [onnx_cleanup] runs between [onnx_create_session] and
    [onnx_destroy_session], all three calls complete, the environment, the
    names, the name arrays and the session block are released, and the
    session object and the session options are still held at the end, since
    [onnx_destroy_session] releases them only while the runtime is
    initialized.  The only other objects left are the statuses that
    [onnx_create_session] dropped; there is none when no option setter,
    count query or name query fails. *)
Theorem cleanup_before_destroy_leaks w ort env model_path :
  g_ort w = Some ort -> g_env w = Some env -> heap_never_full w ->
  first_failure (create_answers ort model_path) = None ->
  counts_fit ort ->
  exists blk sess w1 w2 w3 s o evs dropped,
    onnx_create_session model_path w = Done (Some (blk, sess)) w1
    /\ session sess = Some s /\ options sess = Some o
    /\ onnx_cleanup w1 = Done tt w2
    /\ onnx_destroy_session (Some (blk, sess)) w2 = Done tt w3
    /\ trace w3 = trace w ++ evs
    /\ ends_in [(KEnv, env)] evs
               ([(KSession, s); (KSessionOptions, o)] ++ dropped)
    /\ only_statuses dropped
    /\ (create_clean ort -> dropped = []).
Proof.
  intros Hort Henv Hheap Hans Hfit.
  do 8 eexists. exists (built_dropped ort (host w) (fresh w)).
  split; [exact (create_session_built w ort env model_path Hort Henv Hheap
                   Hans Hfit)|].
  unfold built_session at 1 2. cbn [session options].
  split; [reflexivity|]. split; [reflexivity|].
  split.
  { unfold onnx_cleanup. exec. rewrite Hort, Henv. exec. reflexivity. }
  split; [apply (destroy_built_late _ ort); [reflexivity | exact Hfit]|].
  split.
  { unfold trace. cbn [log rev].
    repeat (progress (rewrite ?rev_app_distr, ?rev_involutive;
                      cbn [rev app]; rewrite <- ?app_assoc; cbn [app])).
    reflexivity. }
  split; [|split; [apply built_dropped_statuses
                  | intros Hclean; now apply built_clean]].
  set (p := host w). set (f := fresh w).
  apply (ends_in_app _ _ (built_second ort p f ++ built_first ort f
                            ++ [(KEnv, env)])).
  { apply built_acquired.
    - intros o Hin [<- | []]. now apply (built_not_env _ _ _ _ Hin).
    - intros [Heq | []]. discriminate Heq. }
  apply (ends_in_app _ [Release KEnv env]
                     (built_held ort p f ++ built_dropped ort p f)).
  { apply (ends_in_same _ ([(KEnv, env)]
                             ++ built_held ort p f ++ built_dropped ort p f)).
    - apply same_live_in. intros o.
      rewrite (proj1 (same_live_in _ _)
                 (built_partition ort p f [(KEnv, env)]) o).
      rewrite !in_app_iff. cbn [In]. tauto.
    - apply (ends_in_release_objs [(KEnv, env)]).
      + repeat constructor. intros [].
      + intros o [<- | []]. rewrite in_app_iff, built_held_spec,
          built_dropped_spec.
        intros [[Hin _] | [Hin _]]; now apply (built_not_env _ _ _ _ Hin). }
  apply (ends_in_same _ (built_held_late ort p f
                           ++ [(KSession, built_session_handle ort p f);
                               (KSessionOptions, S f)]
                           ++ built_dropped ort p f)).
  { apply same_live_in. intros o.
    rewrite !in_app_iff, built_held_late_spec. cbn [In].
    intuition. }
  apply ends_in_release_objs; [apply built_held_late_NoDup|].
  intros o Hin. rewrite in_app_iff. cbn [In].
  intros [[<- | [<- | []]] | Hd].
  - destruct (built_held_late_kinds _ _ _ _ Hin) as [H | H]; discriminate H.
  - destruct (built_held_late_kinds _ _ _ _ Hin) as [H | H]; discriminate H.
  - revert Hd. apply held_not_dropped. apply built_held_late_spec. now left.
Qed.

(** The hypotheses of X18 hold right after [onnx_init] for the sample
    runtime and a heap that never refuses. *)
Lemma cleanup_before_destroy_leaks_witness :
  exists blk sess w1 w2 w3 s o evs,
    onnx_create_session (Some "vad.onnx"%string)
      (ready_world (sample_platform (sample_api failing_run))
                   (sample_api failing_run))
    = Done (Some (blk, sess)) w1
    /\ session sess = Some s /\ options sess = Some o
    /\ onnx_cleanup w1 = Done tt w2
    /\ onnx_destroy_session (Some (blk, sess)) w2 = Done tt w3
    /\ trace w3
       = trace (ready_world (sample_platform (sample_api failing_run))
                            (sample_api failing_run)) ++ evs
    /\ ends_in [(KEnv, 1%nat)] evs [(KSession, s); (KSessionOptions, o)].
Proof.
  destruct (cleanup_before_destroy_leaks
              (ready_world (sample_platform (sample_api failing_run))
                           (sample_api failing_run))
              (sample_api failing_run) 1%nat (Some "vad.onnx"%string))
    as (blk & sess & w1 & w2 & w3 & s & o & evs & dropped & Hc & Hs & Ho
        & Hcl & Hd & Htr & Hends & _ & Hnone).
  - reflexivity.
  - reflexivity.
  - intros h. reflexivity.
  - reflexivity.
  - intros s. simpl. lia.
  - exists blk, sess, w1, w2, w3, s, o, evs. split; [exact Hc|].
    split; [exact Hs|]. split; [exact Ho|]. split; [exact Hcl|].
    split; [exact Hd|]. split; [exact Htr|].
    rewrite Hnone in Hends; [exact Hends|].
    split; [reflexivity|]. intros h.
    split; [reflexivity|]. split; [reflexivity|].
    split; intros i _; discriminate.
Defined.

(** X3 at work: a short message is stored whole. *)
Lemma set_error_stores_prefix_witness :
  exists w',
    set_error "Invalid session" (initial_world (sample_platform (sample_api failing_run)))
    = Done tt w'
    /\ g_error_msg w' = "Invalid session"%string.
Proof.
  destruct (set_error_stores_prefix
              "Invalid session"
              (initial_world (sample_platform (sample_api failing_run))))
    as (w' & Hrun & _ & _ & Hshort & _).
  exists w'. split; [exact Hrun|]. apply Hshort. simpl. lia.
Defined.

(** X4 at work: a recognition call whose graph fails returns and leaves the
    runtime initialised. *)
Lemma calls_keep_runtime_witness :
  exists r w',
    onnx_run_asr sample_handle (Some [1; 2]) 1 2 None 0
                 (sample_world (sample_api failing_run)) = Done r w'
    /\ same_runtime (sample_world (sample_api failing_run)) w'.
Proof.
  destruct (onnx_run_asr sample_handle (Some [1; 2]) 1 2 None 0
                         (sample_world (sample_api failing_run)))
    as [|r w'] eqn:E; [vm_compute in E; discriminate E|].
  exists r, w'. split; [reflexivity|].
  exact (proj1 (proj2 calls_keep_runtime) _ _ _ _ _ _ _ _ _ E).
Defined.

(** X5 at work: a message of 319 characters reported by the runtime is
    stored within the buffer. *)
Lemma error_message_always_fits_witness :
  exists r w',
    onnx_run_speaker sample_handle None 1 None
      (sample_world
         (sample_api
            (fun _ _ _ =>
               RunFailed (Some (String.concat "-"%string
                                  (repeat "failure"%string 40))))))
    = Done r w'
    /\ (String.length (g_error_msg w') <= 255)%nat.
Proof.
  destruct (onnx_run_speaker sample_handle None 1 None
              (sample_world
                 (sample_api
                    (fun _ _ _ =>
                       RunFailed (Some (String.concat "-"%string
                                          (repeat "failure"%string 40)))))))
    as [|r w'] eqn:E; [vm_compute in E; discriminate E|].
  exists r, w'. split; [reflexivity|].
  apply (proj2 (proj2 (proj2 (proj2 (proj2 (proj2 (proj2
           error_message_always_fits)))))) _ _ _ _ _ _ _ E).
  simpl. lia.
Defined.

(** The state buffer cannot be built from a refused block or from state
    inputs that are null or short. *)
Lemma pack_state_faults h_in c_in w :
  heap_ok (host w) (fresh w) = false
  \/ h_in = None \/ c_in = None
  \/ (exists h, h_in = Some h /\ Z.of_nat (length h) < 128)
  \/ (exists c, c_in = Some c /\ Z.of_nat (length c) < 128) ->
  pack_state h_in c_in w = Fault.
Proof.
  intros Hbad. unfold pack_state, bind, get_world, malloc, bind, get_world.
  destruct (heap_ok (host w) (fresh w)) eqn:Eh; [|reflexivity].
  cbn [new_handle ret lift bind].
  destruct Hbad as [Hbad | [-> | Hbad]]; [discriminate | reflexivity |].
  destruct h_in as [h|]; [|reflexivity]. cbn [lift ret].
  destruct (Z_lt_le_dec (Z.of_nat (length h)) 128) as [Hshort | Hlong].
  { rewrite (memcpy_overrun _ h 0 0 128) by lia. reflexivity. }
  rewrite (memcpy_eq _ h 0 0 128) by (rewrite ?repeat_length; lia).
  cbn [lift ret].
  destruct Hbad as [-> | [(h' & [= <-] & Hh) | (c & -> & Hc)]];
    [reflexivity | lia |].
  cbn [lift ret]. rewrite (memcpy_overrun _ c 128 0 128) by lia.
  reflexivity.
Qed.

(** X20. [onnx_run_vad] checks neither the result of [malloc] nor [h_in] and
    [c_in].  Once the memory info and the audio tensor have been created, a
    refused allocation of the state buffer, a null [h_in] or [c_in], or one
    that holds fewer than 128 floats makes the call read or write through an
    invalid pointer instead of returning -1. *)
Theorem vad_unchecked_state w blk sess ort audio audio_len h_in c_in
        prob_out h_out c_out :
  initialized w ort ->
  CreateCpuMemoryInfo ort = Ok ->
  CreateTensorWithDataAsOrtValue ort (vad_audio_tensor audio audio_len) = Ok ->
  heap_ok (host w) (S (S (fresh w))) = false
  \/ h_in = None \/ c_in = None
  \/ (exists h, h_in = Some h /\ Z.of_nat (length h) < 128)
  \/ (exists c, c_in = Some c /\ Z.of_nat (length c) < 128) ->
  onnx_run_vad (Some (blk, sess)) audio audio_len h_in c_in
               prob_out h_out c_out w = Fault.
Proof.
  intros Hg Hmi Ht0 Hbad. destruct w as [p go ge em fr lg].
  unfold initialized in Hg. cbn in Hg. subst go. cbn [host fresh] in Hbad.
  unfold onnx_run_vad. exec. rewrite Hmi. exec. rewrite Ht0. exec.
  unfold bind at 1. rewrite pack_state_faults; [reflexivity | exact Hbad].
Qed.

(** The hypotheses of X20 hold for a heap that refuses every block. *)
Lemma vad_unchecked_state_witness :
  onnx_run_vad sample_handle (Some [0; 0]) 2
               (Some (constant_state 1)) (Some (constant_state 2))
               (Some 0) None None
               (mkWorld (mkPlatform (Some (sample_api failing_run)) Ok
                                    (fun _ => false) 0)
                        (Some (sample_api failing_run)) (Some 1%nat)
                        EmptyString 9%nat [])
  = Fault.
Proof.
  apply (vad_unchecked_state
           (mkWorld (mkPlatform (Some (sample_api failing_run)) Ok
                                (fun _ => false) 0)
                    (Some (sample_api failing_run)) (Some 1%nat)
                    EmptyString 9%nat [])
           2%nat sample_session (sample_api failing_run)).
  - reflexivity.
  - reflexivity.
  - reflexivity.
  - left. reflexivity.
Defined.

(** X21. [onnx_run_asr] and [onnx_run_speaker] read slot 0 of the session's
    name arrays without looking at the counts.  On a session whose input or
    output name array is null or has no slot (a graph that reports no input
    or no output), once the memory info and the input tensor have been
    created, both calls read through an invalid pointer instead of returning
    -1. *)
Theorem run_without_names w blk sess ort mel_lfr frames features logits_out
        max_output_size fbank sframes embedding_out :
  initialized w ort ->
  CreateCpuMemoryInfo ort = Ok ->
  (forall t, CreateTensorWithDataAsOrtValue ort t = Ok) ->
  input_names sess = None
  \/ (exists b, input_names sess = Some (b, []))
  \/ output_names sess = None
  \/ (exists b, output_names sess = Some (b, [])) ->
  onnx_run_asr (Some (blk, sess)) mel_lfr frames features logits_out
               max_output_size w = Fault
  /\ onnx_run_speaker (Some (blk, sess)) fbank sframes embedding_out w
     = Fault.
Proof.
  intros Hg Hmi Ht Hbad. destruct w as [p go ge em fr lg].
  unfold initialized in Hg. cbn in Hg. subst go.
  assert (Hnames : forall w0,
             bind (first_name (input_names sess))
                  (fun i => bind (first_name (output_names sess))
                                 (fun o => ret (i, o))) w0 = Fault).
  { intros w0. unfold bind.
    destruct Hbad as [-> | [(b & ->) | Hbad]]; try reflexivity.
    destruct (first_name (input_names sess) w0); [reflexivity|].
    destruct Hbad as [-> | (b & ->)]; reflexivity. }
  split.
  - unfold onnx_run_asr. exec. rewrite Hmi. exec. rewrite Ht. exec.
    unfold bind at 1.
    specialize (Hnames (mkWorld p (Some ort) ge em (S (S fr))
                          (Acquire KValue (S fr)
                           :: Acquire KMemoryInfo fr :: lg))).
    unfold bind in Hnames.
    destruct (first_name (input_names sess) _) as [|i w1]; [reflexivity|].
    unfold bind at 1.
    destruct (first_name (output_names sess) w1) as [|o w2];
      [reflexivity | discriminate Hnames].
  - unfold onnx_run_speaker. exec. rewrite Hmi. exec. rewrite Ht. exec.
    unfold bind at 1.
    specialize (Hnames (mkWorld p (Some ort) ge em (S (S fr))
                          (Acquire KValue (S fr)
                           :: Acquire KMemoryInfo fr :: lg))).
    unfold bind in Hnames.
    destruct (first_name (input_names sess) _) as [|i w1]; [reflexivity|].
    unfold bind at 1.
    destruct (first_name (output_names sess) w1) as [|o w2];
      [reflexivity | discriminate Hnames].
Qed.

(** The hypotheses of X21 hold for a session whose arrays are empty. *)
Lemma run_without_names_witness :
  onnx_run_asr
    (Some (2%nat, mkSession (Some 4%nat) (Some 3%nat) (Some default_allocator)
                            (Some (5%nat, [])) (Some (6%nat, [])) 0 0))
    (Some [1; 2]) 1 2 (Some [0]) 1 (sample_world (sample_api failing_run))
  = Fault
  /\ onnx_run_speaker
       (Some (2%nat, mkSession (Some 4%nat) (Some 3%nat)
                               (Some default_allocator)
                               (Some (5%nat, [])) (Some (6%nat, [])) 0 0))
       (Some (repeat 0 24)) 1 (Some (repeat 0 512))
       (sample_world (sample_api failing_run))
     = Fault.
Proof.
  apply (run_without_names
           (sample_world (sample_api failing_run)) 2%nat
           (mkSession (Some 4%nat) (Some 3%nat) (Some default_allocator)
                      (Some (5%nat, [])) (Some (6%nat, [])) 0 0)
           (sample_api failing_run)).
  - reflexivity.
  - reflexivity.
  - intros t. reflexivity.
  - right. left. now exists 5%nat.
Defined.

(** *** A whole session *)

#[local] Instance grows_preorder : PreOrder grows.
Proof.
  split.
  - intros w. exists []. split; [reflexivity|]. split; [lia|].
    intros k h [].
  - intros a b c (e1 & H1 & F1 & A1) (e2 & H2 & F2 & A2).
    exists (e2 ++ e1). split; [now rewrite H2, H1, app_assoc|].
    split; [lia|]. intros k h Hin. apply in_app_iff in Hin.
    destruct Hin as [Hin | Hin];
      [pose proof (A2 k h Hin) | pose proof (A1 k h Hin)]; lia.
Qed.

Lemma grows_release k h : steady grows (emit (Release k h)).
Proof.
  intros w r w' [= _ <-]. exists [Release k h]. cbn [log fresh].
  split; [reflexivity|]. split; [lia|].
  intros k' h' [Heq | []]. discriminate Heq.
Qed.

Lemma grows_printf msg : steady grows (emit (Printf msg)).
Proof.
  intros w r w' [= _ <-]. exists [Printf msg]. cbn [log fresh].
  split; [reflexivity|]. split; [lia|].
  intros k' h' [Heq | []]. discriminate Heq.
Qed.

Lemma grows_new k : steady grows (new_handle k).
Proof.
  intros w r w' [= _ <-]. exists [Acquire k (fresh w)]. cbn [log fresh].
  split; [reflexivity|]. split; [lia|].
  intros k' h' [[= _ <-] | []]. lia.
Qed.

Lemma grows_error msg : steady grows (set_error msg).
Proof.
  intros w r w' [= _ <-]. exists []. cbn [log fresh].
  split; [reflexivity|]. split; [lia|]. intros k' h' [].
Qed.

(** What a call acquires is new: a call that appended [evs] to the history
    only acquired handles between the counter it found and the one it
    left. *)
Lemma grows_trace w w' evs :
  grows w w' -> trace w' = trace w ++ evs ->
  (fresh w <= fresh w')%nat
  /\ (forall k h, In (Acquire k h) evs -> (fresh w <= h < fresh w')%nat).
Proof.
  intros (e & Hlog & Hfresh & Hacq) Htr. split; [exact Hfresh|].
  unfold trace in Htr. rewrite Hlog, rev_app_distr in Htr.
  apply app_inv_head in Htr. subst evs.
  intros k h Hin. apply in_rev in Hin. exact (Hacq k h Hin).
Qed.

(** A call whose events leave [left] when replayed alone leaves [left] and
    the objects that were live before. *)
Lemma call_aside w w' evs left :
  grows w w' -> trace w' = trace w ++ evs ->
  settle [] evs = Some left ->
  (forall o, In o left -> (fresh w <= snd o < fresh w')%nat)
  /\ (forall L, (forall o, In o L -> (snd o < fresh w)%nat) ->
                ends_in L evs (left ++ L)).
Proof.
  intros Hgrow Htr Hs.
  destruct (grows_trace w w' evs Hgrow Htr) as [Hfresh Hacq]. split.
  - intros [k h] Hin.
    destruct (settle_origin _ _ _ _ _ Hs Hin) as [[] | Ha].
    exact (Hacq k h Ha).
  - intros L Hold. apply (settle_aside evs [] left L Hs).
    + intros o [].
    + intros k h Hin Hl. pose proof (Hacq k h Hin).
      pose proof (Hold _ Hl) as Ho. cbn in Ho. lia.
Qed.

(** One inference call on a live session: it returns, the runtime stays as
    it is, whatever is live outside the call stays live, and what the call
    adds are the statuses it dropped. *)
Lemma infer_aside w blk sess ort c :
  initialized w ort -> heap_never_full w ->
  (reports_names ort -> has_names sess) ->
  inference_ok (heap_junk (host w)) ort c ->
  exists rc w' evs left,
    infer (Some (blk, sess)) c w = Done rc w'
    /\ same_runtime w w'
    /\ (fresh w <= fresh w')%nat
    /\ trace w' = trace w ++ evs
    /\ only_statuses left
    /\ (forall o, In o left -> (fresh w <= snd o < fresh w')%nat)
    /\ (inference_clean ort c -> left = [])
    /\ (forall L, (forall o, In o L -> (snd o < fresh w)%nat) ->
                  ends_in L evs (left ++ L)).
Proof.
  intros Hg Hheap Hnames Hok.
  assert (Hdone : exists rc w' evs left,
             infer (Some (blk, sess)) c w = Done rc w'
             /\ trace w' = trace w ++ evs
             /\ settle [] evs = Some left
             /\ only_statuses left
             /\ (inference_clean ort c -> left = [])
             /\ same_runtime w w' /\ grows w w').
  { destruct c as [audio audio_len h_in c_in prob_out h_out c_out
                  | mel_lfr frames features logits_out max_output_size
                  | fbank frames embedding_out];
      cbn [inference_ok inference_clean] in *.
    - destruct Hok as (Hh & Hc & Hho & Hco & Hans).
      destruct (vad_exits w (Some (blk, sess)) audio audio_len h_in c_in
                          prob_out h_out c_out Hheap Hh Hc Hho Hco)
        as (r & w' & evs & left & Hrun & Htr & Hs & Hst & _ & Hclean & _).
      { intros ort' s outs Hort'. unfold initialized in *.
        rewrite Hg in Hort'. injection Hort' as <-. apply Hans. }
      exists (vad_rc r), w', evs, left. cbn [infer]. unfold bind.
      rewrite Hrun.
      split; [reflexivity|]. split; [exact Htr|]. split; [exact Hs|].
      split; [exact Hst|]. split.
      { intros Hc0. apply Hclean. intros ort' s outs Hort'.
        unfold initialized in *. rewrite Hg in Hort'.
        injection Hort' as <-. apply Hc0. }
      split.
      + exact (steady_run_vad same_runtime same_runtime_release
                 same_runtime_new same_runtime_error
                 _ _ _ _ _ _ _ _ _ _ _ Hrun).
      + exact (steady_run_vad grows grows_release grows_new grows_error
                 _ _ _ _ _ _ _ _ _ _ _ Hrun).
    - destruct Hok as (Hrep & Hans).
      destruct (Hnames Hrep) as (bi & si & ri & bo & so & ro & Hin & Hout).
      destruct (asr_exits w blk sess ort mel_lfr frames features logits_out
                          max_output_size bi si ri bo so ro Hg Hheap Hin Hout)
        as (rc & l' & w' & evs & left & Hrun & Htr & Hs & Hst & Hclean & _);
        [intros outs; apply Hans|].
      exists rc, w', evs, left. cbn [infer]. unfold bind. rewrite Hrun.
      split; [reflexivity|]. split; [exact Htr|]. split; [exact Hs|].
      split; [exact Hst|]. split.
      { intros Hc0. apply Hclean. intros outs. apply Hc0. }
      split.
      + exact (steady_run_asr same_runtime same_runtime_release
                 same_runtime_new same_runtime_error
                 _ _ _ _ _ _ _ _ _ Hrun).
      + exact (steady_run_asr grows grows_release grows_new grows_error
                 _ _ _ _ _ _ _ _ _ Hrun).
    - destruct Hok as (Hrep & Hans).
      destruct (Hnames Hrep) as (bi & si & ri & bo & so & ro & Hin & Hout).
      destruct (speaker_exits w blk sess ort fbank frames embedding_out
                              bi si ri bo so ro Hg Hin Hout)
        as (rc & l' & w' & evs & left & Hrun & Htr & Hs & Hst & _ & Hclean
            & _);
        [intros outs; apply Hans|].
      exists rc, w', evs, left. cbn [infer]. unfold bind. rewrite Hrun.
      split; [reflexivity|]. split; [exact Htr|]. split; [exact Hs|].
      split; [exact Hst|]. split.
      { intros Hc0. apply Hclean. intros outs. apply Hc0. }
      split.
      + exact (steady_run_speaker same_runtime same_runtime_release
                 same_runtime_new same_runtime_error
                 _ _ _ _ _ _ _ Hrun).
      + exact (steady_run_speaker grows grows_release grows_new grows_error
                 _ _ _ _ _ _ _ Hrun). }
  destruct Hdone as (rc & w' & evs & left & Hrun & Htr & Hs & Hst & Hclean
                     & Hsame & Hgrow).
  destruct (call_aside w w' evs left Hgrow Htr Hs) as [Hnew Hside].
  destruct (grows_trace w w' evs Hgrow Htr) as [Hfresh _].
  exists rc, w', evs, left. split; [exact Hrun|]. split; [exact Hsame|].
  split; [exact Hfresh|]. split; [exact Htr|]. split; [exact Hst|].
  split; [exact Hnew|]. split; [exact Hclean | exact Hside].
Qed.

(** A run of inference calls on a live session. *)
Lemma infer_all_aside blk sess ort cs : forall w,
  initialized w ort -> heap_never_full w ->
  (reports_names ort -> has_names sess) ->
  Forall (inference_ok (heap_junk (host w)) ort) cs ->
  exists rcs w' evs left,
    infer_all (Some (blk, sess)) cs w = Done rcs w'
    /\ length rcs = length cs
    /\ same_runtime w w'
    /\ (fresh w <= fresh w')%nat
    /\ trace w' = trace w ++ evs
    /\ only_statuses left
    /\ (forall o, In o left -> (fresh w <= snd o < fresh w')%nat)
    /\ (Forall (inference_clean ort) cs -> left = [])
    /\ (forall L, (forall o, In o L -> (snd o < fresh w)%nat) ->
                  ends_in L evs (left ++ L)).
Proof.
  induction cs as [|c cs IH]; intros w Hg Hheap Hnames Hok.
  - exists [], w, [], []. cbn [infer_all ret length].
    split; [reflexivity|]. split; [reflexivity|]. split; [reflexivity|].
    split; [lia|]. split; [now rewrite app_nil_r|].
    split; [constructor|]. split; [intros o []|]. split; [reflexivity|].
    intros L _. exists L. split; [reflexivity | now intros o].
  - inversion Hok as [|? ? Hc Hcs]; subst.
    destruct (infer_aside w blk sess ort c Hg Hheap Hnames Hc)
      as (rc & w1 & e1 & l1 & Hrun1 & Hsame1 & Hfresh1 & Htr1 & Hst1 & Hnew1
          & Hclean1 & Hside1).
    destruct Hsame1 as (Hhost & Hort & Henv).
    destruct (IH w1) as (rcs & w2 & e2 & l2 & Hrun2 & Hlen & Hsame2 & Hfresh2
                         & Htr2 & Hst2 & Hnew2 & Hclean2 & Hside2); auto.
    { unfold initialized in *. congruence. }
    { unfold heap_never_full in *. now rewrite Hhost. }
    { now rewrite Hhost. }
    exists (rc :: rcs), w2, (e1 ++ e2), (l2 ++ l1). cbn [infer_all].
    unfold bind at 1. rewrite Hrun1. unfold bind at 1. rewrite Hrun2.
    cbn [ret length].
    split; [reflexivity|]. split; [now rewrite Hlen|].
    split; [destruct Hsame2 as (H1 & H2 & H3); repeat split; congruence|].
    split; [lia|].
    split; [now rewrite Htr2, Htr1, app_assoc|].
    split; [apply Forall_app; now split|].
    split.
    { intros o Hin. apply in_app_iff in Hin. destruct Hin as [Hin | Hin];
        [pose proof (Hnew2 o Hin) | pose proof (Hnew1 o Hin)]; lia. }
    split.
    { intros Hall. inversion Hall as [|? ? Hc0 Hcs0]; subst.
      now rewrite (Hclean1 Hc0), (Hclean2 Hcs0). }
    intros L Hold. rewrite <- app_assoc.
    apply (ends_in_app _ _ (l1 ++ L)); [now apply Hside1|].
    apply Hside2. intros o Hin. apply in_app_iff in Hin.
    destruct Hin as [Hin | Hin];
      [pose proof (Hnew1 o Hin) | pose proof (Hold o Hin)];
      unfold obj, handle in *; lia.
Qed.

Lemma init_fresh p ort :
  OrtGetApi p = Some ort -> CreateEnv ort = Ok ->
  onnx_init (initial_world p) = Done 0 (ready_world p ort).
Proof.
  intros Hapi Henv. unfold onnx_init, initial_world, ready_world. exec.
  unfold bind at 1, set_g_ort at 1.
  cbn [host g_ort g_env g_error_msg fresh log]. rewrite Hapi. exec.
  rewrite Henv. exec. reflexivity.
Qed.

(** X22. A whole session, from start-up to shutdown, leaves nothing but the
    statuses it dropped.  With a runtime that creates its environment and
    the session, a heap that does not refuse and name counts whose arrays
    can be allocated: [onnx_init], then [onnx_create_session], then any
    sequence of [onnx_run_vad], [onnx_run_asr] and [onnx_run_speaker] calls
    whose buffers fit and whose successful graph executions hand back what
    the call reads unchecked (each runtime call of an inference may succeed
    or fail), then [onnx_destroy_session], then [onnx_cleanup] all return;
    there is one return code for each inference call; the runtime is
    uninitialized at the end; every object acquired since start-up is
    released at most once and only after its acquisition; and the only
    objects still live at the end are statuses: those of the calls whose
    result the wrapper does not look at (option setters, count and name
    queries, shape and data queries on outputs).  When none of these calls
    fails, every object acquired since start-up has been released exactly
    once. *)
Theorem whole_session_accounting p ort model_path cs :
  OrtGetApi p = Some ort -> CreateEnv ort = Ok ->
  (forall h, heap_ok p h = true) ->
  first_failure (create_answers ort model_path) = None ->
  counts_fit ort ->
  Forall (inference_ok (heap_junk p) ort) cs ->
  exists rcs w' live,
    session_run model_path cs (initial_world p) = Done rcs w'
    /\ length rcs = length cs
    /\ uninitialized w'
    /\ settle [] (trace w') = Some live
    /\ only_statuses live
    /\ (create_clean ort -> Forall (inference_clean ort) cs ->
        released_exactly_once (trace w')).
Proof.
  intros Hapi Henv Hheap Hans Hfit Hok.
  unfold session_run. unfold bind at 1. rewrite (init_fresh p ort Hapi Henv).
  unfold bind at 1.
  rewrite (create_session_built (ready_world p ort) ort 1%nat model_path)
    by (auto; reflexivity).
  cbn [ready_world host g_ort g_env g_error_msg fresh log].
  unfold bind at 1.
  match goal with
  | |- context [infer_all ?sp cs ?w] =>
      destruct (infer_all_aside 2%nat (built_session ort p 2%nat) ort cs w)
        as (rcs & w3 & evs & left & Hrun & Hlen & Hsame & Hfresh & Htr & Hst
            & Hnew & Hclean & Hside);
        [reflexivity | exact Hheap | apply built_has_names | exact Hok |]
  end.
  rewrite Hrun.
  destruct Hsame as (Hhost & Hort & Hgenv).
  cbn [host g_ort g_env fresh] in Hhost, Hort, Hgenv, Hfresh, Hnew, Hside.
  unfold bind at 1. rewrite (destroy_built w3 ort p 2%nat Hort Hfit).
  unfold onnx_cleanup. exec. rewrite Hgenv, Hort. exec.
  unfold bind, set_g_env, set_g_ort, ret.
  cbn [host g_ort g_env g_error_msg fresh log].
  assert (Hends : ends_in []
                    ([Acquire KEnv 1%nat] ++ built_events ort p 2%nat ++ evs
                       ++ built_releases ort p 2%nat ++ [Release KEnv 1%nat])
                    (left ++ built_dropped ort p 2%nat)).
  { apply (ends_in_app _ [Acquire KEnv 1%nat] [(KEnv, 1%nat)]).
    { eexists. split; [reflexivity | now intros o]. }
    apply (ends_in_app _ (built_events ort p 2%nat)
             (built_held ort p 2%nat ++ built_dropped ort p 2%nat
                ++ [(KEnv, 1%nat)])).
    { destruct (built_apart_old [(KEnv, 1%nat)] ort p 2%nat) as [H1 H2].
      { intros o [<- | []]. cbn [snd]. lia. }
      destruct (built_acquired _ ort p 2%nat H1 H2) as (l & Hl & Sl).
      exists l. split; [exact Hl|]. intros o. rewrite (Sl o).
      apply built_partition. }
    apply (ends_in_app _ evs
             (built_held ort p 2%nat
                ++ left ++ built_dropped ort p 2%nat ++ [(KEnv, 1%nat)])).
    { destruct (Hside (built_held ort p 2%nat ++ built_dropped ort p 2%nat
                         ++ [(KEnv, 1%nat)])) as (l & Hl & Sl).
      { intros o Hin. rewrite app_assoc in Hin. apply in_app_iff in Hin.
        destruct Hin as [Hin | [<- | []]].
        - apply (built_live_old ort p 2%nat o Hin).
        - pose proof (ascending_le _ _ _ (built_ascending ort p 2%nat)).
          cbn [snd]. lia. }
      exists l. split; [exact Hl|]. intros o. rewrite (Sl o).
      apply eq_true_iff_eq. rewrite !is_live_in, !in_app_iff. tauto. }
    apply (ends_in_app _ (built_releases ort p 2%nat)
             ([(KEnv, 1%nat)] ++ left ++ built_dropped ort p 2%nat)).
    { apply (ends_in_same _ (built_held ort p 2%nat
                               ++ [(KEnv, 1%nat)] ++ left
                               ++ built_dropped ort p 2%nat)).
      { apply same_live_in. intros o. rewrite !in_app_iff. tauto. }
      apply built_released. intros o Hin. rewrite !in_app_iff. cbn [In].
      intros [[<- | []] | [Hl | Hd]].
      - pose proof (built_live_old ort p 2%nat _
                      (proj2 (in_app_iff _ _ _) (or_introl Hin))) as Hb.
        cbn [snd] in Hb. lia.
      - pose proof (built_live_old ort p 2%nat _
                      (proj2 (in_app_iff _ _ _) (or_introl Hin))).
        pose proof (Hnew o Hl). lia.
      - exact (held_not_dropped _ _ _ _ Hin Hd). }
    apply (ends_in_release_objs [(KEnv, 1%nat)]).
    - repeat constructor. intros [].
    - intros o [<- | []] Hin.
      assert (Hk : only_statuses (left ++ built_dropped ort p 2%nat))
        by (apply Forall_app; split;
            [exact Hst | apply built_dropped_statuses]).
      pose proof (proj1 (Forall_forall _ _) Hk _ Hin) as Hkind.
      discriminate Hkind. }
  destruct (ends_in_statuses _ _ Hends) as (live & Hl & Hsl & Hnone).
  { apply Forall_app; split; [exact Hst | apply built_dropped_statuses]. }
  assert (Htrace : forall lg,
             rev (Release KEnv 1%nat
                    :: rev (built_releases ort p 2%nat) ++ lg)
             = rev lg ++ built_releases ort p 2%nat ++ [Release KEnv 1%nat]).
  { intros lg. cbn [rev]. rewrite rev_app_distr, rev_involutive.
    now rewrite <- app_assoc. }
  do 2 eexists. exists live. split; [reflexivity|]. split; [exact Hlen|].
  split; [split; reflexivity|].
  unfold trace in *. cbn [log] in *. rewrite Htrace, Htr.
  cbn [rev app]. rewrite rev_app_distr, rev_involutive. cbn [rev app].
  rewrite <- !app_assoc. cbn [app] in Hl |- *.
  split; [exact Hl|]. split; [exact Hsl|].
  intros Hc1 Hc2. unfold released_exactly_once. rewrite Hl. f_equal.
  apply Hnone. rewrite (Hclean Hc2), (built_clean ort p 2%nat Hfit Hc1).
  reflexivity.
Qed.

(** The hypotheses of X22 hold for a session with one detection call that
    succeeds and one recognition call whose graph execution fails; no
    unchecked call of that session fails, and everything is released. *)
Lemma whole_session_accounting_witness :
  exists rcs w',
    session_run (Some "vad.onnx"%string)
                [Vad (Some [0; 0]) 2 (constant_state 1) (constant_state 2)
                     (Some 0) (Some (constant_state 0)) None;
                 Asr (Some [1; 2]) 1 2 (Some [0; 0]) 2]
                (initial_world (sample_platform (sample_api (echo_state 7))))
    = Done rcs w'
    /\ length rcs = 2%nat
    /\ uninitialized w'
    /\ released_exactly_once (trace w').
Proof.
  destruct (whole_session_accounting
              (sample_platform (sample_api (echo_state 7)))
              (sample_api (echo_state 7)) (Some "vad.onnx"%string)
              [Vad (Some [0; 0]) 2 (constant_state 1) (constant_state 2)
                   (Some 0) (Some (constant_state 0)) None;
               Asr (Some [1; 2]) 1 2 (Some [0; 0]) 2])
    as (rcs & w' & live & Hrun & Hlen & Hun & _ & _ & Hbal).
  - reflexivity.
  - reflexivity.
  - intros h. reflexivity.
  - reflexivity.
  - intros s. simpl. lia.
  - apply Forall_cons; [|apply Forall_cons; [|apply Forall_nil]].
    + cbn [inference_ok]. split; [simpl; lia|]. split; [simpl; lia|].
      split; [intros b [= <-]; simpl; lia|].
      split; [intros b Hb; discriminate Hb|].
      intros s outs [= <-]. do 3 eexists. split; [reflexivity|].
      split; intros b [= <-]; simpl; lia.
    + cbn [inference_ok]. split; [intros s; simpl; lia|].
      intros s i o outs Hrun0. discriminate Hrun0.
  - exists rcs, w'. split; [exact Hrun|]. split; [exact Hlen|].
    split; [exact Hun|]. apply Hbal.
    + split; [reflexivity|]. intros s.
      split; [reflexivity|]. split; [reflexivity|].
      split; intros i _; discriminate.
    + apply Forall_cons; [|apply Forall_cons; [|apply Forall_nil]].
      * cbn [inference_clean]. intros s outs [= <-] o [[= <-] | [[= <-] | []]];
          reflexivity.
      * cbn [inference_clean]. intros s i o outs Hrun0. discriminate Hrun0.
Defined.


(** X26. Every exit path of [onnx_run_vad] (no session or no runtime, a
    failing memory-info or tensor construction before or after the state
    buffer is allocated, a failing graph execution, success), for state
    inputs of 128 floats, output buffers that hold 128 floats, a heap that
    does not refuse and successful graph executions that hand back both
    output values, as large as the call reads them: the call returns 0 or
    -1; the state buffer, the memory info, the input and
    output tensors and the statuses of the checked calls are released
    exactly once; and the only objects that can survive the call are the
    statuses of failing [GetTensorMutableData] queries, which the call
    drops.  Nothing survives a call that returns -1, nor a call whose two
    data queries succeed. *)
Theorem vad_leaves_only_statuses w sp audio audio_len h c
        prob_out h_out c_out :
  heap_never_full w ->
  128 <= Z.of_nat (length h) -> 128 <= Z.of_nat (length c) ->
  room 128 h_out -> room 128 c_out ->
  (forall ort s outs,
      initialized w ort ->
      Run ort s (vad_inputs audio audio_len (firstn 128 h ++ firstn 128 c))
          vad_output_names = RunOk outs ->
      vad_answer_ok outs) ->
  exists r w' evs live,
    onnx_run_vad sp audio audio_len (Some h) (Some c) prob_out h_out c_out w
    = Done r w'
    /\ trace w' = trace w ++ evs
    /\ settle [] evs = Some live
    /\ only_statuses live
    /\ (vad_rc r = -1 -> live = [])
    /\ ((forall ort s outs,
            initialized w ort ->
            Run ort s
                (vad_inputs audio audio_len (firstn 128 h ++ firstn 128 c))
                vad_output_names = RunOk outs ->
            data_queries_ok outs) -> live = [])
    /\ (vad_rc r = 0 \/ vad_rc r = -1).
Proof. exact (vad_exits w sp audio audio_len h c prob_out h_out c_out). Qed.

(** The hypotheses of X26 hold for a graph that hands the state through;
    its data queries succeed, and everything is released. *)
Lemma vad_leaves_only_statuses_witness :
  exists r w' evs,
    onnx_run_vad sample_handle (Some [0; 0]) 2
                 (Some (constant_state 1)) (Some (constant_state 2))
                 (Some 0) (Some (constant_state 0)) None
                 (sample_world (sample_api (echo_state 7)))
    = Done r w'
    /\ trace w' = trace (sample_world (sample_api (echo_state 7))) ++ evs
    /\ released_exactly_once evs
    /\ (vad_rc r = 0 \/ vad_rc r = -1).
Proof.
  destruct (vad_leaves_only_statuses
              (sample_world (sample_api (echo_state 7))) sample_handle
              (Some [0; 0]) 2 (constant_state 1) (constant_state 2)
              (Some 0) (Some (constant_state 0)) None)
    as (r & w' & evs & live & Hrun & Htr & Hs & _ & _ & Hclean & Hrc).
  - intros h. reflexivity.
  - simpl. lia.
  - simpl. lia.
  - intros b Hb. injection Hb as <-. simpl. lia.
  - intros b Hb. discriminate Hb.
  - intros ort s outs Hort Hrun. injection Hort as <-.
    injection Hrun as <-.
    exists (mkOut [] (Some [7])),
           (mkOut [2; 1; 128]
                  (Some (firstn 128 (constant_state 1)
                         ++ firstn 128 (constant_state 2)))),
           [].
    split; [reflexivity|]. split.
    + intros b Hb. injection Hb as <-. simpl. lia.
    + intros b Hb. injection Hb as <-. simpl. lia.
  - exists r, w', evs. split; [exact Hrun|]. split; [exact Htr|].
    split; [|exact Hrc].
    unfold released_exactly_once. rewrite Hs. f_equal. apply Hclean.
    intros ort s outs Hort Hrun0. injection Hort as <-.
    injection Hrun0 as <-. intros o [[= <-] | [[= <-] | []]]; reflexivity.
Defined.

(** X27. [onnx_run_asr] does not check [GetTensorTypeAndShape].  When that
    query fails after a successful graph execution, the shape information
    stays null and the next call, [GetDimensionsCount], is handed the null
    pointer to read from. *)
Theorem asr_unchecked_shape w blk sess ort mel_lfr frames features
        logits_out max_output_size bi si ri bo so ro o msg rest :
  initialized w ort ->
  input_names sess = Some (bi, si :: ri) ->
  output_names sess = Some (bo, so :: ro) ->
  CreateCpuMemoryInfo ort = Ok ->
  CreateTensorWithDataAsOrtValue ort
    (asr_input_tensor mel_lfr frames features) = Ok ->
  Run ort (session sess)
      [(option_map snd si, asr_input_tensor mel_lfr frames features)]
      [option_map snd so] = RunOk (Some o :: rest) ->
  o_shape_status o = Failed msg ->
  onnx_run_asr (Some (blk, sess)) mel_lfr frames features logits_out
               max_output_size w = Fault.
Proof.
  intros Hg Hin Hout Hmi Hten Hrun Hshape.
  rewrite (asr_run w blk sess ort mel_lfr frames features logits_out
             max_output_size bi si ri bo so ro _ rest Hg Hin Hout Hmi Hten
             Hrun).
  unfold asr_extract, type_and_shape, dimensions_count. rewrite Hshape.
  reflexivity.
Qed.

(** The hypotheses of X27 hold for an output whose shape query fails. *)
Lemma asr_unchecked_shape_witness :
  onnx_run_asr sample_handle (Some [1; 2]) 1 2 (Some [0; 0]) 2
               (sample_world (sample_api (constant_output (Some shapeless))))
  = Fault.
Proof.
  apply (asr_unchecked_shape
           (sample_world (sample_api (constant_output (Some shapeless))))
           2%nat sample_session
           (sample_api (constant_output (Some shapeless)))
           (Some [1; 2]) 1 2 (Some [0; 0]) 2
           5%nat (Some (7%nat, "in"%string)) []
           6%nat (Some (8%nat, "out"%string)) []
           shapeless (Some "not a tensor"%string) []);
    reflexivity.
Defined.

(** X23. [onnx_run_asr] does not check the [malloc] of the dimension array.
    When that allocation is refused after a successful graph execution, an
    output of rank 1 or more makes the runtime write the dimensions through
    a null pointer; an output of rank 0 is handled as usual, as one
    element. *)
Theorem asr_unchecked_dims w blk sess ort mel_lfr frames features
        max_output_size bi si ri bo so ro dims odata rest :
  initialized w ort ->
  input_names sess = Some (bi, si :: ri) ->
  output_names sess = Some (bo, so :: ro) ->
  CreateCpuMemoryInfo ort = Ok ->
  CreateTensorWithDataAsOrtValue ort
    (asr_input_tensor mel_lfr frames features) = Ok ->
  Run ort (session sess)
      [(option_map snd si, asr_input_tensor mel_lfr frames features)]
      [option_map snd so] = RunOk (Some (mkOut dims odata) :: rest) ->
  heap_ok (host w) (S (S (S (S (fresh w))))) = false ->
  (dims <> [] ->
   forall logits_out,
     onnx_run_asr (Some (blk, sess)) mel_lfr frames features logits_out
                  max_output_size w = Fault)
  /\ (dims = [] -> 1 <= max_output_size ->
      exists w',
        onnx_run_asr (Some (blk, sess)) mel_lfr frames features None
                     max_output_size w = Done (1, None) w'
        /\ g_error_msg w' = g_error_msg w).
Proof.
  intros Hg Hin Hout Hmi Hten Hrun Hheap. split.
  - intros Hdims logits_out.
    rewrite (asr_run w blk sess ort mel_lfr frames features logits_out
               max_output_size bi si ri bo so ro _ rest Hg Hin Hout Hmi Hten
               Hrun).
    destruct w as [p go ge em fr lg]. cbn [host fresh] in Hheap.
    open_extract. exec. unfold bind at 1. unfold malloc.
    unfold bind at 1. cbn [get_world host fresh]. rewrite Hheap. exec.
    destruct dims; [contradiction | reflexivity].
  - intros -> Hmax.
    rewrite (asr_run w blk sess ort mel_lfr frames features None
               max_output_size bi si ri bo so ro _ rest Hg Hin Hout Hmi Hten
               Hrun).
    destruct w as [p go ge em fr lg]. cbn [host fresh] in Hheap.
    open_extract. exec. unfold bind at 1. unfold malloc.
    unfold bind at 1. cbn [get_world host fresh]. rewrite Hheap. exec.
    assert (Hone : to_int (output_size_of []) = 1) by reflexivity.
    unfold bind, ret, release, emit.
    cbn [host g_ort g_env g_error_msg fresh log]. rewrite Hone.
    destruct (Z.leb_spec 1 max_output_size) as [_|]; [|lia].
    destruct odata; eexists; split; reflexivity.
Qed.

(** The hypotheses of X23 hold for an output of shape (2, 3) on a heap that
    refuses every block. *)
Lemma asr_unchecked_dims_witness :
  onnx_run_asr sample_handle (Some [1; 2]) 1 2 (Some [0; 0; 0; 0; 0; 0]) 6
    (mkWorld (mkPlatform
                (Some (sample_api
                         (constant_output
                            (Some (mkOut [2; 3] (Some [1; 2; 3; 4; 5; 6]))))))
                Ok (fun _ => false) 0)
             (Some (sample_api
                      (constant_output
                         (Some (mkOut [2; 3] (Some [1; 2; 3; 4; 5; 6]))))))
             (Some 1%nat) EmptyString 9%nat [])
  = Fault.
Proof.
  apply (proj1 (asr_unchecked_dims
                  (mkWorld (mkPlatform
                              (Some (sample_api
                                       (constant_output
                                          (Some (mkOut [2; 3]
                                                   (Some [1; 2; 3; 4; 5; 6]))))))
                              Ok (fun _ => false) 0)
                           (Some (sample_api
                                    (constant_output
                                       (Some (mkOut [2; 3]
                                                (Some [1; 2; 3; 4; 5; 6]))))))
                           (Some 1%nat) EmptyString 9%nat [])
                  2%nat sample_session
                  (sample_api
                     (constant_output
                        (Some (mkOut [2; 3] (Some [1; 2; 3; 4; 5; 6])))))
                  (Some [1; 2]) 1 2 6
                  5%nat (Some (7%nat, "in"%string)) []
                  6%nat (Some (8%nat, "out"%string)) []
                  [2; 3] (Some [1; 2; 3; 4; 5; 6]) []
                  eq_refl eq_refl eq_refl eq_refl eq_refl eq_refl eq_refl)).
  discriminate.
Defined.

(** A state output that is too short cannot be split. *)
Lemma unpack_state_faults sd h_out c_out w :
  (exists hb, h_out = Some hb /\ Z.of_nat (length sd) < 128)
  \/ (exists cb, c_out = Some cb /\ Z.of_nat (length sd) < 256) ->
  unpack_state (Some sd) h_out c_out w = Fault.
Proof.
  intros Hbad. unfold unpack_state, bind.
  destruct h_out as [hb|].
  - destruct (memcpy hb 0 sd 0 (128 * sizeof_float)) as [b|] eqn:Eh;
      cbn [lift ret]; [|reflexivity].
    destruct Hbad as [(hb' & [= <-] & Hsd) | (cb & -> & Hsd)].
    + rewrite (memcpy_overrun hb sd 0 0 128) in Eh by lia. discriminate Eh.
    + rewrite (memcpy_overrun cb sd 0 128 128) by lia. reflexivity.
  - cbn [ret]. destruct Hbad as [(hb' & Hb & _) | (cb & -> & Hsd)];
      [discriminate Hb|].
    rewrite (memcpy_overrun cb sd 0 128 128) by lia. reflexivity.
Qed.

(** X24. [onnx_run_vad] never looks at the dimensions of its outputs.  After
    a successful graph execution, a state output with fewer than 128 floats
    and a non-null [h_out], or with fewer than 256 floats and a non-null
    [c_out], makes the call read past the state output, whatever shape the
    runtime reports for it. *)
Theorem vad_trusts_state_size w blk sess ort audio audio_len h c prob_out
        h_out c_out o0 dims sd rest :
  initialized w ort -> heap_never_full w ->
  128 <= Z.of_nat (length h) -> 128 <= Z.of_nat (length c) ->
  CreateCpuMemoryInfo ort = Ok ->
  (forall t, CreateTensorWithDataAsOrtValue ort t = Ok) ->
  Run ort (session sess)
      (vad_inputs audio audio_len (firstn 128 h ++ firstn 128 c))
      vad_output_names
  = RunOk (Some o0 :: Some (mkOut dims (Some sd)) :: rest) ->
  room 1 (o_data o0) ->
  (exists hb, h_out = Some hb /\ Z.of_nat (length sd) < 128)
  \/ (exists cb, c_out = Some cb /\ Z.of_nat (length sd) < 256) ->
  onnx_run_vad (Some (blk, sess)) audio audio_len (Some h) (Some c)
               prob_out h_out c_out w = Fault.
Proof.
  intros Hg Hheap Hh Hc Hmi Hten Hrun Hp Hbad.
  destruct w as [p go ge em fr lg]. unfold initialized in Hg.
  cbn in Hg. subst go.
  unfold onnx_run_vad. exec. rewrite Hmi. exec. rewrite Hten. exec.
  unfold bind at 1. rewrite pack_state_spec by (auto; apply Hheap).
  exec. rewrite Hten. exec. rewrite Hten. exec.
  unfold ort_run. rewrite Hrun. exec.
  unfold mutable_data, o_data, mkOut in *. cbn [o_answer] in *.
  destruct (o_answer o0) as [[pd|]|m0].
  - assert (Hx : exists x, get pd 0 = Some x).
    { specialize (Hp pd eq_refl).
      destruct pd; [simpl in Hp; lia | now eexists]. }
    destruct Hx as [x Hx].
    destruct prob_out as [pv|]; exec; try (unfold bind at 1);
      rewrite ?Hx; exec; try (unfold bind at 1);
      rewrite unpack_state_faults by exact Hbad; reflexivity.
  - exec. try (unfold bind at 1).
    rewrite unpack_state_faults by exact Hbad. reflexivity.
  - exec. try (unfold bind at 1).
    rewrite unpack_state_faults by exact Hbad. reflexivity.
Qed.

(** The hypotheses of X24 hold for a graph that puts out a state of 128
    floats only. *)
Lemma vad_trusts_state_size_witness :
  onnx_run_vad sample_handle (Some [0; 0]) 2
               (Some (constant_state 1)) (Some (constant_state 2))
               (Some 0) None (Some (constant_state 0))
               (sample_world
                  (sample_api
                     (fun _ _ _ =>
                        RunOk [Some (mkOut [] (Some [7]));
                               Some (mkOut [2; 1; 128]
                                           (Some (constant_state 3)))])))
  = Fault.
Proof.
  apply (vad_trusts_state_size
           (sample_world
              (sample_api
                 (fun _ _ _ =>
                    RunOk [Some (mkOut [] (Some [7]));
                           Some (mkOut [2; 1; 128]
                                       (Some (constant_state 3)))])))
           2%nat sample_session
           (sample_api
              (fun _ _ _ =>
                 RunOk [Some (mkOut [] (Some [7]));
                        Some (mkOut [2; 1; 128] (Some (constant_state 3)))]))
           (Some [0; 0]) 2 (constant_state 1) (constant_state 2)
           (Some 0) None (Some (constant_state 0))
           (mkOut [] (Some [7])) [2; 1; 128] (constant_state 3) []).
  - reflexivity.
  - intros h. reflexivity.
  - simpl. lia.
  - simpl. lia.
  - reflexivity.
  - intros t. reflexivity.
  - reflexivity.
  - intros b [= <-]. simpl. lia.
  - right. exists (constant_state 0). split; [reflexivity | simpl; lia].
Defined.

(** A refused [calloc] of a name array. *)
Lemma calloc_names_refused n w :
  heap_ok (host w) (fresh w) = false -> calloc_names n w = Done None w.
Proof.
  intros Hheap. unfold calloc_names.
  destruct (n * 8 <? size_modulus); [|reflexivity].
  unfold malloc. unfold bind at 1. cbn [get_world]. rewrite Hheap.
  reflexivity.
Qed.

(** X25. [onnx_create_session] does not check the [calloc] of its name
    arrays.  When the heap gives the session block and then refuses, and the
    graph has a first input whose name the runtime reports, the name is
    stored through a null array instead of the call returning NULL. *)
Theorem create_unchecked_name_arrays w ort env model_path :
  g_ort w = Some ort -> g_env w = Some env ->
  first_failure (create_answers ort model_path) = None ->
  heap_ok (host w) (fresh w) = true ->
  (forall h, (fresh w < h)%nat -> heap_ok (host w) h = false) ->
  (forall s, 1 <= count_of (SessionGetInputCount ort s)) ->
  (forall s, SessionGetInputName ort s 0 <> None) ->
  onnx_create_session model_path w = Fault.
Proof.
  intros Hort Henv Hans Hblock Hheap Hcount Hname.
  unfold create_answers in Hans.
  destruct (CreateSessionOptions ort) eqn:Eo; [|discriminate].
  destruct (CreateSession ort model_path) eqn:Es; [|discriminate].
  destruct (GetAllocatorWithDefaultOptions ort) eqn:Ea; [|discriminate].
  clear Hans. destruct w as [p go ge em fr lg].
  cbn in Hort, Henv. subst go ge. cbn [host fresh] in Hblock, Hheap.
  unfold onnx_create_session. exec.
  unfold bind at 1. unfold malloc. unfold bind at 1.
  cbn [get_world host fresh]. rewrite Hblock. exec. rewrite Eo. exec.
  destruct (SetSessionGraphOptimizationLevel ort) as [|s1],
           (SetIntraOpNumThreads ort) as [|s2],
           (SetInterOpNumThreads ort) as [|s3],
           (AppendExecutionProvider_CoreML p) as [|mc]; exec;
    rewrite Es; exec; rewrite Ea;
    match goal with
    | |- context [SessionGetInputCount ort ?s] =>
        specialize (Hcount s); specialize (Hname s);
        unfold count_of, fetch_count in *;
        (destruct (SessionGetInputCount ort s) as [n_in|]; [|lia]);
        (destruct (SessionGetOutputCount ort s) as [n_out|]); exec;
        (unfold bind at 1; rewrite calloc_names_refused
           by (cbn [host fresh]; apply Hheap; lia));
        (unfold bind at 1; rewrite calloc_names_refused
           by (cbn [host fresh]; apply Hheap; lia));
        (destruct (Z.to_nat n_in) as [|k] eqn:Ek; [lia|]);
        unfold bind at 1; cbn [fetch_names];
        (destruct (SessionGetInputName ort s 0);
         [reflexivity | contradiction])
    end.
Qed.

(** The hypotheses of X25 hold right after [onnx_init] on a heap that only
    gives block 2. *)
Lemma create_unchecked_name_arrays_witness :
  onnx_create_session (Some "vad.onnx"%string)
    (ready_world (mkPlatform (Some (sample_api failing_run)) Ok
                             (fun h => Nat.eqb h 2) 0)
                 (sample_api failing_run))
  = Fault.
Proof.
  apply (create_unchecked_name_arrays
           (ready_world (mkPlatform (Some (sample_api failing_run)) Ok
                                    (fun h => Nat.eqb h 2) 0)
                        (sample_api failing_run))
           (sample_api failing_run) 1%nat (Some "vad.onnx"%string)).
  - reflexivity.
  - reflexivity.
  - reflexivity.
  - reflexivity.
  - intros h Hh. cbn [ready_world host fresh heap_ok] in *.
    apply Nat.eqb_neq. lia.
  - intros s. simpl. lia.
  - intros s. discriminate.
Defined.

End OnnxWrapperMore.
